(** * Cross-domain message relayer

    A shallow embedding of the message indexing and relay code of the drill
    infrastructure:

    - [foundry/ts/src/lib/services/optimism/optimism.ts]
      ([relayL1Message], [encodeCrossDomainMessageV1],
      [hashCrossDomainMessageV1], [getSentMessageEvents],
      [getRelayedMessageEvents]);
    - [services/src/message-relayer/service.ts] (the [MessageRelayerService]
      class: [init], [indexHistoricalMessages], [indexNewMessages],
      [checkRelayedMessages], [relayPendingMessages], [updateMetrics], [main]
      and the two HTTP routes);
    - the loop of the base class that calls [main], which is not among the
      sources, as the spec describes it ([Orchestrator], [cycle]);
    - the helpers of the Tenderly utilities that the relay path calls
      ([setBalance], [sendForkTxAs]), and how they and [addBalance] and
      [setERC20Balance] spell a quantity;
    - [getSentMessageFromTx] of [optimism.ts] from the logs of the receipt
      on, and the message hash the demo script [bridgeRelayEth.ts] computes
      from its result.

    Conventions.  A [BigNumber] is a [Z]; a JavaScript [number] that holds a
    block height, a gas limit or a time stamp is a [Z] as well (fractional
    and non-finite numbers are outside the model).  Strings are [string].
    A byte string is a [list byte].  A [Map] is an association list in
    insertion order.  Everything that can raise returns a [result]; code
    that awaits a provider runs in the monad [M], which threads the chains,
    the service state, the gauges and the console, and keeps every change
    made before an exception was raised. *)

From Stdlib Require Import ZArith List String Ascii Bool Lia.
From Stdlib Require Import Strings.Byte.
From Stdlib Require Import Decimal DecimalString DecimalZ.
From Stdlib Require HexadecimalString HexadecimalPos HexadecimalFacts.
Import ListNotations.

Local Open Scope string_scope.
Local Open Scope list_scope.
Local Open Scope Z_scope.

Set Implicit Arguments.

(* ================================================================== *)
(** * Exceptions *)

Inductive Error : Type :=
| SenderMismatch (transactionHash sender extensionSender : string)
    (** [throw new Error(`Sender mismatch in transaction ...`)] *)
| InvalidArgument (reason : string)
    (** raised by the ethers argument checks *)
| NumericFault (reason : string)
    (** raised by ethers [BigNumber] operations *)
| TypeError (reason : string)
    (** a property read on [null] *)
| ProviderError (code : Z).
    (** anything a JSON-RPC provider rejects with *)

Inductive result (A : Type) : Type :=
| Ok (a : A)
| Throw (e : Error).

Arguments Ok {A} a.
Arguments Throw {A} e.

Definition isOk {A} (r : result A) : bool :=
  match r with Ok _ => true | Throw _ => false end.

Definition rbind {A B} (r : result A) (k : A -> result B) : result B :=
  match r with
  | Ok a => k a
  | Throw e => Throw e
  end.

Notation "'try!' x <- r ; k" := (rbind r (fun x => k))
  (at level 61, x name, r at next level, right associativity).

(** [array.map(f)] for a callback that may throw, and likewise
    [Promise.all(array.map(async f))] for a callback that never awaits:
    the callbacks run in array order and the first exception wins. *)
Fixpoint mapResult {A B} (f : A -> result B) (l : list A) : result (list B) :=
  match l with
  | [] => Ok []
  | a :: l' =>
      match f a, mapResult f l' with
      | Ok b, Ok bs => Ok (b :: bs)
      | Throw e, _ => Throw e
      | Ok _, Throw e => Throw e
      end
  end.

(* ================================================================== *)
(** * JavaScript strings and Maps *)

Definition charCode (c : ascii) : Z := Z.of_N (N_of_ascii c).

Definition lowerChar (c : ascii) : ascii :=
  let n := charCode c in
  if (65 <=? n) && (n <=? 90) then ascii_of_N (Z.to_N (n + 32)) else c.

(** [String.prototype.toLowerCase], on the ASCII letters. *)
Fixpoint toLowerCase (s : string) : string :=
  match s with
  | EmptyString => EmptyString
  | String c s' => String (lowerChar c) (toLowerCase s')
  end.

(** [Array.prototype.find]. *)
Definition Array_find {A} (p : A -> bool) (l : list A) : option A := find p l.

(** A [Map<string, V>]: its entries in insertion order. *)
Definition JsMap (V : Type) : Type := list (string * V).

Fixpoint Map_get {V} (m : JsMap V) (k : string) : option V :=
  match m with
  | [] => None
  | (k', v) :: m' => if String.eqb k' k then Some v else Map_get m' k
  end.

(** [Map.prototype.set]: a present key keeps its place and takes the new
    value, a new key goes last. *)
Fixpoint Map_set {V} (m : JsMap V) (k : string) (v : V) : JsMap V :=
  match m with
  | [] => [(k, v)]
  | (k', v') :: m' =>
      if String.eqb k' k then (k', v) :: m' else (k', v') :: Map_set m' k v
  end.

Definition Map_size {V} (m : JsMap V) : Z := Z.of_nat (List.length m).
Definition Map_keys {V} (m : JsMap V) : list string := map fst m.
Definition Map_values {V} (m : JsMap V) : list V := map snd m.
Definition Map_entries {V} (m : JsMap V) : list (string * V) := m.

(** An assignment to a field of the object stored under [k]: the entry is
    rewritten in place; nothing happens when there is no such object. *)
Fixpoint Map_mutate {V} (m : JsMap V) (k : string) (f : V -> V) : JsMap V :=
  match m with
  | [] => []
  | (k', v) :: m' =>
      if String.eqb k' k then (k', f v) :: m' else (k', v) :: Map_mutate m' k f
  end.

(* ================================================================== *)
(** * The parts of ethers the code relies on *)

(** ** Bytes and hexadecimal strings *)

Definition byte_of_Z (z : Z) : byte :=
  match Byte.of_N (Z.to_N (z mod 256)) with
  | Some b => b
  | None => x00
  end.

Definition Z_of_byte (b : byte) : Z := Z.of_N (Byte.to_N b).

(** The [n] low-order bytes of [v], most significant first. *)
Fixpoint bigEndian (n : nat) (v : Z) : list byte :=
  match n with
  | O => []
  | S n' => bigEndian n' (v / 256) ++ [byte_of_Z v]
  end.

Definition hexDigitValue (c : ascii) : option Z :=
  let n := charCode c in
  if (48 <=? n) && (n <=? 57) then Some (n - 48)
  else if (97 <=? n) && (n <=? 102) then Some (n - 87)
  else if (65 <=? n) && (n <=? 70) then Some (n - 55)
  else None.

Definition hexDigit (v : Z) : ascii :=
  if v <? 10 then ascii_of_N (Z.to_N (48 + v)) else ascii_of_N (Z.to_N (87 + v)).

Fixpoint hexPairs (s : string) : option (list byte) :=
  match s with
  | EmptyString => Some []
  | String _ EmptyString => None
  | String a (String b s') =>
      match hexDigitValue a, hexDigitValue b, hexPairs s' with
      | Some x, Some y, Some bs => Some (byte_of_Z (16 * x + y) :: bs)
      | _, _, _ => None
      end
  end.

(** Every character is a hexadecimal digit. *)
Fixpoint allHex (s : string) : bool :=
  match s with
  | EmptyString => true
  | String c s' =>
      match hexDigitValue c with
      | Some _ => allHex s'
      | None => false
      end
  end.

(** [ethers.utils.arrayify] on a string: [0x] and an even number of
    hexadecimal digits.  A hexadecimal string with an odd number of digits
    is refused for its length, anything else as no byte string at all. *)
Definition arrayify (s : string) : result (list byte) :=
  match s with
  | String "0" (String "x" digits) =>
      match hexPairs digits with
      | Some bs => Ok bs
      | None =>
          if allHex digits
          then Throw (InvalidArgument "hex data is odd-length")
          else Throw (InvalidArgument "invalid arrayify value")
      end
  | _ => Throw (InvalidArgument "invalid arrayify value")
  end.

Fixpoint hexChars (bs : list byte) : string :=
  match bs with
  | [] => EmptyString
  | b :: bs' =>
      String (hexDigit (Z_of_byte b / 16))
        (String (hexDigit (Z_of_byte b mod 16)) (hexChars bs'))
  end.

(** [ethers.utils.hexlify] on bytes. *)
Definition hexlify (bs : list byte) : string :=
  String "0" (String "x" (hexChars bs)).

(** The UTF-8 bytes of an ASCII string ([ethers.utils.toUtf8Bytes]). *)
Fixpoint toUtf8Bytes (s : string) : list byte :=
  match s with
  | EmptyString => []
  | String c s' => byte_of_Z (charCode c) :: toUtf8Bytes s'
  end.

(** ** BigNumber *)

Definition BigNumber : Type := Z.

(** What the code passes where ethers takes a [BigNumberish]: a
    [BigNumber], a JavaScript number, or a string. *)
Inductive BigNumberish : Type :=
| ArgBigNumber (v : BigNumber)
| ArgNumber (n : Z)
| ArgString (s : string).

Fixpoint hexValue (s : string) (acc : Z) : option Z :=
  match s with
  | EmptyString => Some acc
  | String c s' =>
      match hexDigitValue c with
      | Some d => hexValue s' (16 * acc + d)
      | None => None
      end
  end.

Definition hexLiteral (s : string) : option Z :=
  match s with
  | String "0" (String "x" (String c s')) => hexValue (String c s') 0
  | _ => None
  end.

(** [BigNumber.from] on a string: an optionally signed hexadecimal literal
    ([0x] and at least one digit), or an optionally signed run of decimal
    digits. *)
Definition BigNumber_fromString (s : string) : result BigNumber :=
  let hex :=
    match s with
    | String "-" s' => option_map Z.opp (hexLiteral s')
    | _ => hexLiteral s
    end in
  match hex with
  | Some v => Ok v
  | None =>
      match NilZero.int_of_string s with
      | Some d => Ok (Z.of_int d)
      | None => Throw (InvalidArgument "invalid BigNumber string")
      end
  end.

(** [BigNumber.from]: a number converts only when it is a safe integer. *)
Definition BigNumber_from (x : BigNumberish) : result BigNumber :=
  match x with
  | ArgBigNumber v => Ok v
  | ArgNumber n =>
      if (- (2 ^ 53 - 1) <? n) && (n <? 2 ^ 53 - 1) then Ok n
      else Throw (NumericFault "overflow")
  | ArgString s => BigNumber_fromString s
  end.

(** [BigNumber.prototype.toString]: decimal digits. *)
Definition BigNumber_toString (v : BigNumber) : string :=
  NilZero.string_of_int (Z.to_int v).

(** [BigNumber.prototype.toNumber]: only safe integers convert. *)
Definition BigNumber_toNumber (v : BigNumber) : result Z :=
  if (- 2 ^ 53 <? v) && (v <? 2 ^ 53) then Ok v
  else Throw (NumericFault "overflow").

Definition BigNumber_shl (v : BigNumber) (n : Z) : BigNumber := Z.shiftl v n.

(** [BigNumber.prototype.or]: refused on a negative operand. *)
Definition BigNumber_or (a : BigNumber) (b : BigNumber) : result BigNumber :=
  if (a <? 0) || (b <? 0)
  then Throw (NumericFault "unbound-bitwise-result")
  else Ok (Z.lor a b).

Definition BigNumber_isZero (v : BigNumber) : bool := v =? 0.

(** ** Hashing, addresses and the ABI coder *)

(** The two library functions taken as given: the Keccak-256 digest of a
    byte string, and [ethers.utils.getAddress], which returns the 160-bit
    number an address string spells and [None] where it raises. *)
Class Ethers : Type := {
  keccak256 : list byte -> list byte;
  getAddress : string -> option Z
}.

(** [Writer.writeValue]: one 32-byte word, refused when the value does not
    fit. *)
Definition Writer_writeValue (v : Z) : result (list byte) :=
  if (0 <=? v) && (v <? 2 ^ 256) then Ok (bigEndian 32 v)
  else Throw (InvalidArgument "value out-of-bounds").

(** [NumberCoder.encode] for [uint256]. *)
Definition NumberCoder_encode (x : BigNumberish) : result (list byte) :=
  try! v <- BigNumber_from x;
  if (v <? 0) || (2 ^ 256 - 1 <? v)
  then Throw (InvalidArgument "value out-of-bounds")
  else Writer_writeValue v.

(** [AddressCoder.encode]. *)
Definition AddressCoder_encode `{Ethers} (a : string) : result (list byte) :=
  match getAddress a with
  | Some v => Writer_writeValue v
  | None => Throw (InvalidArgument "invalid address")
  end.

Definition padding (len : nat) : list byte :=
  repeat x00 (Nat.modulo (32 - Nat.modulo len 32) 32).

(** [DynamicBytesCoder.encode]: the length word, the bytes, and zeros up to
    the next multiple of 32. *)
Definition BytesCoder_encode (data : string) : result (list byte) :=
  try! bytes <- arrayify data;
  try! len <- Writer_writeValue (Z.of_nat (List.length bytes));
  Ok (len ++ bytes ++ padding (List.length bytes)).

(** [Interface.getSighash]: the first four bytes of the digest of the
    canonical signature. *)
Definition getSighash `{Ethers} (signature : string) : list byte :=
  firstn 4 (keccak256 (toUtf8Bytes signature)).

(* ================================================================== *)
(** * optimism.ts: the pure part *)

Definition relayMessageSignature : string :=
  "relayMessage(uint256,address,address,uint256,uint256,bytes)".

(** [encodeCrossDomainMessageV1]: the selector, then the six arguments in
    ABI layout (five one-word heads, the offset [6 * 32] of the only dynamic
    argument, and its tail).  The result is the byte string whose [0x]
    spelling the source returns. *)
Definition encodeCrossDomainMessageV1 `{Ethers}
    (nonce : BigNumberish) (sender target : string) (value : BigNumber)
    (gasLimit : BigNumberish) (data : string) : result (list byte) :=
  try! w_nonce <- NumberCoder_encode nonce;
  try! w_sender <- AddressCoder_encode sender;
  try! w_target <- AddressCoder_encode target;
  try! w_value <- NumberCoder_encode (ArgBigNumber value);
  try! w_gasLimit <- NumberCoder_encode gasLimit;
  try! tail <- BytesCoder_encode data;
  try! w_offset <- Writer_writeValue 192;
  Ok (getSighash relayMessageSignature
        ++ w_nonce ++ w_sender ++ w_target ++ w_value ++ w_gasLimit
        ++ w_offset ++ tail).

(** [hashCrossDomainMessageV1]. *)
Definition hashCrossDomainMessageV1 `{Ethers}
    (nonce : BigNumberish) (sender target : string) (value : BigNumber)
    (gasLimit : BigNumberish) (data : string) : result string :=
  try! encodedMessage <-
    encodeCrossDomainMessageV1 nonce sender target value gasLimit data;
  Ok (hexlify (keccak256 encodedMessage)).

(** The decoded logs ([event.args] together with the log's block and
    transaction). *)
Module SentMessageEvent.
Record t : Type := {
  target : string;
  sender : string;
  message : string;
  messageNonce : BigNumber;
  gasLimit : BigNumber;
  blockNumber : Z;
  transactionHash : string
}.
End SentMessageEvent.

Module SentMessageExtension1Event.
Record t : Type := {
  sender : string;
  value : BigNumber;
  blockNumber : Z;
  transactionHash : string
}.
End SentMessageExtension1Event.

(** The records [getSentMessageEvents] returns. *)
Module SentMessage.
Record t : Type := {
  messageHash : string;
  sender : string;
  target : string;
  message : string;
  messageNonce : string;
  gasLimit : Z;
  value : BigNumber;
  blockNumber : Z;
  transactionHash : string
}.
End SentMessage.

(** [extensionEvents.find(ext => ext.transactionHash === event.transactionHash)] *)
Definition findExtension (extensionEvents : list SentMessageExtension1Event.t)
    (event : SentMessageEvent.t) : option SentMessageExtension1Event.t :=
  Array_find
    (fun ext => String.eqb (SentMessageExtension1Event.transactionHash ext)
                           (SentMessageEvent.transactionHash event))
    extensionEvents.

(** [extensionEvent && extensionEvent.args.sender.toLowerCase() !==
    event.args.sender.toLowerCase()] *)
Definition senderMismatch (extensionEvent : option SentMessageExtension1Event.t)
    (event : SentMessageEvent.t) : bool :=
  match extensionEvent with
  | Some ext =>
      negb (String.eqb (toLowerCase (SentMessageExtension1Event.sender ext))
                       (toLowerCase (SentMessageEvent.sender event)))
  | None => false
  end.

(** [extensionEvent ? extensionEvent.args.value : ethers.constants.Zero] *)
Definition extensionValue (extensionEvent : option SentMessageExtension1Event.t)
    : BigNumber :=
  match extensionEvent with
  | Some ext => SentMessageExtension1Event.value ext
  | None => 0
  end.

(** The callback [getSentMessageEvents] maps over the primary events. *)
Definition sentMessageOf `{Ethers}
    (extensionEvents : list SentMessageExtension1Event.t)
    (event : SentMessageEvent.t) : result SentMessage.t :=
  let extensionEvent := findExtension extensionEvents event in
  if senderMismatch extensionEvent event then
    Throw (SenderMismatch (SentMessageEvent.transactionHash event)
             (SentMessageEvent.sender event)
             (match extensionEvent with
              | Some ext => SentMessageExtension1Event.sender ext
              | None => EmptyString
              end))
  else
    let value := extensionValue extensionEvent in
    try! messageHash <-
      hashCrossDomainMessageV1
        (ArgBigNumber (SentMessageEvent.messageNonce event))
        (SentMessageEvent.sender event)
        (SentMessageEvent.target event)
        value
        (ArgBigNumber (SentMessageEvent.gasLimit event))
        (SentMessageEvent.message event);
    try! gasLimit <- BigNumber_toNumber (SentMessageEvent.gasLimit event);
    Ok {| SentMessage.messageHash := messageHash;
          SentMessage.sender := SentMessageEvent.sender event;
          SentMessage.target := SentMessageEvent.target event;
          SentMessage.message := SentMessageEvent.message event;
          SentMessage.messageNonce :=
            BigNumber_toString (SentMessageEvent.messageNonce event);
          SentMessage.gasLimit := gasLimit;
          SentMessage.value := value;
          SentMessage.blockNumber := SentMessageEvent.blockNumber event;
          SentMessage.transactionHash := SentMessageEvent.transactionHash event |}.

(** The body of [getSentMessageEvents] once both log queries have
    answered. *)
Definition pairSentMessages `{Ethers}
    (sentMessageEvents : list SentMessageEvent.t)
    (extensionEvents : list SentMessageExtension1Event.t)
    : result (list SentMessage.t) :=
  mapResult (sentMessageOf extensionEvents) sentMessageEvents.

(* ================================================================== *)
(** * Providers, service state and the monad of awaited code *)

Module Block.
Record t : Type := { number : Z; timestamp : Z }.
End Block.

Module Receipt.
Record t : Type := { blockNumber : Z; transactionHash : string }.
End Receipt.

(** The only contract method the code calls on the L2 messenger.  The ABI
    file of the messenger is not among the sources, so call data stays a
    method name with its argument list. *)
Inductive ContractCall : Type :=
| relayMessage (nonce : BigNumber) (sender target : string)
    (value : BigNumber) (minGasLimit : Z) (message : string).

Module PopulatedTransaction.
Record t : Type := {
  to : string;
  data : ContractCall;
  value : option BigNumber
}.
End PopulatedTransaction.

(** The two JSON-RPC methods sent through [provider.send]; quantities are
    kept as numbers rather than as their hexadecimal spelling. *)
Inductive RpcRequest : Type :=
| tenderly_setBalance (addresses : string) (balance : BigNumber)
| eth_sendTransaction (from : string) (to : string)
    (value : option BigNumber) (data : ContractCall).

(** An ethers provider together with the log queries of the two messenger
    contracts attached to it.  Each call may change the chain behind it
    ([W]) and may raise. *)
Module Provider.
Record t (W : Type) : Type := {
  getBlockNumber : W -> W * result Z;
  getBlock : Z -> W -> W * result (option Block.t);
  getTransactionReceipt : string -> W -> W * result (option Receipt.t);
  send : RpcRequest -> W -> W * result string;
  querySentMessage : Z -> Z -> W -> W * result (list SentMessageEvent.t);
  querySentMessageExtension1 :
    Z -> Z -> W -> W * result (list SentMessageExtension1Event.t);
  queryRelayedMessage : Z -> Z -> W -> W * result (list string)
}.
End Provider.

(** The addresses imported from [config/constants]. *)
Class Constants : Type := {
  L1_MESSENGER_ADDRESS_ALIAS : string;
  L2_CROSS_DOMAIN_MESSENGER_ADDRESS : string
}.

Module Message.
Record t : Type := {
  messageHash : string;
  sender : string;
  target : string;
  message : string;
  messageNonce : string;
  gasLimit : Z;
  value : BigNumber;
  blockNumber : Z;
  transactionHash : string;
  timestamp : Z;
  isRelayed : bool
}.

(** [{ ...msg, timestamp, isRelayed: false }] *)
Definition fresh (msg : SentMessage.t) (timestamp : Z) : t :=
  {| messageHash := SentMessage.messageHash msg;
     sender := SentMessage.sender msg;
     target := SentMessage.target msg;
     message := SentMessage.message msg;
     messageNonce := SentMessage.messageNonce msg;
     gasLimit := SentMessage.gasLimit msg;
     value := SentMessage.value msg;
     blockNumber := SentMessage.blockNumber msg;
     transactionHash := SentMessage.transactionHash msg;
     timestamp := timestamp;
     isRelayed := false |}.

(** [message.isRelayed = true] *)
Definition markRelayed (m : t) : t :=
  {| messageHash := messageHash m;
     sender := sender m;
     target := target m;
     message := message m;
     messageNonce := messageNonce m;
     gasLimit := gasLimit m;
     value := value m;
     blockNumber := blockNumber m;
     transactionHash := transactionHash m;
     timestamp := timestamp m;
     isRelayed := true |}.
End Message.

Module State.
Record t : Type := {
  messageQueue : JsMap Message.t;
  lastScannedL1Block : Z;
  lastScannedL2Block : Z
}.
End State.

(** The five gauges; [nodeConnectionFailures] is the sum over its labels. *)
Module Metrics.
Record t : Type := {
  nodeConnectionFailures : Z;
  messagesSent : Z;
  messagesRelayed : Z;
  pendingMessages : Z;
  messengerBalance : Z
}.
End Metrics.

Module Options.
Record t (W : Type) : Type := {
  l1RpcProvider : Provider.t W;
  l2RpcProvider : Provider.t W;
  l1StartBlock : Z;
  l2StartBlock : Z;
  sleepTimeMs : Z
}.
End Options.

(** The JSON body of the [/healthz] answer. *)
Module HealthzBody.
Record t : Type := { ok : bool; synced : bool; pendingMessages : Z }.
End HealthzBody.

(** One constructor for each [console.log] and [console.error] of the
    modelled functions, with the values it prints. *)
Inductive LogLine : Type :=
| IndexingHistorical
| FoundSent (n : Z)
| AddedToQueue (messageHash : string)
| FinishedHistoricalSent
| FoundRelayed (n : Z)
| MarkedRelayed (messageHash : string)
| FinishedHistoricalRelayed
| ScanningL1 (fromBlock toBlock : Z)
| FoundNew (n : Z)
| NoNewMessages
| ScanningL2 (fromBlock toBlock : Z)
| FoundNewRelayed (n : Z)
| MarkingRelayed (messageHash : string)
| NoNewRelayed
| AttemptingToRelay (messageHash : string)
| MessageRelayedInBlock (blockNumber : Z)
| FailedToRelay (messageHash : string) (error : Error)
| SetMessengerBalance (value : BigNumber)
| RelayTransactionSent (txHash : string)
| TransactionConfirmed (blockNumber : Z)
| ErrorRelaying (error : Error).

(** Everything awaited code can reach: the chains, [this.state],
    [this.metrics] and the console. *)
Record Sigma (W : Type) : Type := {
  world : W;
  state : State.t;
  metrics : Metrics.t;
  console : list LogLine
}.

Definition M (W A : Type) : Type := Sigma W -> Sigma W * result A.

Definition ret {W A} (a : A) : M W A := fun s => (s, Ok a).

Definition throw {W A} (e : Error) : M W A := fun s => (s, Throw e).

Definition bind {W A B} (m : M W A) (k : A -> M W B) : M W B :=
  fun s =>
    match m s with
    | (s', Ok a) => k a s'
    | (s', Throw e) => (s', Throw e)
    end.

Notation "x <- m ;; k" := (bind m (fun x => k))
  (at level 61, m at next level, right associativity).
Notation "m ;; k" := (bind m (fun _ => k))
  (at level 61, right associativity).

(** [try { body } catch (error) { handler }] *)
Definition tryCatch {W A} (body : M W A) (handler : Error -> M W A) : M W A :=
  fun s =>
    match body s with
    | (s', Ok a) => (s', Ok a)
    | (s', Throw e) => handler e s'
    end.

(** [for (const x of xs) { body }] *)
Fixpoint forOf {W A} (xs : list A) (body : A -> M W unit) : M W unit :=
  match xs with
  | [] => ret tt
  | x :: xs' => body x ;; forOf xs' body
  end.

(** A pure computation that may throw. *)
Definition liftResult {W A} (r : result A) : M W A := fun s => (s, r).

(** [await] on a provider call. *)
Definition await {W A} (call : W -> W * result A) : M W A :=
  fun s =>
    let (w', r) := call (world s) in
    ({| world := w'; state := state s; metrics := metrics s;
        console := console s |}, r).

Definition console_log {W} (line : LogLine) : M W unit :=
  fun s =>
    ({| world := world s; state := state s; metrics := metrics s;
        console := console s ++ [line] |}, Ok tt).

Definition getState {W} : M W State.t := fun s => (s, Ok (state s)).

Definition modifyState {W} (f : State.t -> State.t) : M W unit :=
  fun s =>
    ({| world := world s; state := f (state s); metrics := metrics s;
        console := console s |}, Ok tt).

Definition modifyMetrics {W} (f : Metrics.t -> Metrics.t) : M W unit :=
  fun s =>
    ({| world := world s; state := state s; metrics := f (metrics s);
        console := console s |}, Ok tt).

(** Assignments to the fields of [this.state]. *)
Definition set_messageQueue (q : JsMap Message.t) (st : State.t) : State.t :=
  {| State.messageQueue := q;
     State.lastScannedL1Block := State.lastScannedL1Block st;
     State.lastScannedL2Block := State.lastScannedL2Block st |}.

Definition set_lastScannedL1Block (b : Z) (st : State.t) : State.t :=
  {| State.messageQueue := State.messageQueue st;
     State.lastScannedL1Block := b;
     State.lastScannedL2Block := State.lastScannedL2Block st |}.

Definition set_lastScannedL2Block (b : Z) (st : State.t) : State.t :=
  {| State.messageQueue := State.messageQueue st;
     State.lastScannedL1Block := State.lastScannedL1Block st;
     State.lastScannedL2Block := b |}.

(** [Gauge.set], [Gauge.inc] and [Gauge.dec] on the gauges the code
    touches. *)
Definition messagesSent_set (v : Z) (m : Metrics.t) : Metrics.t :=
  {| Metrics.nodeConnectionFailures := Metrics.nodeConnectionFailures m;
     Metrics.messagesSent := v;
     Metrics.messagesRelayed := Metrics.messagesRelayed m;
     Metrics.pendingMessages := Metrics.pendingMessages m;
     Metrics.messengerBalance := Metrics.messengerBalance m |}.

Definition messagesRelayed_set (v : Z) (m : Metrics.t) : Metrics.t :=
  {| Metrics.nodeConnectionFailures := Metrics.nodeConnectionFailures m;
     Metrics.messagesSent := Metrics.messagesSent m;
     Metrics.messagesRelayed := v;
     Metrics.pendingMessages := Metrics.pendingMessages m;
     Metrics.messengerBalance := Metrics.messengerBalance m |}.

Definition pendingMessages_set (v : Z) (m : Metrics.t) : Metrics.t :=
  {| Metrics.nodeConnectionFailures := Metrics.nodeConnectionFailures m;
     Metrics.messagesSent := Metrics.messagesSent m;
     Metrics.messagesRelayed := Metrics.messagesRelayed m;
     Metrics.pendingMessages := v;
     Metrics.messengerBalance := Metrics.messengerBalance m |}.

Definition messagesSent_inc (m : Metrics.t) : Metrics.t :=
  messagesSent_set (Metrics.messagesSent m + 1) m.

Definition messagesRelayed_inc (m : Metrics.t) : Metrics.t :=
  messagesRelayed_set (Metrics.messagesRelayed m + 1) m.

Definition pendingMessages_dec (m : Metrics.t) : Metrics.t :=
  pendingMessages_set (Metrics.pendingMessages m - 1) m.

(** [await Promise.all([a, b])]: both requests go out, and the call fails
    when either of them fails.  When both fail, [Promise.all] rejects with
    the rejection that arrives first, which is a matter of timing; the model
    reports the one of the first request. *)
Definition Promise_all2 {W A B} (a : M W A) (b : M W B) : M W (A * B) :=
  fun s =>
    match a s with
    | (s1, ra) =>
        match b s1 with
        | (s2, rb) =>
            (s2, match ra, rb with
                 | Ok x, Ok y => Ok (x, y)
                 | Throw e, _ => Throw e
                 | Ok _, Throw e => Throw e
                 end)
        end
    end.

(** [message.isRelayed = true] on the object stored under [hash]. *)
Definition setRelayed {W} (hash : string) : M W unit :=
  modifyState (fun st =>
    set_messageQueue (Map_mutate (State.messageQueue st) hash Message.markRelayed)
      st).

(** The body of the loop of [checkRelayedMessages]. *)
Definition confirmRelayed {W} (hash : string) : M W unit :=
  st' <- getState ;;
  match Map_get (State.messageQueue st') hash with
  | Some message =>
      if negb (Message.isRelayed message) then
        console_log (MarkingRelayed hash) ;;
        setRelayed hash ;;
        modifyMetrics messagesRelayed_inc ;;
        modifyMetrics pendingMessages_dec
      else ret tt
  | None => ret tt
  end.

(** Modelled from the spec: what the Poll Orchestrator keeps beside the
    service.  The loop that calls [main] belongs to the base class
    [BaseServiceV2], which is not among the sources; the spec says of a
    failed read that it is "logged, increments a failure counter".  So the
    orchestrator holds the errors it has logged and a failure counter. *)
Module Orchestrator.
Record t (W : Type) : Type := {
  service : Sigma W;
  errorLog : list Error;
  failureCounter : Z
}.
End Orchestrator.

(* ================================================================== *)
(** * utils/tenderly.ts *)

Section Relayer.

Context {W : Type} `{Ethers} `{Constants}.

(** [setBalance]: [provider.send("tenderly_setBalance", [addresses, hex])] *)
Definition setBalance (provider : Provider.t W) (addresses : string)
    (balance : BigNumber) : M W unit :=
  _ <- await (Provider.send provider (tenderly_setBalance addresses balance)) ;;
  ret tt.

(** [sendForkTxAs]: [provider.send("eth_sendTransaction", [params])] *)
Definition sendForkTxAs (provider : Provider.t W)
    (tx : PopulatedTransaction.t) (from : string) : M W string :=
  await (Provider.send provider
           (eth_sendTransaction from (PopulatedTransaction.to tx)
              (PopulatedTransaction.value tx) (PopulatedTransaction.data tx))).

(* ================================================================== *)
(** * optimism.ts: the awaited part *)

(** [BigNumber.from(1).shl(240).or(BigNumber.from(nonce))] *)
Definition versionedNonce (nonce : BigNumberish) : result BigNumber :=
  try! n <- BigNumber_from nonce;
  BigNumber_or (BigNumber_shl 1 240) n.

(** How a contract call resolves an address argument: an address is taken
    as it is, and a hexadecimal string that is no address is refused.  (Any
    other string would be looked up as an ENS name; the model takes that
    lookup to find nothing.) *)
Definition resolveName (name : string) : result Z :=
  match getAddress name with
  | Some address => Ok address
  | None => Throw (InvalidArgument "invalid address")
  end.

(** [populateTransaction.relayMessage(...)], followed by
    [if (!value.isZero()) tx.value = value].  The contract call resolves its
    two address arguments and then encodes the six arguments with
    [Interface.encodeFunctionData], for the signature
    [relayMessage(uint256,address,address,uint256,uint256,bytes)] that
    [encodeCrossDomainMessageV1] spells out; it throws where a resolution or
    the encoding throws, the gas limit being given as a number.  The call
    data itself stays the method with its argument list. *)
Definition relayTransaction (versioned : BigNumber) (l1Sender target : string)
    (value : BigNumber) (minGasLimit : Z) (message : string)
    : result PopulatedTransaction.t :=
  try! _ <- resolveName l1Sender;
  try! _ <- resolveName target;
  try! _ <- encodeCrossDomainMessageV1 (ArgBigNumber versioned) l1Sender target
              value (ArgNumber minGasLimit) message;
  Ok {| PopulatedTransaction.to := L2_CROSS_DOMAIN_MESSENGER_ADDRESS;
        PopulatedTransaction.data :=
          relayMessage versioned l1Sender target value minGasLimit message;
        PopulatedTransaction.value :=
          if negb (BigNumber_isZero value) then Some value else None |}.

(** The [try] block of [relayL1Message]. *)
Definition submitRelay (provider : Provider.t W) (versioned : BigNumber)
    (l1Sender target message : string) (value : BigNumber) (minGasLimit : Z)
    : M W Receipt.t :=
  (if negb (BigNumber_isZero value)
   then setBalance provider L1_MESSENGER_ADDRESS_ALIAS value ;;
        console_log (SetMessengerBalance value)
   else ret tt) ;;
  tx <- liftResult (relayTransaction versioned l1Sender target value
                      minGasLimit message) ;;
  txHash <- sendForkTxAs provider tx L1_MESSENGER_ADDRESS_ALIAS ;;
  console_log (RelayTransactionSent txHash) ;;
  receipt <- await (Provider.getTransactionReceipt provider txHash) ;;
  match receipt with
  | Some r =>
      console_log (TransactionConfirmed (Receipt.blockNumber r)) ;;
      ret r
  | None => throw (TypeError "receipt.blockNumber")
  end.

Definition relayL1Message (provider : Provider.t W)
    (l1Sender target message : string) (nonce : BigNumberish)
    (value : BigNumber) (minGasLimit : Z) : M W Receipt.t :=
  versioned <- liftResult (versionedNonce nonce) ;;
  tryCatch
    (submitRelay provider versioned l1Sender target message value minGasLimit)
    (fun error => console_log (ErrorRelaying error) ;; throw error).

(** [getSentMessageEvents]; the service always passes a block number for
    [toBlock]. *)
Definition getSentMessageEvents (provider : Provider.t W)
    (fromBlock toBlock : Z) : M W (list SentMessage.t) :=
  events <- Promise_all2
              (await (Provider.querySentMessage provider fromBlock toBlock))
              (await (Provider.querySentMessageExtension1 provider fromBlock
                        toBlock)) ;;
  liftResult (pairSentMessages (fst events) (snd events)).

Definition getRelayedMessageEvents (provider : Provider.t W)
    (fromBlock toBlock : Z) : M W (list string) :=
  await (Provider.queryRelayedMessage provider fromBlock toBlock).

(* ================================================================== *)
(** * message-relayer/service.ts *)

Variable options : Options.t W.

(** [(await provider.getBlock(n)).timestamp] *)
Definition blockTimestamp (provider : Provider.t W) (n : Z) : M W Z :=
  block <- await (Provider.getBlock provider n) ;;
  match block with
  | Some b => ret (Block.timestamp b)
  | None => throw (TypeError "block.timestamp")
  end.

(** The body of the two loops that add sent messages to the queue. *)
Definition addToQueue (msg : SentMessage.t) : M W unit :=
  timestamp <- blockTimestamp (Options.l1RpcProvider options)
                 (SentMessage.blockNumber msg) ;;
  modifyState (fun st =>
    set_messageQueue
      (Map_set (State.messageQueue st) (SentMessage.messageHash msg)
         (Message.fresh msg timestamp)) st) ;;
  modifyMetrics messagesSent_inc ;;
  console_log (AddedToQueue (SentMessage.messageHash msg)).

Definition indexHistoricalMessages : M W unit :=
  console_log IndexingHistorical ;;
  latestL1Block <- await (Provider.getBlockNumber (Options.l1RpcProvider options)) ;;
  latestL2Block <- await (Provider.getBlockNumber (Options.l2RpcProvider options)) ;;
  sentMessages <- getSentMessageEvents (Options.l1RpcProvider options)
                    (Options.l1StartBlock options) latestL1Block ;;
  console_log (FoundSent (Z.of_nat (List.length sentMessages))) ;;
  forOf sentMessages addToQueue ;;
  modifyState (set_lastScannedL1Block latestL1Block) ;;
  console_log FinishedHistoricalSent ;;
  relayedHashes <- getRelayedMessageEvents (Options.l2RpcProvider options)
                     (Options.l2StartBlock options) latestL2Block ;;
  console_log (FoundRelayed (Z.of_nat (List.length relayedHashes))) ;;
  forOf relayedHashes (fun hash =>
    st <- getState ;;
    match Map_get (State.messageQueue st) hash with
    | Some _ =>
        setRelayed hash ;;
        modifyMetrics messagesRelayed_inc ;;
        console_log (MarkedRelayed hash)
    | None => ret tt
    end) ;;
  modifyState (set_lastScannedL2Block latestL2Block) ;;
  console_log FinishedHistoricalRelayed.

(** [init], after the two [waitForProvider] calls (which only wait until
    each provider answers). *)
Definition init : M W unit :=
  modifyState (set_messageQueue []) ;;
  modifyMetrics (messagesSent_set 0) ;;
  modifyMetrics (messagesRelayed_set 0) ;;
  modifyMetrics (pendingMessages_set 0) ;;
  modifyState (set_lastScannedL1Block (Options.l1StartBlock options)) ;;
  modifyState (set_lastScannedL2Block (Options.l2StartBlock options)) ;;
  indexHistoricalMessages.

Definition indexNewMessages : M W unit :=
  latestL1Block <- await (Provider.getBlockNumber (Options.l1RpcProvider options)) ;;
  st <- getState ;;
  if State.lastScannedL1Block st <? latestL1Block then
    console_log (ScanningL1 (State.lastScannedL1Block st) latestL1Block) ;;
    newMessages <- getSentMessageEvents (Options.l1RpcProvider options)
                     (State.lastScannedL1Block st + 1) latestL1Block ;;
    console_log (FoundNew (Z.of_nat (List.length newMessages))) ;;
    forOf newMessages addToQueue ;;
    modifyState (set_lastScannedL1Block latestL1Block)
  else
    console_log NoNewMessages.

Definition checkRelayedMessages : M W unit :=
  latestL2Block <- await (Provider.getBlockNumber (Options.l2RpcProvider options)) ;;
  st <- getState ;;
  if State.lastScannedL2Block st <? latestL2Block then
    console_log (ScanningL2 (State.lastScannedL2Block st) latestL2Block) ;;
    newRelayedHashes <- getRelayedMessageEvents (Options.l2RpcProvider options)
                          (State.lastScannedL2Block st + 1) latestL2Block ;;
    console_log (FoundNewRelayed (Z.of_nat (List.length newRelayedHashes))) ;;
    forOf newRelayedHashes confirmRelayed ;;
    modifyState (set_lastScannedL2Block latestL2Block)
  else
    console_log NoNewRelayed.

(** The body of the loop of [relayPendingMessages]. *)
Definition relayOne (entry : string * Message.t) : M W unit :=
  let (messageHash, message) := entry in
  if negb (Message.isRelayed message) then
    tryCatch
      (console_log (AttemptingToRelay messageHash) ;;
       relayReceipt <- relayL1Message (Options.l2RpcProvider options)
                         (Message.sender message)
                         (Message.target message)
                         (Message.message message)
                         (ArgString (Message.messageNonce message))
                         (Message.value message)
                         (Message.gasLimit message) ;;
       console_log (MessageRelayedInBlock (Receipt.blockNumber relayReceipt)) ;;
       setRelayed messageHash ;;
       modifyMetrics messagesRelayed_inc ;;
       modifyMetrics pendingMessages_dec)
      (fun error => console_log (FailedToRelay messageHash error))
  else ret tt.

(** The loop runs over the entries of the queue.  Its body never adds or
    removes a key and changes only the object it is visiting, so the
    entries read at the start are the entries the loop meets. *)
Definition relayPendingMessages : M W unit :=
  st <- getState ;;
  forOf (Map_entries (State.messageQueue st)) relayOne.

(** The count [updateMetrics] computes. *)
Definition pendingCount (q : JsMap Message.t) : Z :=
  fold_left (fun count message =>
               if negb (Message.isRelayed message) then count + 1 else count)
            (Map_values q) 0.

Definition updateMetrics : M W unit :=
  st <- getState ;;
  modifyMetrics (pendingMessages_set (pendingCount (State.messageQueue st))).

(** [main]; the closing sleep changes nothing. *)
Definition main : M W unit :=
  indexNewMessages ;;
  checkRelayedMessages ;;
  relayPendingMessages ;;
  updateMetrics.

(** The base class calls [main] again and again, whether the last call
    returned or threw. *)
Fixpoint loop (n : nat) (s : Sigma W) : Sigma W :=
  match n with
  | O => s
  | S n' => loop n' (fst (main s))
  end.

(** Modelled from the spec: one cycle of the Poll Orchestrator.  It runs
    [main]; a cycle that throws "aborts early", the failure is "logged" and
    "increments a failure counter", and the loop goes on with the state the
    cycle left. *)
Definition cycle (o : Orchestrator.t W) : Orchestrator.t W :=
  match main (Orchestrator.service o) with
  | (s', Ok _) =>
      {| Orchestrator.service := s';
         Orchestrator.errorLog := Orchestrator.errorLog o;
         Orchestrator.failureCounter := Orchestrator.failureCounter o |}
  | (s', Throw e) =>
      {| Orchestrator.service := s';
         Orchestrator.errorLog := Orchestrator.errorLog o ++ [e];
         Orchestrator.failureCounter := Orchestrator.failureCounter o + 1 |}
  end.

(** The two routes. *)
Definition healthz : M W (Z * HealthzBody.t) :=
  st <- getState ;;
  ret (200, {| HealthzBody.ok := true;
               HealthzBody.synced := true;
               HealthzBody.pendingMessages :=
                 Map_size (State.messageQueue st) |}).

Definition messages : M W (Z * list Message.t) :=
  st <- getState ;;
  ret (200, Map_values (State.messageQueue st)).

End Relayer.

Arguments healthz {W}.
Arguments messages {W}.

(* ================================================================== *)
(** * A scripted pair of chains for the examples

    The chain heads, the logs and the outcome of a relay are fixed by a
    script; calls leave the script as it is.  The digest is a stand-in (it
    is not Keccak) and the address parser accepts [0x] followed by forty
    hexadecimal digits. *)

Module Script.
Record t : Type := {
  l1Head : result Z;
  l2Head : result Z;
  sent : list SentMessageEvent.t;
  extensions : list SentMessageExtension1Event.t;
  relayed : list (Z * string);
  (** targets whose relay transaction is rejected *)
  rejected : list string
}.
End Script.

Definition inRange (fromBlock toBlock b : Z) : bool :=
  (fromBlock <=? b) && (b <=? toBlock).

Definition scriptedSend (request : RpcRequest) (w : Script.t)
    : Script.t * result string :=
  match request with
  | tenderly_setBalance _ _ => (w, Ok EmptyString)
  | eth_sendTransaction _ _ _ (relayMessage _ _ target _ _ _) =>
      if existsb (String.eqb target) (Script.rejected w)
      then (w, Throw (ProviderError (-32000)))
      else (w, Ok "0x7e1a")
  end.

Definition scriptedProvider (head : Script.t -> result Z)
    : Provider.t Script.t :=
  {| Provider.getBlockNumber := fun w => (w, head w);
     Provider.getBlock := fun n w =>
       (w, Ok (Some {| Block.number := n; Block.timestamp := 1700000000 + n |}));
     Provider.getTransactionReceipt := fun txHash w =>
       (w, Ok (Some {| Receipt.blockNumber := 7;
                       Receipt.transactionHash := txHash |}));
     Provider.send := scriptedSend;
     Provider.querySentMessage := fun fromBlock toBlock w =>
       (w, Ok (filter (fun e => inRange fromBlock toBlock
                                  (SentMessageEvent.blockNumber e))
                      (Script.sent w)));
     Provider.querySentMessageExtension1 := fun fromBlock toBlock w =>
       (w, Ok (filter (fun e => inRange fromBlock toBlock
                                  (SentMessageExtension1Event.blockNumber e))
                      (Script.extensions w)));
     Provider.queryRelayedMessage := fun fromBlock toBlock w =>
       (w, Ok (map snd (filter (fun e => inRange fromBlock toBlock (fst e))
                               (Script.relayed w)))) |}.

Definition scriptedOptions (l1StartBlock l2StartBlock : Z)
    : Options.t Script.t :=
  {| Options.l1RpcProvider := scriptedProvider Script.l1Head;
     Options.l2RpcProvider := scriptedProvider Script.l2Head;
     Options.l1StartBlock := l1StartBlock;
     Options.l2StartBlock := l2StartBlock;
     Options.sleepTimeMs := 15000 |}.

Definition standInDigest (bs : list byte) : list byte :=
  bigEndian 32
    (fold_left (fun acc b => (acc * 31 + Z_of_byte b + 1) mod 65521) bs 0).

Definition plainAddress (s : string) : option Z :=
  match s with
  | String "0" (String "x" digits) =>
      if Nat.eqb (String.length digits) 40 then hexValue digits 0 else None
  | _ => None
  end.

Definition scriptedEthers : Ethers :=
  {| keccak256 := standInDigest; getAddress := plainAddress |}.

Definition optimismConstants : Constants :=
  {| L1_MESSENGER_ADDRESS_ALIAS := "0x36bde71c97b33cc4729cf772ae268934f7ab70b2";
     L2_CROSS_DOMAIN_MESSENGER_ADDRESS :=
       "0x4200000000000000000000000000000000000007" |}.

Definition noMetrics : Metrics.t :=
  {| Metrics.nodeConnectionFailures := 0;
     Metrics.messagesSent := 0;
     Metrics.messagesRelayed := 0;
     Metrics.pendingMessages := 0;
     Metrics.messengerBalance := 0 |}.

Definition startAt (w : Script.t) (q : JsMap Message.t) (l1 l2 : Z)
    : Sigma Script.t :=
  {| world := w;
     state := {| State.messageQueue := q;
                 State.lastScannedL1Block := l1;
                 State.lastScannedL2Block := l2 |};
     metrics := noMetrics;
     console := [] |}.

Definition addrA : string := "0x00000000000000000000000000000000000000aa".
Definition addrB : string := "0x00000000000000000000000000000000000000bb".
Definition addrC : string := "0x00000000000000000000000000000000000000cc".

(** The send event of the end-to-end scenario: block 105, nonce 1, sender
    [0xAA], target [0xBB], gas limit 200000, payload [0x1234]. *)
Definition event105 : SentMessageEvent.t :=
  {| SentMessageEvent.target := addrB;
     SentMessageEvent.sender := addrA;
     SentMessageEvent.message := "0x1234";
     SentMessageEvent.messageNonce := 1;
     SentMessageEvent.gasLimit := 200000;
     SentMessageEvent.blockNumber := 105;
     SentMessageEvent.transactionHash := "0x0105" |}.

(** A second send event, to a target whose relay the script rejects. *)
Definition event106 : SentMessageEvent.t :=
  {| SentMessageEvent.target := addrC;
     SentMessageEvent.sender := addrA;
     SentMessageEvent.message := "0x";
     SentMessageEvent.messageNonce := 2;
     SentMessageEvent.gasLimit := 200000;
     SentMessageEvent.blockNumber := 106;
     SentMessageEvent.transactionHash := "0x0106" |}.

Definition extensionOf (sender : string) (value : Z) (block : Z) (tx : string)
    : SentMessageExtension1Event.t :=
  {| SentMessageExtension1Event.sender := sender;
     SentMessageExtension1Event.value := value;
     SentMessageExtension1Event.blockNumber := block;
     SentMessageExtension1Event.transactionHash := tx |}.

Definition script (l1Head l2Head : result Z)
    (sent : list SentMessageEvent.t)
    (extensions : list SentMessageExtension1Event.t)
    (relayed : list (Z * string)) (rejected : list string) : Script.t :=
  {| Script.l1Head := l1Head; Script.l2Head := l2Head;
     Script.sent := sent; Script.extensions := extensions;
     Script.relayed := relayed; Script.rejected := rejected |}.

Definition demoOptions : Options.t Script.t := scriptedOptions 100 0.

(** The identity hashes of the two send events under the stand-in digest,
    and the records the service stores for them. *)
Definition hashOfEvent (event : SentMessageEvent.t) (value : BigNumber)
    : string :=
  match @hashCrossDomainMessageV1 scriptedEthers
          (ArgBigNumber (SentMessageEvent.messageNonce event))
          (SentMessageEvent.sender event) (SentMessageEvent.target event)
          value (ArgBigNumber (SentMessageEvent.gasLimit event))
          (SentMessageEvent.message event) with
  | Ok h => h
  | Throw _ => EmptyString
  end.

Definition storedMessage (event : SentMessageEvent.t) (relayed : bool)
    : Message.t :=
  {| Message.messageHash := hashOfEvent event 0;
     Message.sender := SentMessageEvent.sender event;
     Message.target := SentMessageEvent.target event;
     Message.message := SentMessageEvent.message event;
     Message.messageNonce :=
       BigNumber_toString (SentMessageEvent.messageNonce event);
     Message.gasLimit := SentMessageEvent.gasLimit event;
     Message.value := 0;
     Message.blockNumber := SentMessageEvent.blockNumber event;
     Message.transactionHash := SentMessageEvent.transactionHash event;
     Message.timestamp := 1700000000 + SentMessageEvent.blockNumber event;
     Message.isRelayed := relayed |}.

(** The record [getSentMessageEvents] returns for an event without
    extension event. *)
Definition indexedMessage (event : SentMessageEvent.t) : SentMessage.t :=
  {| SentMessage.messageHash := hashOfEvent event 0;
     SentMessage.sender := SentMessageEvent.sender event;
     SentMessage.target := SentMessageEvent.target event;
     SentMessage.message := SentMessageEvent.message event;
     SentMessage.messageNonce :=
       BigNumber_toString (SentMessageEvent.messageNonce event);
     SentMessage.gasLimit := SentMessageEvent.gasLimit event;
     SentMessage.value := 0;
     SentMessage.blockNumber := SentMessageEvent.blockNumber event;
     SentMessage.transactionHash := SentMessageEvent.transactionHash event |}.

(** Heads at 110 and 60; both send events on L1, no extension events; the
    relay to [addrC] is rejected. *)
Definition chain110 : Script.t :=
  script (Ok 110) (Ok 60) [event105; event106] [] [] [addrC].

(** The same chain once L2 has confirmed the first message in block 58. *)
Definition chain110Confirmed : Script.t :=
  script (Ok 110) (Ok 60) [event105; event106] []
    [(58, hashOfEvent event105 0); (59, "0xdead")] [addrC].

(** An L1 whose head is at 50. *)
Definition chain50 : Script.t := script (Ok 50) (Ok 60) [] [] [] [].

(** Chains whose head cannot be read. *)
Definition unreachableL1 : Script.t :=
  script (Throw (ProviderError (-32603))) (Ok 60) [event105] [] [] [].

Definition unreachableL2 : Script.t :=
  script (Ok 110) (Throw (ProviderError (-32603))) [event105] [] [] [].

(** The first message stored and already relayed, cursors at 100 and 60. *)
Definition relayedStore : Sigma Script.t :=
  startAt chain110 [(hashOfEvent event105 0, storedMessage event105 true)]
    100 60.

(** Both messages stored and pending. *)
Definition twoPending : Sigma Script.t :=
  startAt chain110
    [(hashOfEvent event106 0, storedMessage event106 false);
     (hashOfEvent event105 0, storedMessage event105 false)]
    110 60.

(** Two extension events of the transaction of [event105]: the first agrees
    with it on the sender, the second does not. *)
Definition twoExtensions : list SentMessageExtension1Event.t :=
  [extensionOf addrA 5 105 "0x0105"; extensionOf addrC 7 105 "0x0105"].

(** A chain that holds the first send event and those two extension
    events. *)
Definition chainTwoExtensions : Script.t :=
  script (Ok 110) (Ok 60) [event105] twoExtensions [] [].

(** One extension event of that transaction, from another sender. *)
Definition foreignExtension : list SentMessageExtension1Event.t :=
  [extensionOf addrC 7 105 "0x0105"].

(* ================================================================== *)
(** * Predicates used in the statements *)

(** The arguments the ABI coder accepts. *)
Definition validUint256 (x : BigNumberish) : Prop :=
  match BigNumber_from x with
  | Ok v => 0 <= v < 2 ^ 256
  | Throw _ => False
  end.

Definition validAddress `{Ethers} (a : string) : Prop :=
  match getAddress a with
  | Some v => 0 <= v < 2 ^ 256
  | None => False
  end.

Definition validBytes (data : string) : Prop :=
  match arrayify data with
  | Ok bytes => Z.of_nat (List.length bytes) < 2 ^ 256
  | Throw _ => False
  end.

(** What decoding a [SentMessage] log guarantees about its arguments,
    together with a gas limit that is a safe integer. *)
Definition wellFormedEvent `{Ethers} (event : SentMessageEvent.t) : Prop :=
  0 <= SentMessageEvent.messageNonce event < 2 ^ 256
  /\ validAddress (SentMessageEvent.sender event)
  /\ validAddress (SentMessageEvent.target event)
  /\ 0 <= SentMessageEvent.gasLimit event < 2 ^ 53
  /\ validBytes (SentMessageEvent.message event).

(** The version tag of a nonce: its bits from 240 upwards. *)
Definition nonceVersion (nonce : BigNumber) : Z := Z.shiftr nonce 240.

(** The hashes named by the [Attempting to relay message] lines of a
    console, and those named by its [Failed to relay message] lines. *)
Definition attempted (lines : list LogLine) : list string :=
  flat_map (fun line =>
              match line with
              | AttemptingToRelay h => [h]
              | _ => []
              end) lines.

Definition failed (lines : list LogLine) : list string :=
  flat_map (fun line =>
              match line with
              | FailedToRelay h _ => [h]
              | _ => []
              end) lines.

(** The hashes of the pending entries of a queue, in queue order. *)
Definition pendingHashes (q : JsMap Message.t) : list string :=
  map fst (filter (fun entry => negb (Message.isRelayed (snd entry))) q).


(** ** Relations between the state before and after a computation *)

(** A preorder that no provider call can break. *)
Class Frame {W : Type} (R : Sigma W -> Sigma W -> Prop) : Prop := {
  frame_refl : forall s, R s s;
  frame_trans : forall s1 s2 s3, R s1 s2 -> R s2 s3 -> R s1 s3;
  frame_world : forall s w,
    R s {| world := w; state := state s; metrics := metrics s;
           console := console s |}
}.

(** [m] keeps [R] between its start and its end, whether it returns or
    throws. *)
Definition stable {W A : Type} (R : Sigma W -> Sigma W -> Prop) (m : M W A)
    : Prop :=
  forall s, R s (fst (m s)).

(** A view of the state and the gauges has the same value afterwards. *)
Definition keeps {W X : Type} (view : State.t -> Metrics.t -> X)
    : Sigma W -> Sigma W -> Prop :=
  fun s s' => view (state s') (metrics s') = view (state s) (metrics s).

(** Neither cursor is lower afterwards. *)
Definition cursorsAdvance {W : Type} : Sigma W -> Sigma W -> Prop :=
  fun s s' =>
    State.lastScannedL1Block (state s) <= State.lastScannedL1Block (state s')
    /\ State.lastScannedL2Block (state s) <= State.lastScannedL2Block (state s').

(** Every key holds the record it held, or that record marked relayed when
    it was pending; no key appears or disappears. *)
Definition onlyMarks {W : Type} : Sigma W -> Sigma W -> Prop :=
  fun s s' =>
    forall k,
      Map_get (State.messageQueue (state s')) k
      = Map_get (State.messageQueue (state s)) k
      \/ exists m,
           Map_get (State.messageQueue (state s)) k = Some m
           /\ Message.isRelayed m = false
           /\ Map_get (State.messageQueue (state s')) k
              = Some (Message.markRelayed m).

(** The keys of the queue are distinct afterwards if they were before. *)
Definition keysStayDistinct {W : Type} : Sigma W -> Sigma W -> Prop :=
  fun s s' =>
    NoDup (Map_keys (State.messageQueue (state s))) ->
    NoDup (Map_keys (State.messageQueue (state s'))).

(** The views the proofs use. *)
Definition cursorsView (st : State.t) (_ : Metrics.t) : Z * Z :=
  (State.lastScannedL1Block st, State.lastScannedL2Block st).

Definition dataView (st : State.t) (m : Metrics.t) : State.t * Metrics.t :=
  (st, m).

Definition keysView (st : State.t) (_ : Metrics.t) : list string :=
  Map_keys (State.messageQueue st).

Definition failuresView (_ : State.t) (m : Metrics.t) : Z :=
  Metrics.nodeConnectionFailures m.

(** State and gauges are as before, and the console has only grown by
    lines that name no relay attempt and no relay failure. *)
Definition quiet {W : Type} : Sigma W -> Sigma W -> Prop :=
  fun s s' =>
    state s' = state s /\ metrics s' = metrics s
    /\ exists lines, console s' = console s ++ lines
                     /\ attempted lines = [] /\ failed lines = [].

(** The balance step of [relayL1Message] was answered.  With value zero
    there is no such step; otherwise [tenderly_setBalance] was sent for the
    aliased messenger and answered, which leaves the chain at [w] and one
    line on the console. *)
Definition balanceStepAnswered {W : Type} `{Constants}
    (provider : Provider.t W) (value : BigNumber) (w0 w : W)
    (lines : list LogLine) : Prop :=
  if BigNumber_isZero value then w = w0 /\ lines = []
  else lines = [SetMessengerBalance value]
       /\ exists answer,
            Provider.send provider
              (tenderly_setBalance L1_MESSENGER_ADDRESS_ALIAS value) w0
            = (w, Ok answer).

(** ** Relations for the whole cycle *)

(** The keys of the queue afterwards are the keys before, in their places,
    followed by the keys that were added. *)
Definition keysGrow {W : Type} : Sigma W -> Sigma W -> Prop :=
  fun s s' =>
    exists added,
      Map_keys (State.messageQueue (state s'))
      = Map_keys (State.messageQueue (state s)) ++ added.

(** The console has only grown, by lines that name no relay attempt and no
    relay failure. *)
Definition noRelayLine {W : Type} : Sigma W -> Sigma W -> Prop :=
  fun s s' =>
    exists lines,
      console s' = console s ++ lines
      /\ attempted lines = [] /\ failed lines = [].

(* ================================================================== *)
(** * utils/tenderly.ts: how a quantity is spelled *)

(** [BN.prototype.toString(16)] on a number that is not negative: its
    hexadecimal digits, lower case, without leading zero; [0] for zero. *)
Definition BN_toString16 (v : Z) : string :=
  HexadecimalString.NilEmpty.string_of_uint (N.to_hex_uint (Z.to_N v)).

(** ethers pads the digits it stores to an even number of them. *)
Definition evenLength (digits : string) : string :=
  if Nat.even (String.length digits) then digits else String "0" digits.

(** [BigNumber.prototype.toHexString] *)
Definition BigNumber_toHexString (v : BigNumber) : string :=
  if v <? 0 then String "-" (String "0" (String "x" (evenLength (BN_toString16 (- v)))))
  else String "0" (String "x" (evenLength (BN_toString16 v))).

Fixpoint dropZeros (s : string) : string :=
  match s with
  | String "0" s' => dropZeros s'
  | _ => s
  end.

(** [s.replace(/^0x0*/, "0x")] *)
Definition stripLeadingZeros (s : string) : string :=
  match s with
  | String "0" (String "x" rest) => String "0" (String "x" (dropZeros rest))
  | _ => s
  end.

(** The [balanceHexStripped] that [setBalance], [addBalance] and
    [setERC20Balance] send. *)
Definition balanceHexStripped (balance : BigNumber) : string :=
  stripLeadingZeros (BigNumber_toHexString balance).

(* ================================================================== *)
(** * optimism.ts: [getSentMessageFromTx], and the hash of the demo scripts *)

(** A log of a transaction receipt. *)
Module Log.
Record t : Type := { address : string; topics : list string; data : string }.
End Log.

(** What [Interface.parseLog] makes of a log of the L1 messenger: the event
    and its arguments.  The ABI of the messenger is not among the sources;
    of its events the code looks for these two, by name. *)
Inductive LogDescription : Type :=
| SentMessage_log (target sender message : string)
    (messageNonce gasLimit : BigNumber)
| SentMessageExtension1_log (sender : string) (value : BigNumber)
| Other_log.

(** [event?.name === "SentMessage"] *)
Definition isSentMessage (event : option LogDescription) : bool :=
  match event with
  | Some (SentMessage_log _ _ _ _ _) => true
  | _ => false
  end.

(** [event?.name === "SentMessageExtension1"] *)
Definition isSentMessageExtension1 (event : option LogDescription) : bool :=
  match event with
  | Some (SentMessageExtension1_log _ _) => true
  | _ => false
  end.

(** The record [getSentMessageFromTx] returns. *)
Module SentMessageFromTx.
Record t : Type := {
  target : string;
  sender : string;
  message : string;
  messageNonce : string;
  gasLimit : Z;
  value : BigNumber
}.
End SentMessageFromTx.

(** [log.address.toLowerCase() === l1CrossDomainMessenger.address.toLowerCase()] *)
Definition fromMessenger (address : string) (log : Log.t) : bool :=
  String.eqb (toLowerCase (Log.address log)) (toLowerCase address).

(** [getSentMessageFromTx], from the logs of the receipt on (a missing
    receipt makes the function throw before it reads any log).  [address]
    is the address of the L1 messenger contract and [parseLog] its
    [interface.parseLog], with [None] where that throws. *)
Definition getSentMessageFromTx (address : string)
    (parseLog : Log.t -> option LogDescription) (logs : list Log.t)
    : result (option SentMessageFromTx.t) :=
  let sentMessageEvents := map parseLog (filter (fromMessenger address) logs) in
  let sentMessageEvent := Array_find isSentMessage sentMessageEvents in
  let sentMessageExtensionEvent :=
    Array_find isSentMessageExtension1 sentMessageEvents in
  match sentMessageEvent with
  | Some (Some (SentMessage_log target sender message messageNonce gasLimit)) =>
      try! gasLimitNumber <- BigNumber_toNumber gasLimit;
      Ok (Some
            {| SentMessageFromTx.target := target;
               SentMessageFromTx.sender := sender;
               SentMessageFromTx.message := message;
               SentMessageFromTx.messageNonce := BigNumber_toString messageNonce;
               SentMessageFromTx.gasLimit := gasLimitNumber;
               SentMessageFromTx.value :=
                 match sentMessageExtensionEvent with
                 | Some (Some (SentMessageExtension1_log _ value)) => value
                 | _ => 0
                 end |})
  | _ => Ok None
  end.

(** The [messageHash] that [bridgeRelayEth.ts] computes from that record:
    the nonce goes in as the decimal string, the gas limit as the
    number. *)
Definition demoMessageHash `{Ethers} (sentMessage : SentMessageFromTx.t)
    : result string :=
  hashCrossDomainMessageV1
    (ArgString (SentMessageFromTx.messageNonce sentMessage))
    (SentMessageFromTx.sender sentMessage)
    (SentMessageFromTx.target sentMessage)
    (SentMessageFromTx.value sentMessage)
    (ArgNumber (SentMessageFromTx.gasLimit sentMessage))
    (SentMessageFromTx.message sentMessage).

(** A [parseLog] that differs only in the sender it reports for
    [SentMessageExtension1] events. *)
Definition renameExtensionSender (rename : string -> string)
    (event : option LogDescription) : option LogDescription :=
  match event with
  | Some (SentMessageExtension1_log sender value) =>
      Some (SentMessageExtension1_log (rename sender) value)
  | _ => event
  end.

(* ================================================================== *)
(** * message-relayer/service.ts: the marking loop of the historical pass *)

(** The body of the loop of [indexHistoricalMessages] over the relayed
    hashes. *)
Definition markKnown {W : Type} (hash : string) : M W unit :=
  st <- getState ;;
  match Map_get (State.messageQueue st) hash with
  | Some _ =>
      setRelayed hash ;;
      modifyMetrics messagesRelayed_inc ;;
      console_log (MarkedRelayed hash)
  | None => ret tt
  end.

(** [queue.get(hash)] is an object. *)
Definition isKnown (q : JsMap Message.t) (hash : string) : bool :=
  match Map_get q hash with
  | Some _ => true
  | None => false
  end.

(* ================================================================== *)
(** * More of the scripted chains *)

(** The records the scan of blocks 101 to 110 returns on [chain110]. *)
Definition scanned110 : list SentMessage.t :=
  [indexedMessage event105; indexedMessage event106].

(** The first message stored and pending, the L2 cursor at 50. *)
Definition pendingStore : Sigma Script.t :=
  startAt chain110Confirmed
    [(hashOfEvent event105 0, storedMessage event105 false)] 110 50.

(** A send event whose gas limit is [2 ^ 53]. *)
Definition event107 : SentMessageEvent.t :=
  {| SentMessageEvent.target := addrB;
     SentMessageEvent.sender := addrA;
     SentMessageEvent.message := "0x";
     SentMessageEvent.messageNonce := 3;
     SentMessageEvent.gasLimit := 9007199254740992;
     SentMessageEvent.blockNumber := 107;
     SentMessageEvent.transactionHash := "0x0107" |}.

(** The encoding and the identity hash of the first send event. *)
Definition encodingOfEvent105 : list byte :=
  match @encodeCrossDomainMessageV1 scriptedEthers (ArgBigNumber 1) addrA addrB
          0 (ArgBigNumber 200000) "0x1234" with
  | Ok encoded => encoded
  | Throw _ => []
  end.

(** The receipt of a bridge transaction: a log of another contract, then
    the two logs of the L1 messenger, whose address is spelled in two
    ways.  The scripted [parseLog] reads the event off the first topic. *)
Definition messengerAddress : string :=
  "0x25ace71c97B33Cc4729CF772ae268934F7ab5fA1".

Definition scriptedParseLog (log : Log.t) : option LogDescription :=
  match Log.topics log with
  | ["SentMessage"] =>
      Some (SentMessage_log addrB addrA (Log.data log) 1 200000)
  | ["SentMessageExtension1"] => Some (SentMessageExtension1_log addrC 5)
  | [] => None
  | _ => Some Other_log
  end.

Definition otherLog : Log.t :=
  {| Log.address := addrC; Log.topics := ["SentMessage"]; Log.data := "0x" |}.

Definition sentMessageLog : Log.t :=
  {| Log.address := "0x25ace71c97b33cc4729cf772ae268934f7ab5fa1";
     Log.topics := ["SentMessage"];
     Log.data := "0x1234" |}.

Definition extensionLog : Log.t :=
  {| Log.address := messengerAddress;
     Log.topics := ["SentMessageExtension1"];
     Log.data := "0x" |}.

Definition receiptLogs : list Log.t := [otherLog; sentMessageLog; extensionLog].

(** The record [getSentMessageFromTx] returns for that receipt. *)
Definition sentMessageOfReceipt : SentMessageFromTx.t :=
  {| SentMessageFromTx.target := addrB;
     SentMessageFromTx.sender := addrA;
     SentMessageFromTx.message := "0x1234";
     SentMessageFromTx.messageNonce := "1";
     SentMessageFromTx.gasLimit := 200000;
     SentMessageFromTx.value := 5 |}.

(** The receipt the scripted provider gives for a relay transaction. *)
Definition relayReceipt : Receipt.t :=
  {| Receipt.blockNumber := 7; Receipt.transactionHash := "0x7e1a" |}.

(** An L1 node that no longer serves block 106: [getBlock] answers [null]
    for it. *)
Definition prunedProvider : Provider.t Script.t :=
  {| Provider.getBlockNumber := fun w => (w, Script.l1Head w);
     Provider.getBlock := fun n w =>
       if n =? 106 then (w, Ok None)
       else Provider.getBlock (scriptedProvider Script.l1Head) n w;
     Provider.getTransactionReceipt :=
       Provider.getTransactionReceipt (scriptedProvider Script.l1Head);
     Provider.send := scriptedSend;
     Provider.querySentMessage :=
       Provider.querySentMessage (scriptedProvider Script.l1Head);
     Provider.querySentMessageExtension1 :=
       Provider.querySentMessageExtension1 (scriptedProvider Script.l1Head);
     Provider.queryRelayedMessage :=
       Provider.queryRelayedMessage (scriptedProvider Script.l1Head) |}.

Definition prunedOptions : Options.t Script.t :=
  {| Options.l1RpcProvider := prunedProvider;
     Options.l2RpcProvider := scriptedProvider Script.l2Head;
     Options.l1StartBlock := 100;
     Options.l2StartBlock := 0;
     Options.sleepTimeMs := 15000 |}.

(** A node that records the requests sent to it: it answers each with the
    transaction hash [0x7e1a] and has a receipt for every hash. *)
Definition recordingProvider : Provider.t (list RpcRequest) :=
  {| Provider.getBlockNumber := fun w => (w, Ok 60);
     Provider.getBlock := fun n w =>
       (w, Ok (Some {| Block.number := n; Block.timestamp := 1700000000 + n |}));
     Provider.getTransactionReceipt := fun txHash w =>
       (w, Ok (Some {| Receipt.blockNumber := 7;
                       Receipt.transactionHash := txHash |}));
     Provider.send := fun request w => (w ++ [request], Ok "0x7e1a");
     Provider.querySentMessage := fun _ _ w => (w, Ok []);
     Provider.querySentMessageExtension1 := fun _ _ w => (w, Ok []);
     Provider.queryRelayedMessage := fun _ _ w => (w, Ok []) |}.

(** The service on that node before any request, with nothing stored. *)
Definition recordingStart : Sigma (list RpcRequest) :=
  {| world := [];
     state := {| State.messageQueue := [];
                 State.lastScannedL1Block := 110;
                 State.lastScannedL2Block := 60 |};
     metrics := noMetrics;
     console := [] |}.

(** The relay call the pass makes for the stored message [m] when it
    reaches it in state [s]. *)
Definition relayCallFor (hash : string) (m : Message.t) (s : Sigma Script.t)
    : Sigma Script.t * result Receipt.t :=
  @relayL1Message Script.t scriptedEthers optimismConstants
    (Options.l2RpcProvider demoOptions)
    (Message.sender m) (Message.target m) (Message.message m)
    (ArgString (Message.messageNonce m)) (Message.value m)
    (Message.gasLimit m)
    (fst (console_log (AttemptingToRelay hash) s)).

(** The orchestrator at its start on a state of the service. *)
Definition orchestratorAt {W : Type} (s : Sigma W) : Orchestrator.t W :=
  {| Orchestrator.service := s;
     Orchestrator.errorLog := [];
     Orchestrator.failureCounter := 0 |}.

(** A stored message whose gas limit is the largest number [toNumber]
    returns, [2 ^ 53 - 1]. *)
Definition event108 : SentMessageEvent.t :=
  {| SentMessageEvent.target := addrB;
     SentMessageEvent.sender := addrA;
     SentMessageEvent.message := "0x";
     SentMessageEvent.messageNonce := 4;
     SentMessageEvent.gasLimit := 9007199254740991;
     SentMessageEvent.blockNumber := 108;
     SentMessageEvent.transactionHash := "0x0108" |}.

Unset Implicit Arguments.

(* ================================================================== *)
(** * Facts about Maps *)

Section MapFacts.

Context {V : Type}.
Implicit Types (m : JsMap V) (k : string) (v : V).

Lemma Map_get_set_same m k v : Map_get (Map_set m k v) k = Some v.
Proof.
  induction m as [|[k' v'] m IH]; simpl.
  - now rewrite String.eqb_refl.
  - destruct (String.eqb k' k) eqn:E; simpl; rewrite E; auto.
Qed.

Lemma Map_get_set_other m k k' v :
  k' <> k -> Map_get (Map_set m k v) k' = Map_get m k'.
Proof.
  intros Hne. induction m as [|[k0 v0] m IH]; simpl.
  - destruct (String.eqb_spec k k'); congruence.
  - destruct (String.eqb_spec k0 k) as [->|Hk]; simpl.
    + destruct (String.eqb_spec k k'); congruence.
    + now rewrite IH.
Qed.

Lemma Map_keys_set_present m k v old :
  Map_get m k = Some old -> Map_keys (Map_set m k v) = Map_keys m.
Proof.
  unfold Map_keys.
  induction m as [|[k0 v0] m IH]; simpl; [discriminate|].
  destruct (String.eqb k0 k) eqn:E; simpl; intros Hg; [reflexivity|].
  now rewrite IH.
Qed.

Lemma Map_keys_set_absent m k v :
  Map_get m k = None -> Map_keys (Map_set m k v) = Map_keys m ++ [k].
Proof.
  unfold Map_keys.
  induction m as [|[k0 v0] m IH]; simpl; [reflexivity|].
  destruct (String.eqb k0 k) eqn:E; simpl; intros Hg; [discriminate|].
  now rewrite IH.
Qed.

Lemma Map_get_None_keys m k : Map_get m k = None <-> ~ In k (Map_keys m).
Proof.
  induction m as [|[k0 v0] m IH]; simpl; [tauto|].
  destruct (String.eqb_spec k0 k) as [->|Hk]; split; intros Hx.
  - discriminate.
  - exfalso; apply Hx; now left.
  - intros [Heq|Hin]; [congruence|]. now apply IH in Hx.
  - apply IH. intros Hin. apply Hx. now right.
Qed.

Lemma Map_set_NoDup m k v :
  NoDup (Map_keys m) -> NoDup (Map_keys (Map_set m k v)).
Proof.
  intros Hnd. destruct (Map_get m k) as [old|] eqn:Hg.
  - erewrite Map_keys_set_present by eassumption. assumption.
  - rewrite Map_keys_set_absent by assumption.
    apply NoDup_app; [assumption| |].
    + repeat constructor; simpl; tauto.
    + intros a Ha [<-|[]]. revert Ha. now apply Map_get_None_keys.
Qed.

Lemma Map_keys_mutate m k (f : V -> V) :
  Map_keys (Map_mutate m k f) = Map_keys m.
Proof.
  unfold Map_keys.
  induction m as [|[k0 v0] m IH]; simpl; [reflexivity|].
  destruct (String.eqb k0 k); simpl; [reflexivity|].
  now rewrite IH.
Qed.

Lemma Map_get_mutate_same m k (f : V -> V) :
  Map_get (Map_mutate m k f) k = option_map f (Map_get m k).
Proof.
  induction m as [|[k0 v0] m IH]; simpl; [reflexivity|].
  destruct (String.eqb k0 k) eqn:E; simpl; rewrite E; auto.
Qed.

Lemma Map_get_mutate_other m k k' (f : V -> V) :
  k' <> k -> Map_get (Map_mutate m k f) k' = Map_get m k'.
Proof.
  intros Hne. induction m as [|[k0 v0] m IH]; simpl; [reflexivity|].
  destruct (String.eqb_spec k0 k) as [->|Hk]; simpl.
  - destruct (String.eqb_spec k k'); congruence.
  - now rewrite IH.
Qed.

Lemma Map_mutate_absent m k (f : V -> V) :
  Map_get m k = None -> Map_mutate m k f = m.
Proof.
  induction m as [|[k0 v0] m IH]; simpl; [reflexivity|].
  destruct (String.eqb k0 k); [discriminate|].
  intros Hg. now rewrite IH.
Qed.

Lemma Map_mutate_fixed m k (f : V -> V) v :
  Map_get m k = Some v -> f v = v -> Map_mutate m k f = m.
Proof.
  induction m as [|[k0 v0] m IH]; simpl; [discriminate|].
  destruct (String.eqb k0 k).
  - intros [= ->] ->. reflexivity.
  - intros Hg Hf. now rewrite IH.
Qed.

Lemma Map_set_fixed m k v : Map_get m k = Some v -> Map_set m k v = m.
Proof.
  induction m as [|[k0 v0] m IH]; simpl; [discriminate|].
  destruct (String.eqb k0 k).
  - intros [= ->]. reflexivity.
  - intros Hg. now rewrite IH.
Qed.

Lemma Map_get_In m k v : Map_get m k = Some v -> In (k, v) m.
Proof.
  induction m as [|[k0 v0] m IH]; simpl; [discriminate|].
  destruct (String.eqb_spec k0 k) as [->|Hk].
  - intros [= ->]. now left.
  - intros Hg. right. now apply IH.
Qed.

Lemma Map_In_get m k v :
  NoDup (Map_keys m) -> In (k, v) m -> Map_get m k = Some v.
Proof.
  induction m as [|[k0 v0] m IH]; simpl; [tauto|].
  intros Hnd [Heq|Hin].
  - injection Heq as -> ->. now rewrite String.eqb_refl.
  - inversion Hnd as [|? ? Hnot Hnd']; subst.
    destruct (String.eqb_spec k0 k) as [->|Hk].
    + exfalso. apply Hnot. change k with (fst (k, v)). now apply in_map.
    + now apply IH.
Qed.

Lemma Map_size_set_present m k v old :
  Map_get m k = Some old -> Map_size (Map_set m k v) = Map_size m.
Proof.
  intros Hg. unfold Map_size.
  rewrite <- (length_map fst (Map_set m k v)), <- (length_map fst m).
  change (map fst (Map_set m k v)) with (Map_keys (Map_set m k v)).
  erewrite Map_keys_set_present by eassumption. reflexivity.
Qed.

End MapFacts.

(* ================================================================== *)
(** * Facts about results *)

Lemma Ok_inj {A} (a b : A) : Ok a = Ok b -> a = b.
Proof. now intros [=]. Qed.

Lemma mapResult_Ok {A B} (f : A -> result B) l bs :
  mapResult f l = Ok bs -> Forall2 (fun a b => f a = Ok b) l bs.
Proof.
  revert bs. induction l as [|a l IH]; simpl; intros bs Hm.
  - injection Hm as <-. constructor.
  - destruct (f a) as [b|e] eqn:Ha; [|discriminate].
    destruct (mapResult f l) as [bs'|e]; [|discriminate].
    injection Hm as <-. constructor; auto.
Qed.

Lemma mapResult_Throw {A B} (f : A -> result B) l a :
  In a l -> isOk (f a) = false -> exists e, mapResult f l = Throw e.
Proof.
  induction l as [|a0 l IH]; simpl; [tauto|].
  intros [->|Hin] Hf.
  - destruct (f a) as [b|e]; [discriminate|]. now exists e.
  - destruct (f a0) as [b|e]; [|now exists e].
    destruct (IH Hin Hf) as [e ->]. now exists e.
Qed.

Lemma mapResult_all_Ok {A B} (f : A -> result B) l :
  (forall a, In a l -> isOk (f a) = true) -> exists bs, mapResult f l = Ok bs.
Proof.
  induction l as [|a l IH]; simpl; intros Hall.
  - now exists [].
  - destruct (f a) as [b|e] eqn:Ha.
    + destruct IH as [bs ->]; [intros; apply Hall; auto|]. now exists (b :: bs).
    + specialize (Hall a (or_introl eq_refl)). rewrite Ha in Hall. discriminate.
Qed.

Lemma Forall2_In_l {A B} (R : A -> B -> Prop) l l' a :
  Forall2 R l l' -> In a l -> exists b, In b l' /\ R a b.
Proof.
  induction 1 as [|x y l l' Hxy _ IH]; simpl; [tauto|].
  intros [->|Hin].
  - exists y; auto.
  - destruct (IH Hin) as (b & Hb & HR). exists b; auto.
Qed.

(* ================================================================== *)
(** * Facts about BigNumber *)

Lemma hexLiteral_decimal (d : uint) : hexLiteral (NilZero.string_of_uint d) = None.
Proof.
  destruct d as [|d|d|d|d|d|d|d|d|d|d]; try reflexivity;
    destruct d; try reflexivity; destruct d; reflexivity.
Qed.

(** A [BigNumber] printed with [toString] reads back as itself. *)
Lemma BigNumber_toString_fromString (v : BigNumber) :
  BigNumber_fromString (BigNumber_toString v) = Ok v.
Proof.
  unfold BigNumber_fromString, BigNumber_toString.
  assert (Hdec : NilZero.int_of_string (NilZero.string_of_int (Z.to_int v))
                 = Some (Z.to_int v)).
  { apply NilZero.isi; destruct v; simpl; try discriminate;
      intros [= Hp]; now apply (DecimalPos.Unsigned.to_uint_nonnil p). }
  rewrite Hdec, DecimalZ.of_to.
  destruct v as [|p|p]; simpl.
  - reflexivity.
  - rewrite hexLiteral_decimal.
    destruct (NilZero.string_of_uint (Pos.to_uint p)) as [|c s] eqn:Hs;
      [reflexivity|].
    destruct (Ascii.eqb_spec c "-"%char) as [->|Hc].
    + exfalso. destruct (Pos.to_uint p) as [|d|d|d|d|d|d|d|d|d|d];
        simpl in Hs; try discriminate; destruct d; discriminate.
    + destruct c as [[] [] [] [] [] [] [] []]; try reflexivity.
      now contradiction Hc.
  - now rewrite hexLiteral_decimal.
Qed.

Lemma shiftl_1_240 : Z.shiftl 1 240 = 2 ^ 240.
Proof. apply Z.shiftl_1_l. Qed.

Lemma shiftl_1_240_sign : (Z.shiftl 1 240 <? 0) = false.
Proof. rewrite shiftl_1_240. apply Z.ltb_ge. lia. Qed.

Lemma lor_version_set (n : Z) :
  0 <= n -> Z.shiftr n 240 = 1 -> Z.lor (Z.shiftl 1 240) n = n.
Proof.
  intros Hn Hv. rewrite shiftl_1_240. apply Z.bits_inj'. intros i Hi.
  rewrite Z.lor_spec, Z.pow2_bits_eqb by lia.
  destruct (Z.eqb_spec 240 i) as [<-|Hne]; [|reflexivity].
  pose proof (Z.shiftr_spec n 240 0 (Z.le_refl 0)) as Hbit.
  rewrite Hv in Hbit. change (0 + 240) with 240 in Hbit.
  rewrite <- Hbit. reflexivity.
Qed.

Lemma version_clear_bound (n : Z) :
  0 <= n -> Z.shiftr n 240 = 0 -> n < 2 ^ 240.
Proof.
  intros Hn Hv. rewrite Z.shiftr_div_pow2 in Hv by lia.
  apply Z.div_small_iff in Hv; lia.
Qed.

Lemma lor_version_clear (n : Z) :
  0 <= n -> Z.shiftr n 240 = 0 -> Z.lor (Z.shiftl 1 240) n = n + 2 ^ 240.
Proof.
  intros Hn Hv. pose proof (version_clear_bound n Hn Hv) as Hlt.
  rewrite shiftl_1_240.
  assert (Hland : Z.land (2 ^ 240) n = 0).
  { apply Z.bits_inj'. intros i Hi.
    rewrite Z.land_spec, Z.pow2_bits_eqb, Z.bits_0 by lia.
    destruct (Z.eqb_spec 240 i) as [<-|Hne]; [|reflexivity].
    cbn [andb]. destruct (Z.eq_dec n 0) as [->|Hnz]; [reflexivity|].
    apply Z.bits_above_log2; [lia|]. apply Z.log2_lt_pow2; lia. }
  rewrite <- Z.lxor_lor, <- Z.add_nocarry_lxor by assumption. lia.
Qed.

Lemma version_after_add (n : Z) :
  0 <= n < 2 ^ 240 -> Z.shiftr (n + 2 ^ 240) 240 = 1.
Proof.
  intros Hn. rewrite Z.shiftr_div_pow2 by lia.
  symmetry. apply Z.div_unique with n; lia.
Qed.

Lemma testbit_pow2_240 (i : Z) :
  0 <= i -> Z.testbit (2 ^ 240) i = (240 =? i).
Proof. intros Hi. apply Z.pow2_bits_eqb. lia. Qed.

Lemma lor_version_bit (n : Z) :
  0 <= n ->
  Z.lor (2 ^ 240) n = if Z.testbit n 240 then n else n + 2 ^ 240.
Proof.
  intros Hn. destruct (Z.testbit n 240) eqn:Hbit.
  - apply Z.bits_inj'. intros i Hi.
    rewrite Z.lor_spec, testbit_pow2_240 by assumption.
    destruct (Z.eqb_spec 240 i) as [<-|Hne]; [now rewrite Hbit|reflexivity].
  - assert (Hland : Z.land (2 ^ 240) n = 0).
    { apply Z.bits_inj'. intros i Hi.
      rewrite Z.land_spec, testbit_pow2_240, Z.bits_0 by assumption.
      destruct (Z.eqb_spec 240 i) as [<-|Hne]; [now rewrite Hbit|reflexivity]. }
    rewrite <- Z.lxor_lor, <- Z.add_nocarry_lxor by assumption. lia.
Qed.

Lemma lor_version_uint256 (n : Z) :
  0 <= n < 2 ^ 256 -> Z.lor (2 ^ 240) n < 2 ^ 256.
Proof.
  intros [Hlo Hhi].
  assert (Hpos : 0 < Z.lor (2 ^ 240) n).
  { rewrite lor_version_bit by assumption.
    destruct (Z.testbit n 240) eqn:Hbit; [|lia].
    destruct (Z.eq_dec n 0) as [->|Hnz]; [discriminate Hbit|lia]. }
  apply Z.log2_lt_pow2; [assumption|].
  rewrite Z.log2_lor by lia.
  apply Z.max_lub_lt.
  - rewrite Z.log2_pow2 by lia. lia.
  - destruct (Z.eq_dec n 0) as [->|Hnz]; [cbn; lia|].
    apply Z.log2_lt_pow2; lia.
Qed.

(** The tagged nonce is not below the nonce. *)
Lemma lor_version_ge (n : Z) : 0 <= n -> n <= Z.lor (2 ^ 240) n.
Proof.
  intros Hn. rewrite lor_version_bit by assumption.
  destruct (Z.testbit n 240); lia.
Qed.

(* ================================================================== *)
(** * The message identity function *)

Section IdentityFacts.

Context `{Ethers}.

Lemma Writer_writeValue_fits (v : Z) :
  0 <= v < 2 ^ 256 -> Writer_writeValue v = Ok (bigEndian 32 v).
Proof.
  intros [Hlo Hhi]. unfold Writer_writeValue.
  apply Z.leb_le in Hlo. apply Z.ltb_lt in Hhi. now rewrite Hlo, Hhi.
Qed.

Lemma NumberCoder_encode_valid (x : BigNumberish) :
  validUint256 x ->
  exists v, BigNumber_from x = Ok v /\ 0 <= v < 2 ^ 256
            /\ NumberCoder_encode x = Ok (bigEndian 32 v).
Proof.
  unfold validUint256, NumberCoder_encode.
  destruct (BigNumber_from x) as [v|e]; [|tauto].
  intros Hv. exists v. repeat split; try lia. cbn [rbind].
  replace (v <? 0) with false by (symmetry; apply Z.ltb_ge; lia).
  replace (2 ^ 256 - 1 <? v) with false by (symmetry; apply Z.ltb_ge; lia).
  cbn [orb]. now apply Writer_writeValue_fits.
Qed.

Lemma AddressCoder_encode_valid (a : string) :
  validAddress a ->
  exists v, getAddress a = Some v /\ AddressCoder_encode a = Ok (bigEndian 32 v).
Proof.
  unfold validAddress, AddressCoder_encode.
  destruct (getAddress a) as [v|]; [|tauto].
  intros Hv. exists v. split; [reflexivity|]. now apply Writer_writeValue_fits.
Qed.

Lemma BytesCoder_encode_valid (data : string) :
  validBytes data ->
  exists bytes, arrayify data = Ok bytes
    /\ BytesCoder_encode data
       = Ok (bigEndian 32 (Z.of_nat (List.length bytes)) ++ bytes
               ++ padding (List.length bytes)).
Proof.
  unfold validBytes, BytesCoder_encode.
  destruct (arrayify data) as [bytes|e]; [|tauto].
  intros Hlen. exists bytes. split; [reflexivity|]. cbn [rbind].
  rewrite Writer_writeValue_fits by lia. reflexivity.
Qed.

(** The encoder accepts every valid argument list. *)
Lemma encodeCrossDomainMessageV1_valid nonce sender target value gasLimit data :
  validUint256 nonce -> validAddress sender -> validAddress target ->
  0 <= value < 2 ^ 256 -> validUint256 gasLimit -> validBytes data ->
  exists encoded,
    encodeCrossDomainMessageV1 nonce sender target value gasLimit data
    = Ok encoded.
Proof.
  intros Hn Hs Ht Hv Hg Hd. unfold encodeCrossDomainMessageV1.
  destruct (NumberCoder_encode_valid nonce Hn) as (vn & _ & _ & ->).
  destruct (AddressCoder_encode_valid sender Hs) as (vs & _ & ->).
  destruct (AddressCoder_encode_valid target Ht) as (vt & _ & ->).
  destruct (NumberCoder_encode_valid (ArgBigNumber value) Hv) as (vv & _ & _ & ->).
  destruct (NumberCoder_encode_valid gasLimit Hg) as (vg & _ & _ & ->).
  destruct (BytesCoder_encode_valid data Hd) as (bytes & _ & ->).
  cbn [rbind]. rewrite Writer_writeValue_fits by lia.
  eexists. reflexivity.
Qed.

(** The encoder reads its arguments only through their values. *)
Lemma encodeCrossDomainMessageV1_values
    nonce sender target value gasLimit data
    nonce' sender' target' gasLimit' data' :
  BigNumber_from nonce' = BigNumber_from nonce ->
  getAddress sender' = getAddress sender ->
  getAddress target' = getAddress target ->
  BigNumber_from gasLimit' = BigNumber_from gasLimit ->
  arrayify data' = arrayify data ->
  encodeCrossDomainMessageV1 nonce' sender' target' value gasLimit' data'
  = encodeCrossDomainMessageV1 nonce sender target value gasLimit data.
Proof.
  intros Hn Hs Ht Hg Hd.
  unfold encodeCrossDomainMessageV1, NumberCoder_encode, AddressCoder_encode,
    BytesCoder_encode.
  now rewrite Hn, Hs, Ht, Hg, Hd.
Qed.

(** The converse: an argument list the identity function accepts is
    valid. *)
Lemma hashCrossDomainMessageV1_only_valid
    nonce sender target value gasLimit data digest :
  hashCrossDomainMessageV1 nonce sender target value gasLimit data = Ok digest ->
  validUint256 nonce /\ validAddress sender /\ validAddress target
  /\ 0 <= value < 2 ^ 256 /\ validUint256 gasLimit /\ validBytes data.
Proof.
  unfold hashCrossDomainMessageV1, encodeCrossDomainMessageV1,
    NumberCoder_encode, AddressCoder_encode, BytesCoder_encode,
    validUint256, validAddress, validBytes, Writer_writeValue.
  cbn [BigNumber_from].
  destruct (BigNumber_from nonce) as [vn|]; cbn [rbind]; [|discriminate].
  destruct (vn <? 0) eqn:En1; cbn [orb]; [discriminate|].
  destruct (2 ^ 256 - 1 <? vn) eqn:En2; [discriminate|].
  destruct ((0 <=? vn) && (vn <? 2 ^ 256)) eqn:En3; [|discriminate].
  destruct (getAddress sender) as [vs|]; [|discriminate].
  destruct ((0 <=? vs) && (vs <? 2 ^ 256)) eqn:Es; [|discriminate].
  destruct (getAddress target) as [vt|]; [|discriminate].
  destruct ((0 <=? vt) && (vt <? 2 ^ 256)) eqn:Et; [|discriminate].
  destruct (value <? 0) eqn:Ev1; cbn [orb rbind]; [discriminate|].
  destruct (2 ^ 256 - 1 <? value) eqn:Ev2; [discriminate|].
  destruct ((0 <=? value) && (value <? 2 ^ 256)) eqn:Ev3; [|discriminate].
  destruct (BigNumber_from gasLimit) as [vg|]; cbn [rbind]; [|discriminate].
  destruct (vg <? 0) eqn:Eg1; cbn [orb]; [discriminate|].
  destruct (2 ^ 256 - 1 <? vg) eqn:Eg2; [discriminate|].
  destruct ((0 <=? vg) && (vg <? 2 ^ 256)) eqn:Eg3; [|discriminate].
  destruct (arrayify data) as [bytes|]; cbn [rbind]; [|discriminate].
  destruct ((0 <=? Z.of_nat (List.length bytes))
            && (Z.of_nat (List.length bytes) <? 2 ^ 256)) eqn:Ed;
    [|discriminate].
  intros _.
  repeat match goal with
         | E : (_ && _) = true |- _ => apply andb_prop in E; destruct E
         | E : (_ <=? _) = true |- _ => apply Z.leb_le in E
         | E : (_ <? _) = true |- _ => apply Z.ltb_lt in E
         | E : (_ <? _) = false |- _ => apply Z.ltb_ge in E
         end.
  repeat split; lia.
Qed.

End IdentityFacts.

(* ================================================================== *)
(** * Pairing of the two log streams *)

Section PairingFacts.

Context {W : Type} `{Ethers}.

Lemma findExtension_None extensionEvents event :
  (forall ext, In ext extensionEvents ->
     SentMessageExtension1Event.transactionHash ext
     <> SentMessageEvent.transactionHash event) ->
  findExtension extensionEvents event = None.
Proof.
  unfold findExtension, Array_find.
  induction extensionEvents as [|x l IH]; simpl; intros Hall; [reflexivity|].
  destruct (String.eqb_spec (SentMessageExtension1Event.transactionHash x)
                            (SentMessageEvent.transactionHash event)) as [E|E].
  - exfalso. now apply (Hall x); [left|].
  - apply IH. intros ext Hin. apply Hall. now right.
Qed.

(** Without an extension event the callback hashes and returns the event
    with value zero. *)
Lemma sentMessageOf_without_extension extensionEvents event :
  findExtension extensionEvents event = None ->
  sentMessageOf extensionEvents event
  = (try! messageHash <-
       hashCrossDomainMessageV1
         (ArgBigNumber (SentMessageEvent.messageNonce event))
         (SentMessageEvent.sender event) (SentMessageEvent.target event) 0
         (ArgBigNumber (SentMessageEvent.gasLimit event))
         (SentMessageEvent.message event);
     try! gasLimit <- BigNumber_toNumber (SentMessageEvent.gasLimit event);
     Ok {| SentMessage.messageHash := messageHash;
           SentMessage.sender := SentMessageEvent.sender event;
           SentMessage.target := SentMessageEvent.target event;
           SentMessage.message := SentMessageEvent.message event;
           SentMessage.messageNonce :=
             BigNumber_toString (SentMessageEvent.messageNonce event);
           SentMessage.gasLimit := gasLimit;
           SentMessage.value := 0;
           SentMessage.blockNumber := SentMessageEvent.blockNumber event;
           SentMessage.transactionHash :=
             SentMessageEvent.transactionHash event |}).
Proof.
  intros Hnone. unfold sentMessageOf. rewrite Hnone. reflexivity.
Qed.

(** What every record the callback returns says about its event. *)
Lemma sentMessageOf_Ok extensionEvents event msg :
  sentMessageOf extensionEvents event = Ok msg ->
  senderMismatch (findExtension extensionEvents event) event = false
  /\ SentMessage.value msg = extensionValue (findExtension extensionEvents event)
  /\ SentMessage.transactionHash msg = SentMessageEvent.transactionHash event
  /\ SentMessage.messageNonce msg
     = BigNumber_toString (SentMessageEvent.messageNonce event)
  /\ hashCrossDomainMessageV1
       (ArgBigNumber (SentMessageEvent.messageNonce event))
       (SentMessageEvent.sender event) (SentMessageEvent.target event)
       (SentMessage.value msg)
       (ArgBigNumber (SentMessageEvent.gasLimit event))
       (SentMessageEvent.message event)
     = Ok (SentMessage.messageHash msg).
Proof.
  unfold sentMessageOf.
  destruct (senderMismatch (findExtension extensionEvents event) event);
    [discriminate|].
  destruct (hashCrossDomainMessageV1 _ _ _ _ _ _) as [h|] eqn:Hh;
    cbn [rbind]; [|discriminate].
  destruct (BigNumber_toNumber _) as [g|]; cbn [rbind]; [|discriminate].
  intros [= <-]. cbn. rewrite Hh. auto.
Qed.

(** The callback accepts a well-formed event whose extension, if any,
    agrees on the sender and carries a [uint256]. *)
Lemma sentMessageOf_wellFormed extensionEvents event :
  wellFormedEvent event ->
  senderMismatch (findExtension extensionEvents event) event = false ->
  0 <= extensionValue (findExtension extensionEvents event) < 2 ^ 256 ->
  isOk (sentMessageOf extensionEvents event) = true.
Proof.
  intros (Hn & Hs & Ht & Hg & Hd) Hmatch Hv. unfold sentMessageOf.
  rewrite Hmatch.
  unfold hashCrossDomainMessageV1.
  destruct (encodeCrossDomainMessageV1_valid
              (ArgBigNumber (SentMessageEvent.messageNonce event))
              (SentMessageEvent.sender event) (SentMessageEvent.target event)
              (extensionValue (findExtension extensionEvents event))
              (ArgBigNumber (SentMessageEvent.gasLimit event))
              (SentMessageEvent.message event))
    as [encoded ->]; try assumption.
  - unfold validUint256; cbn [BigNumber_from]. lia.
  - cbn [rbind]. unfold BigNumber_toNumber.
    replace (- 2 ^ 53 <? SentMessageEvent.gasLimit event) with true
      by (symmetry; apply Z.ltb_lt; lia).
    replace (SentMessageEvent.gasLimit event <? 2 ^ 53) with true
      by (symmetry; apply Z.ltb_lt; lia).
    reflexivity.
Qed.

(** The extension event found for a primary event depends on its
    transaction hash only, and it carries that hash. *)
Lemma findExtension_same_transaction extensionEvents event event' :
  SentMessageEvent.transactionHash event'
  = SentMessageEvent.transactionHash event ->
  findExtension extensionEvents event' = findExtension extensionEvents event.
Proof. unfold findExtension. now intros ->. Qed.

Lemma findExtension_Some extensionEvents event ext :
  findExtension extensionEvents event = Some ext ->
  In ext extensionEvents
  /\ SentMessageExtension1Event.transactionHash ext
     = SentMessageEvent.transactionHash event.
Proof.
  unfold findExtension, Array_find. intros Hfind.
  apply find_some in Hfind as [Hin Heq]. split; [assumption|].
  now apply String.eqb_eq.
Qed.

Lemma findExtension_present extensionEvents event ext :
  In ext extensionEvents ->
  SentMessageExtension1Event.transactionHash ext
  = SentMessageEvent.transactionHash event ->
  exists first, findExtension extensionEvents event = Some first.
Proof.
  intros Hin Htx.
  destruct (findExtension extensionEvents event) as [first|] eqn:Hfind;
    [now exists first|].
  unfold findExtension, Array_find in Hfind.
  apply (find_none _ _ Hfind) in Hin. apply String.eqb_neq in Hin.
  contradiction.
Qed.

(** A primary event whose paired extension event names another sender
    makes the whole pairing throw. *)
Lemma pairSentMessages_mismatch sent extensionEvents event ext :
  In event sent ->
  findExtension extensionEvents event = Some ext ->
  toLowerCase (SentMessageExtension1Event.sender ext)
  <> toLowerCase (SentMessageEvent.sender event) ->
  exists err, pairSentMessages sent extensionEvents = Throw err.
Proof.
  intros Hin Hfind Hdiff.
  apply mapResult_Throw with event; [assumption|].
  unfold sentMessageOf, senderMismatch. rewrite Hfind.
  destruct (String.eqb_spec
              (toLowerCase (SentMessageExtension1Event.sender ext))
              (toLowerCase (SentMessageEvent.sender event)));
    [contradiction|reflexivity].
Qed.

(** On logs in which every extension event comes with a primary event of
    its transaction and sender, as the messenger emits them, any extension
    event of the transaction of a primary event that names another sender
    makes the pairing throw, first of its transaction or not. *)
Lemma pairSentMessages_mismatch_paired sent extensionEvents event ext :
  (forall x, In x extensionEvents ->
     exists e, In e sent
               /\ SentMessageEvent.transactionHash e
                  = SentMessageExtension1Event.transactionHash x
               /\ toLowerCase (SentMessageEvent.sender e)
                  = toLowerCase (SentMessageExtension1Event.sender x)) ->
  In event sent ->
  In ext extensionEvents ->
  SentMessageExtension1Event.transactionHash ext
  = SentMessageEvent.transactionHash event ->
  toLowerCase (SentMessageExtension1Event.sender ext)
  <> toLowerCase (SentMessageEvent.sender event) ->
  exists err, pairSentMessages sent extensionEvents = Throw err.
Proof.
  intros Hpaired Hin Hext Htx Hdiff.
  destruct (findExtension_present extensionEvents event ext Hext Htx)
    as [first Hfirst].
  destruct (string_dec
              (toLowerCase (SentMessageExtension1Event.sender first))
              (toLowerCase (SentMessageEvent.sender event))) as [Hsame|Hother].
  - destruct (Hpaired ext Hext) as (e & He & Hetx & Hesender).
    apply pairSentMessages_mismatch with e first; [assumption| |congruence].
    rewrite <- Hfirst. apply findExtension_same_transaction. congruence.
  - now apply pairSentMessages_mismatch with event first.
Qed.

(** [getSentMessageEvents] once both queries have answered. *)
Lemma getSentMessageEvents_run (provider : Provider.t W) fromBlock toBlock
    (s : Sigma W) w1 w2 sent extensionEvents :
  Provider.querySentMessage provider fromBlock toBlock (world s)
  = (w1, Ok sent) ->
  Provider.querySentMessageExtension1 provider fromBlock toBlock w1
  = (w2, Ok extensionEvents) ->
  getSentMessageEvents provider fromBlock toBlock s
  = ({| world := w2; state := state s; metrics := metrics s;
        console := console s |},
     pairSentMessages sent extensionEvents).
Proof.
  intros H1 H2.
  unfold getSentMessageEvents, bind, Promise_all2, await, liftResult.
  cbn. rewrite H1. cbn. rewrite H2. reflexivity.
Qed.

End PairingFacts.

(* ================================================================== *)
(** * Frame rules for awaited code *)

Section FrameRules.

Context {W : Type} (R : Sigma W -> Sigma W -> Prop) `{!Frame R}.

Lemma stable_ret {A} (a : A) : stable R (ret a).
Proof. intros s. apply frame_refl. Qed.

Lemma stable_throw {A} (e : Error) : stable R (@throw W A e).
Proof. intros s. apply frame_refl. Qed.

Lemma stable_liftResult {A} (r : result A) : stable R (liftResult r).
Proof. intros s. apply frame_refl. Qed.

Lemma stable_getState : stable R (@getState W).
Proof. intros s. apply frame_refl. Qed.

Lemma stable_await {A} (call : W -> W * result A) : stable R (await call).
Proof.
  intros s. unfold await. destruct (call (world s)) as [w r]. apply frame_world.
Qed.

Lemma stable_console_log (line : LogLine) :
  (forall s, R s {| world := world s; state := state s; metrics := metrics s;
                    console := console s ++ [line] |}) ->
  stable R (console_log line).
Proof. intros Hl s. apply Hl. Qed.

Lemma stable_bind {A B} (m : M W A) (k : A -> M W B) :
  stable R m -> (forall a, stable R (k a)) -> stable R (bind m k).
Proof.
  intros Hm Hk s. unfold bind. specialize (Hm s).
  destruct (m s) as [s1 [a|e]]; cbn in *; [|assumption].
  eapply frame_trans; [exact Hm|apply Hk].
Qed.

Lemma stable_tryCatch {A} (body : M W A) (handler : Error -> M W A) :
  stable R body -> (forall e, stable R (handler e)) ->
  stable R (tryCatch body handler).
Proof.
  intros Hb Hh s. unfold tryCatch. specialize (Hb s).
  destruct (body s) as [s1 [a|e]]; cbn in *; [assumption|].
  eapply frame_trans; [exact Hb|apply Hh].
Qed.

Lemma stable_forOf {A} (xs : list A) (body : A -> M W unit) :
  (forall x, stable R (body x)) -> stable R (forOf xs body).
Proof.
  intros Hb. induction xs as [|x xs IH]; cbn [forOf].
  - apply stable_ret.
  - apply stable_bind; auto.
Qed.

Lemma stable_Promise_all2 {A B} (a : M W A) (b : M W B) :
  stable R a -> stable R b -> stable R (Promise_all2 a b).
Proof.
  intros Ha Hb s. unfold Promise_all2. specialize (Ha s).
  destruct (a s) as [s1 ra]. specialize (Hb s1).
  destruct (b s1) as [s2 rb]. cbn in *.
  eapply frame_trans; eassumption.
Qed.

Lemma stable_modifyState (f : State.t -> State.t) :
  (forall s, R s {| world := world s; state := f (state s);
                    metrics := metrics s; console := console s |}) ->
  stable R (modifyState f).
Proof. intros Hf s. apply Hf. Qed.

Lemma stable_modifyMetrics (f : Metrics.t -> Metrics.t) :
  (forall s, R s {| world := world s; state := state s;
                    metrics := f (metrics s); console := console s |}) ->
  stable R (modifyMetrics f).
Proof. intros Hf s. apply Hf. Qed.

End FrameRules.

#[export] Instance keeps_Frame {W X} (view : State.t -> Metrics.t -> X)
  : Frame (@keeps W X view).
Proof.
  split; unfold keeps; intros; cbn; congruence.
Qed.

#[export] Instance cursorsAdvance_Frame {W} : Frame (@cursorsAdvance W).
Proof.
  split; unfold cursorsAdvance; intros; cbn; lia.
Qed.

#[export] Instance quiet_Frame {W} : Frame (@quiet W).
Proof.
  split; unfold quiet.
  - intros s. repeat split. exists []. now rewrite app_nil_r.
  - intros s1 s2 s3 (Hs & Hm & l1 & Hc1 & Ha1 & Hf1)
                    (Hs' & Hm' & l2 & Hc2 & Ha2 & Hf2).
    repeat split; try congruence.
    exists (l1 ++ l2). rewrite Hc2, Hc1, <- app_assoc.
    unfold attempted, failed in *. rewrite !flat_map_app.
    unfold attempted, failed in *. now rewrite Ha1, Ha2, Hf1, Hf2.
  - intros s w. cbn. repeat split. exists []. now rewrite app_nil_r.
Qed.

(** What [keeps] gives for each view. *)
Lemma keeps_cursors_advance {W} (s s' : Sigma W) :
  keeps cursorsView s s' -> cursorsAdvance s s'.
Proof.
  unfold keeps, cursorsView, cursorsAdvance. intros [= -> ->]. lia.
Qed.

Lemma quiet_keeps {W X} (view : State.t -> Metrics.t -> X) (s s' : Sigma W) :
  quiet s s' -> keeps view s s'.
Proof.
  unfold keeps, quiet. intros (-> & -> & _). reflexivity.
Qed.

Lemma stable_quiet_keeps {W A X} (view : State.t -> Metrics.t -> X)
    (m : M W A) :
  stable quiet m -> stable (keeps view) m.
Proof. intros Hm s. apply quiet_keeps, Hm. Qed.

Lemma stable_quiet_advance {W A} (m : M W A) :
  stable quiet m -> stable cursorsAdvance m.
Proof.
  intros Hm s. apply keeps_cursors_advance, (quiet_keeps cursorsView), Hm.
Qed.

(** Splits a computation along its binds, loops and handlers; assignments
    and console lines are left to [leaf]. *)
Ltac frame_rule lem :=
  apply lem; try (match goal with |- Frame _ => exact _ end).

Ltac frame_step leaf :=
  first
    [ frame_rule @stable_ret | frame_rule @stable_throw
    | frame_rule @stable_liftResult
    | frame_rule @stable_getState | frame_rule @stable_await
    | frame_rule @stable_bind; [|intros ?]
    | frame_rule @stable_tryCatch; [|intros ?]
    | frame_rule @stable_forOf; intros ?
    | frame_rule @stable_Promise_all2
    | frame_rule @stable_console_log; intros ?; leaf
    | frame_rule @stable_modifyState; intros ?; leaf
    | frame_rule @stable_modifyMetrics; intros ?; leaf
    | match goal with
      | |- stable _ (if ?b then _ else _) => destruct b
      | |- stable _ (match ?x with _ => _ end) => destruct x
      end ].

Ltac frames leaf := repeat (frame_step leaf).

(** The leaves of the [keeps] relations hold by computation. *)
Ltac keeps_leaf :=
  unfold keeps, cursorsView, keysView, failuresView; cbn -[Map_keys];
  rewrite ?Map_keys_mutate; reflexivity.

(** A console line that names no attempt and no failure keeps [quiet]. *)
Ltac quiet_leaf :=
  unfold quiet; cbn; repeat split; eexists; split; [reflexivity|];
  split; reflexivity.

(* ================================================================== *)
(** * Frames of the library and of the service *)

Section ServiceFrames.

Context {W : Type} `{Ethers} `{Constants} (options : Options.t W).

Lemma bind_run {A B} (m : M W A) (k : A -> M W B) (s : Sigma W) :
  bind m k s
  = match m s with
    | (s', Ok a) => k a s'
    | (s', Throw e) => (s', Throw e)
    end.
Proof. reflexivity. Qed.

Lemma getSentMessageEvents_quiet (provider : Provider.t W) fromBlock toBlock :
  stable quiet (getSentMessageEvents provider fromBlock toBlock).
Proof. unfold getSentMessageEvents. frames quiet_leaf. Qed.

Lemma getRelayedMessageEvents_quiet (provider : Provider.t W) fromBlock toBlock :
  stable quiet (getRelayedMessageEvents provider fromBlock toBlock).
Proof. unfold getRelayedMessageEvents. frames quiet_leaf. Qed.

Lemma relayL1Message_quiet (provider : Provider.t W)
    l1Sender target message nonce value minGasLimit :
  stable quiet
    (relayL1Message provider l1Sender target message nonce value minGasLimit).
Proof.
  unfold relayL1Message, submitRelay, setBalance, sendForkTxAs.
  frames quiet_leaf.
Qed.

Lemma submitRelay_quiet (provider : Provider.t W)
    versioned l1Sender target message value minGasLimit :
  stable quiet
    (submitRelay provider versioned l1Sender target message value minGasLimit).
Proof.
  unfold submitRelay, setBalance, sendForkTxAs.
  frames quiet_leaf.
Qed.

Lemma blockTimestamp_quiet (provider : Provider.t W) n :
  stable quiet (blockTimestamp provider n).
Proof. unfold blockTimestamp. frames quiet_leaf. Qed.

Lemma console_log_run (line : LogLine) (s : Sigma W) :
  console_log line s
  = ({| world := world s; state := state s; metrics := metrics s;
        console := console s ++ [line] |}, Ok tt).
Proof. reflexivity. Qed.

Lemma getState_run (s : Sigma W) : getState s = (s, Ok (state s)).
Proof. reflexivity. Qed.

Lemma modifyState_run (f : State.t -> State.t) (s : Sigma W) :
  modifyState f s
  = ({| world := world s; state := f (state s); metrics := metrics s;
        console := console s |}, Ok tt).
Proof. reflexivity. Qed.

Lemma modifyMetrics_run (f : Metrics.t -> Metrics.t) (s : Sigma W) :
  modifyMetrics f s
  = ({| world := world s; state := state s; metrics := f (metrics s);
        console := console s |}, Ok tt).
Proof. reflexivity. Qed.

(** Unfolds the service down to the primitive steps. *)
Ltac service_frames :=
  unfold main, updateMetrics, relayPendingMessages, relayOne,
    checkRelayedMessages, indexNewMessages, init, indexHistoricalMessages,
    confirmRelayed, setRelayed, addToQueue, blockTimestamp,
    relayL1Message, submitRelay, setBalance, sendForkTxAs,
    getSentMessageEvents, getRelayedMessageEvents;
  frames keeps_leaf.

Lemma addToQueue_keeps_cursors msg :
  stable (keeps cursorsView) (addToQueue options msg).
Proof. service_frames. Qed.

Lemma confirmRelayed_keeps_cursors hash :
  stable (keeps cursorsView) (@confirmRelayed W hash).
Proof. service_frames. Qed.

Lemma confirmRelayed_keeps_keys hash :
  stable (keeps keysView) (@confirmRelayed W hash).
Proof. service_frames. Qed.

Lemma relayPendingMessages_keeps_cursors :
  stable (keeps cursorsView) (relayPendingMessages options).
Proof. service_frames. Qed.

Lemma relayPendingMessages_keeps_keys :
  stable (keeps keysView) (relayPendingMessages options).
Proof. service_frames. Qed.

Lemma updateMetrics_keeps_state :
  stable (keeps (fun st _ => st)) (@updateMetrics W).
Proof. unfold updateMetrics. frames ltac:(reflexivity). Qed.

(** No function of the service touches the [nodeConnectionFailures]
    gauge. *)
Lemma init_keeps_failures : stable (keeps failuresView) (init options).
Proof. service_frames. Qed.

Lemma indexNewMessages_keeps_failures :
  stable (keeps failuresView) (indexNewMessages options).
Proof. service_frames. Qed.

Lemma checkRelayedMessages_keeps_failures :
  stable (keeps failuresView) (checkRelayedMessages options).
Proof. service_frames. Qed.

Lemma main_keeps_failures : stable (keeps failuresView) (main options).
Proof. service_frames. Qed.

Lemma checkRelayedMessages_keeps_keys :
  stable (keeps keysView) (checkRelayedMessages options).
Proof. service_frames. Qed.

(** Indexing never touches the L2 cursor. *)
Lemma indexNewMessages_keeps_L2 :
  stable (keeps (fun st _ => State.lastScannedL2Block st))
    (indexNewMessages options).
Proof. service_frames. Qed.

(** ** The cursors *)

(** [indexNewMessages] never lowers a cursor, and leaves both where they
    were when it throws. *)
Lemma indexNewMessages_cursors (s : Sigma W) :
  cursorsAdvance s (fst (indexNewMessages options s))
  /\ (isOk (snd (indexNewMessages options s)) = false ->
      keeps cursorsView s (fst (indexNewMessages options s))).
Proof.
  unfold indexNewMessages. rewrite bind_run.
  pose proof (stable_await (keeps cursorsView)
                (Provider.getBlockNumber (Options.l1RpcProvider options)) s)
    as K1.
  destruct (await _ s) as [s1 [latest|e]]; cbn [fst snd] in *;
    [|split; [now apply keeps_cursors_advance|auto]].
  rewrite bind_run, getState_run.
  destruct (State.lastScannedL1Block (state s1) <? latest) eqn:Hlt.
  2: { rewrite console_log_run. cbn [fst snd isOk].
       split; [now apply keeps_cursors_advance|discriminate]. }
  apply Z.ltb_lt in Hlt.
  rewrite bind_run, console_log_run, bind_run.
  match goal with
  | |- context [getSentMessageEvents ?p ?a ?b ?s0] =>
      pose proof (getSentMessageEvents_quiet p a b s0) as K2;
      apply (quiet_keeps cursorsView) in K2;
      destruct (getSentMessageEvents p a b s0) as [s2 [msgs|e]]
  end; cbn [fst snd] in *.
  2: { assert (keeps cursorsView s s2)
         by (unfold keeps in *; cbn in *; congruence).
       split; [now apply keeps_cursors_advance|auto]. }
  rewrite bind_run, console_log_run, bind_run.
  match goal with
  | |- context [forOf msgs ?body ?s0] =>
      pose proof (stable_forOf (keeps cursorsView) msgs body
                    (addToQueue_keeps_cursors) s0) as K3;
      destruct (forOf msgs body s0) as [s3 [u|e]]
  end; cbn [fst snd] in *.
  2: { assert (keeps cursorsView s s3)
         by (unfold keeps in *; cbn in *; congruence).
       split; [now apply keeps_cursors_advance|auto]. }
  rewrite modifyState_run. cbn [fst snd isOk]. split; [|discriminate].
  unfold keeps, cursorsView, cursorsAdvance in *. cbn in *.
  injection K1 as K1a K1b. injection K2 as K2a K2b. injection K3 as K3a K3b.
  lia.
Qed.

(** The same for [checkRelayedMessages]. *)
Lemma checkRelayedMessages_cursors (s : Sigma W) :
  cursorsAdvance s (fst (checkRelayedMessages options s))
  /\ (isOk (snd (checkRelayedMessages options s)) = false ->
      keeps cursorsView s (fst (checkRelayedMessages options s))).
Proof.
  unfold checkRelayedMessages. rewrite bind_run.
  pose proof (stable_await (keeps cursorsView)
                (Provider.getBlockNumber (Options.l2RpcProvider options)) s)
    as K1.
  destruct (await _ s) as [s1 [latest|e]]; cbn [fst snd] in *;
    [|split; [now apply keeps_cursors_advance|auto]].
  rewrite bind_run, getState_run.
  destruct (State.lastScannedL2Block (state s1) <? latest) eqn:Hlt.
  2: { rewrite console_log_run. cbn [fst snd isOk].
       split; [now apply keeps_cursors_advance|discriminate]. }
  apply Z.ltb_lt in Hlt.
  rewrite bind_run, console_log_run, bind_run.
  match goal with
  | |- context [getRelayedMessageEvents ?p ?a ?b ?s0] =>
      pose proof (getRelayedMessageEvents_quiet p a b s0) as K2;
      apply (quiet_keeps cursorsView) in K2;
      destruct (getRelayedMessageEvents p a b s0) as [s2 [hashes|e]]
  end; cbn [fst snd] in *.
  2: { assert (keeps cursorsView s s2)
         by (unfold keeps in *; cbn in *; congruence).
       split; [now apply keeps_cursors_advance|auto]. }
  rewrite bind_run, console_log_run, bind_run.
  match goal with
  | |- context [forOf hashes ?body ?s0] =>
      pose proof (stable_forOf (keeps cursorsView) hashes body
                    (confirmRelayed_keeps_cursors) s0) as K3;
      destruct (forOf hashes body s0) as [s3 [u|e]]
  end; cbn [fst snd] in *.
  2: { assert (keeps cursorsView s s3)
         by (unfold keeps in *; cbn in *; congruence).
       split; [now apply keeps_cursors_advance|auto]. }
  rewrite modifyState_run. cbn [fst snd isOk]. split; [|discriminate].
  unfold keeps, cursorsView, cursorsAdvance in *. cbn in *.
  injection K1 as K1a K1b. injection K2 as K2a K2b. injection K3 as K3a K3b.
  lia.
Qed.

Lemma main_advances : stable cursorsAdvance (main options).
Proof.
  unfold main.
  frame_rule @stable_bind; [intros s; apply indexNewMessages_cursors|intros _].
  frame_rule @stable_bind;
    [intros s; apply checkRelayedMessages_cursors|intros _].
  frame_rule @stable_bind; [|intros _].
  - intros s. apply keeps_cursors_advance, relayPendingMessages_keeps_cursors.
  - intros s. apply keeps_cursors_advance.
    pose proof (updateMetrics_keeps_state s) as K.
    unfold keeps, cursorsView in *. now rewrite K.
Qed.

Lemma loop_advances (n : nat) (s : Sigma W) :
  cursorsAdvance s (loop options n s).
Proof.
  revert s. induction n as [|n IH]; intros s; cbn [loop].
  - apply frame_refl.
  - eapply frame_trans; [apply main_advances|apply IH].
Qed.

(** ** The historical pass *)

Lemma await_run {A} (call : W -> W * result A) (s : Sigma W) :
  await call s
  = (let (w', r) := call (world s) in
     ({| world := w'; state := state s; metrics := metrics s;
         console := console s |}, r)).
Proof. reflexivity. Qed.

(** A historical pass that completes leaves each cursor at the head it
    read at its start. *)
Lemma indexHistoricalMessages_cursors (s : Sigma W) :
  snd (indexHistoricalMessages options s) = Ok tt ->
  exists w1 w2 latestL1 latestL2,
    Provider.getBlockNumber (Options.l1RpcProvider options) (world s)
    = (w1, Ok latestL1)
    /\ Provider.getBlockNumber (Options.l2RpcProvider options) w1
       = (w2, Ok latestL2)
    /\ State.lastScannedL1Block (state (fst (indexHistoricalMessages options s)))
       = latestL1
    /\ State.lastScannedL2Block (state (fst (indexHistoricalMessages options s)))
       = latestL2.
Proof.
  unfold indexHistoricalMessages.
  rewrite bind_run, console_log_run, bind_run, await_run. cbn [world].
  destruct (Provider.getBlockNumber (Options.l1RpcProvider options) (world s))
    as [w1 [latestL1|e]] eqn:E1; [|discriminate].
  rewrite bind_run, await_run. cbn [world].
  destruct (Provider.getBlockNumber (Options.l2RpcProvider options) w1)
    as [w2 [latestL2|e]] eqn:E2; [|discriminate].
  rewrite bind_run.
  match goal with
  | |- context [getSentMessageEvents ?p ?a ?b ?s0] =>
      destruct (getSentMessageEvents p a b s0) as [s2 [msgs|e]]
  end; [|discriminate].
  rewrite bind_run, console_log_run, bind_run.
  match goal with
  | |- context [forOf msgs ?body ?s0] =>
      destruct (forOf msgs body s0) as [s3 [u|e]]
  end; [|discriminate].
  rewrite bind_run, modifyState_run, bind_run, console_log_run, bind_run.
  match goal with
  | |- context [getRelayedMessageEvents ?p ?a ?b ?s0] =>
      pose proof (getRelayedMessageEvents_quiet p a b s0) as K4;
      apply (quiet_keeps cursorsView) in K4;
      destruct (getRelayedMessageEvents p a b s0) as [s4 [hashes|e]]
  end; [|discriminate].
  rewrite bind_run, console_log_run, bind_run.
  match goal with
  | |- context [forOf hashes ?body ?s0] =>
      assert (K5 : keeps cursorsView s0 (fst (forOf hashes body s0)))
        by (apply stable_forOf; [exact _|]; intros hash;
            unfold setRelayed; frames keeps_leaf);
      destruct (forOf hashes body s0) as [s5 [u'|e]]
  end; [|discriminate].
  rewrite bind_run, modifyState_run, console_log_run.
  intros _. exists w1, w2, latestL1, latestL2.
  unfold keeps, cursorsView in *. cbn in *.
  injection K4 as K4a K4b. injection K5 as K5a K5b.
  repeat split; try assumption; congruence.
Qed.

Lemma init_cursors (s : Sigma W) :
  snd (init options s) = Ok tt ->
  exists w1 w2 latestL1 latestL2,
    Provider.getBlockNumber (Options.l1RpcProvider options) (world s)
    = (w1, Ok latestL1)
    /\ Provider.getBlockNumber (Options.l2RpcProvider options) w1
       = (w2, Ok latestL2)
    /\ State.lastScannedL1Block (state (fst (init options s))) = latestL1
    /\ State.lastScannedL2Block (state (fst (init options s))) = latestL2.
Proof.
  unfold init.
  repeat (rewrite bind_run;
          first [rewrite modifyState_run|rewrite modifyMetrics_run];
          cbv beta iota).
  intros Hok. now apply indexHistoricalMessages_cursors in Hok.
Qed.

(** ** Adding a message to the queue *)

Lemma addToQueue_run (msg : SentMessage.t) (s : Sigma W) :
  addToQueue options msg s
  = match blockTimestamp (Options.l1RpcProvider options)
            (SentMessage.blockNumber msg) s with
    | (s1, Ok timestamp) =>
        ({| world := world s1;
            state :=
              set_messageQueue
                (Map_set (State.messageQueue (state s1))
                   (SentMessage.messageHash msg)
                   (Message.fresh msg timestamp))
                (state s1);
            metrics := messagesSent_inc (metrics s1);
            console :=
              console s1 ++ [AddedToQueue (SentMessage.messageHash msg)] |},
         Ok tt)
    | (s1, Throw e) => (s1, Throw e)
    end.
Proof.
  unfold addToQueue. rewrite bind_run.
  destruct (blockTimestamp _ _ s) as [s1 [timestamp|e]]; reflexivity.
Qed.

(** ** Confirmations *)

Lemma confirmRelayed_unknown (hash : string) (s : Sigma W) :
  Map_get (State.messageQueue (state s)) hash = None ->
  confirmRelayed hash s = (s, Ok tt).
Proof.
  intros Hg. unfold confirmRelayed. rewrite bind_run, getState_run, Hg.
  reflexivity.
Qed.

Lemma confirmRelayed_already (hash : string) (s : Sigma W) (m : Message.t) :
  Map_get (State.messageQueue (state s)) hash = Some m ->
  Message.isRelayed m = true ->
  confirmRelayed hash s = (s, Ok tt).
Proof.
  intros Hg Hr. unfold confirmRelayed.
  rewrite bind_run, getState_run, Hg, Hr. reflexivity.
Qed.

Lemma forOf_fixed {A} (xs : list A) (body : A -> M W unit) (s : Sigma W) :
  (forall x, In x xs -> body x s = (s, Ok tt)) ->
  forOf xs body s = (s, Ok tt).
Proof.
  induction xs as [|x xs IH]; cbn [forOf]; intros Hb; [reflexivity|].
  rewrite bind_run, (Hb x (or_introl eq_refl)).
  apply IH. intros y Hy. apply Hb. now right.
Qed.

#[export] Instance onlyMarks_Frame : Frame (@onlyMarks W).
Proof.
  split; unfold onlyMarks.
  - intros s k. now left.
  - intros s1 s2 s3 H12 H23 k.
    destruct (H23 k) as [E23|(m & Hm & Hp & E23)].
    + rewrite E23. apply H12.
    + destruct (H12 k) as [E12|(m' & Hm' & Hp' & E12)].
      * right. exists m. rewrite <- E12. auto.
      * rewrite E12 in Hm. injection Hm as <-. discriminate.
  - intros s w k. now left.
Qed.

Lemma setRelayed_marks (hash : string) (s : Sigma W) (m : Message.t) :
  Map_get (State.messageQueue (state s)) hash = Some m ->
  Message.isRelayed m = false ->
  onlyMarks s (fst (setRelayed hash s)).
Proof.
  intros Hg Hp k. unfold setRelayed. rewrite modifyState_run. cbn.
  destruct (String.eqb_spec k hash) as [->|Hne].
  - right. exists m. rewrite Map_get_mutate_same, Hg. auto.
  - left. now apply Map_get_mutate_other.
Qed.

Lemma onlyMarks_data (s s' : Sigma W) : state s' = state s -> onlyMarks s s'.
Proof. intros E k. left. now rewrite E. Qed.

Lemma confirmRelayed_onlyMarks (hash : string) :
  stable onlyMarks (@confirmRelayed W hash).
Proof.
  intros s. unfold confirmRelayed. rewrite bind_run, getState_run.
  destruct (Map_get (State.messageQueue (state s)) hash) as [m|] eqn:Hg;
    [|apply frame_refl].
  destruct (Message.isRelayed m) eqn:Hr; cbn [negb]; [apply frame_refl|].
  rewrite bind_run, console_log_run, bind_run.
  pose proof (setRelayed_marks hash
                {| world := world s; state := state s; metrics := metrics s;
                   console := console s ++ [MarkingRelayed hash] |} m Hg Hr)
    as Hmark.
  unfold setRelayed in *. rewrite modifyState_run in *.
  rewrite bind_run, modifyMetrics_run, modifyMetrics_run. cbn in *.
  intros k. apply Hmark.
Qed.

Lemma checkRelayedMessages_onlyMarks :
  stable onlyMarks (checkRelayedMessages options).
Proof.
  unfold checkRelayedMessages, getRelayedMessageEvents.
  repeat first [ apply confirmRelayed_onlyMarks
               | frame_step ltac:(intros ?; left; reflexivity) ].
Qed.

(** ** The relay pass *)

Lemma attempted_app (l1 l2 : list LogLine) :
  attempted (l1 ++ l2) = attempted l1 ++ attempted l2.
Proof. apply flat_map_app. Qed.

Lemma failed_app (l1 l2 : list LogLine) :
  failed (l1 ++ l2) = failed l1 ++ failed l2.
Proof. apply flat_map_app. Qed.

(** One turn of the loop on a pending entry, by the outcome of the relay
    call: when [relayL1Message] throws, the failure is logged and nothing
    else happens; when it returns, the stored message is marked relayed and
    the two gauges move. *)
Lemma relayOne_run (h : string) (m : Message.t) (s s2 : Sigma W)
    (outcome : result Receipt.t) :
  Message.isRelayed m = false ->
  relayL1Message (Options.l2RpcProvider options) (Message.sender m)
    (Message.target m) (Message.message m)
    (ArgString (Message.messageNonce m)) (Message.value m)
    (Message.gasLimit m)
    {| world := world s; state := state s; metrics := metrics s;
       console := console s ++ [AttemptingToRelay h] |}
  = (s2, outcome) ->
  relayOne options (h, m) s
  = match outcome with
    | Throw e =>
        ({| world := world s2; state := state s2; metrics := metrics s2;
            console := console s2 ++ [FailedToRelay h e] |}, Ok tt)
    | Ok receipt =>
        ({| world := world s2;
            state :=
              set_messageQueue
                (Map_mutate (State.messageQueue (state s2)) h
                   Message.markRelayed)
                (state s2);
            metrics := pendingMessages_dec (messagesRelayed_inc (metrics s2));
            console :=
              console s2
              ++ [MessageRelayedInBlock (Receipt.blockNumber receipt)] |},
         Ok tt)
    end.
Proof.
  intros Hp Hcall. unfold relayOne. rewrite Hp. cbn [negb].
  unfold tryCatch. rewrite bind_run, console_log_run, bind_run, Hcall.
  destruct outcome as [receipt|e]; [|reflexivity].
  rewrite bind_run, console_log_run, bind_run.
  unfold setRelayed.
  rewrite modifyState_run, bind_run, modifyMetrics_run, modifyMetrics_run.
  reflexivity.
Qed.

(** One turn of the loop: it never throws; a relayed entry is skipped; a
    pending entry is attempted once, and either the failure is logged and
    the state is as before, or the stored message is marked relayed. *)
Lemma relayOne_spec (h : string) (m : Message.t) (s : Sigma W) :
  snd (relayOne options (h, m) s) = Ok tt
  /\ exists lines,
       console (fst (relayOne options (h, m) s)) = console s ++ lines
       /\ ((Message.isRelayed m = true /\ lines = []
            /\ state (fst (relayOne options (h, m) s)) = state s)
           \/ (Message.isRelayed m = false
               /\ attempted lines = [h] /\ failed lines = [h]
               /\ state (fst (relayOne options (h, m) s)) = state s)
           \/ (Message.isRelayed m = false
               /\ attempted lines = [h] /\ failed lines = []
               /\ state (fst (relayOne options (h, m) s))
                  = set_messageQueue
                      (Map_mutate (State.messageQueue (state s)) h
                         Message.markRelayed)
                      (state s))).
Proof.
  unfold relayOne. destruct (Message.isRelayed m) eqn:Hr; cbn [negb].
  - split; [reflexivity|]. exists []. rewrite app_nil_r. auto.
  - unfold tryCatch. rewrite bind_run, console_log_run, bind_run.
    match goal with
    | |- context [relayL1Message ?p ?a ?b ?c ?d ?e ?f ?s0] =>
        pose proof (relayL1Message_quiet p a b c d e f s0) as K;
        destruct (relayL1Message p a b c d e f s0) as [s2 [receipt|e0]]
    end; destruct K as (Ks & Km & lines0 & Kc & Ka & Kf); cbn in Ks, Km, Kc.
    + rewrite bind_run, console_log_run, bind_run.
      unfold setRelayed. rewrite modifyState_run, bind_run,
        modifyMetrics_run, modifyMetrics_run.
      cbn. split; [reflexivity|].
      exists ([AttemptingToRelay h] ++ lines0
              ++ [MessageRelayedInBlock (Receipt.blockNumber receipt)]).
      split; [rewrite Kc, <- !app_assoc; reflexivity|].
      right; right.
      rewrite !attempted_app, !failed_app, Ka, Kf, Ks. cbn. auto.
    + rewrite console_log_run. cbn. split; [reflexivity|].
      exists ([AttemptingToRelay h] ++ lines0 ++ [FailedToRelay h e0]).
      split; [rewrite Kc, <- !app_assoc; reflexivity|].
      right; left.
      rewrite !attempted_app, !failed_app, Ka, Kf. cbn. auto.
Qed.

Lemma pendingHashes_cons (h : string) (m : Message.t) (l : JsMap Message.t) :
  pendingHashes ((h, m) :: l)
  = if Message.isRelayed m then pendingHashes l else h :: pendingHashes l.
Proof.
  unfold pendingHashes. cbn. now destruct (Message.isRelayed m).
Qed.

Lemma pendingHashes_keys (l : JsMap Message.t) (k : string) :
  In k (pendingHashes l) -> In k (Map_keys l).
Proof.
  unfold pendingHashes, Map_keys. intros Hin.
  apply in_map_iff in Hin as ([k' m] & <- & Hf).
  apply filter_In in Hf as [Hf _]. now apply (in_map fst) in Hf.
Qed.

Lemma pendingHashes_In (l : JsMap Message.t) (k : string) :
  In k (pendingHashes l)
  <-> exists m, In (k, m) l /\ Message.isRelayed m = false.
Proof.
  unfold pendingHashes. rewrite in_map_iff. split.
  - intros ([k' m] & <- & Hf). apply filter_In in Hf as [Hin Hp].
    exists m. split; [assumption|]. cbn in Hp. now destruct (Message.isRelayed m).
  - intros (m & Hin & Hp). exists (k, m). split; [reflexivity|].
    apply filter_In. split; [assumption|]. cbn. now rewrite Hp.
Qed.

(** The loop over a list of entries with distinct keys. *)
Lemma relayEach_spec (l : JsMap Message.t) :
  NoDup (Map_keys l) ->
  forall s : Sigma W,
    snd (forOf l (relayOne options) s) = Ok tt
    /\ exists lines,
         console (fst (forOf l (relayOne options) s)) = console s ++ lines
         /\ attempted lines = pendingHashes l
         /\ incl (failed lines) (pendingHashes l)
         /\ forall k,
              ((~ In k (pendingHashes l) \/ In k (failed lines)) ->
               Map_get (State.messageQueue
                          (state (fst (forOf l (relayOne options) s)))) k
               = Map_get (State.messageQueue (state s)) k)
              /\ (In k (pendingHashes l) -> ~ In k (failed lines) ->
                  Map_get (State.messageQueue
                             (state (fst (forOf l (relayOne options) s)))) k
                  = option_map Message.markRelayed
                      (Map_get (State.messageQueue (state s)) k)).
Proof.
  induction l as [|[h m] l IH]; intros Hnd s.
  - cbn. split; [reflexivity|]. exists []. rewrite app_nil_r.
    repeat split; auto using incl_nil_l. intros [].
  - cbn [forOf]. rewrite bind_run.
    destruct (relayOne_spec h m s) as (Hok & lines1 & Hc1 & Hcase).
    destruct (relayOne options (h, m) s) as [s1 r1]. cbn [fst snd] in *.
    subst r1.
    change (Map_keys ((h, m) :: l)) with (h :: Map_keys l) in Hnd.
    apply NoDup_cons_iff in Hnd as [Hfresh Hnd].
    assert (HhP : ~ In h (pendingHashes l))
      by (intros Hin; apply Hfresh; now apply pendingHashes_keys).
    destruct (IH Hnd s1) as (Hok2 & lines2 & Hc2 & Ha2 & Hf2 & Hq2).
    split; [assumption|]. exists (lines1 ++ lines2).
    rewrite pendingHashes_cons, attempted_app, failed_app.
    split; [rewrite Hc2, Hc1, app_assoc; reflexivity|].
    destruct Hcase as [(Hr & -> & Hs1)|[(Hr & Ha1 & Hf1 & Hs1)
                                       |(Hr & Ha1 & Hf1 & Hs1)]];
      rewrite Hr.
    + cbn [app attempted failed flat_map]. rewrite <- Hs1.
      repeat split; try assumption; apply Hq2.
    + rewrite Ha1, Hf1, Ha2. cbn [app]. rewrite <- Hs1.
      split; [reflexivity|]. split.
      { intros k [<-|Hk]; [now left|right; now apply Hf2]. }
      intros k. split.
      * intros [Hn|[<-|Hk]]; apply Hq2.
        -- left. intros Hin. apply Hn. now right.
        -- now left.
        -- now right.
      * intros [<-|Hk] Hnf; [exfalso; apply Hnf; now left|].
        apply Hq2; [assumption|]. intros Hin. apply Hnf. now right.
    + rewrite Ha1, Hf1, Ha2. cbn [app].
      split; [reflexivity|]. split; [now apply incl_tl|].
      assert (Hq1 : forall k,
                 Map_get (State.messageQueue (state s1)) k
                 = if String.eqb k h
                   then option_map Message.markRelayed
                          (Map_get (State.messageQueue (state s)) k)
                   else Map_get (State.messageQueue (state s)) k).
      { intros k. rewrite Hs1. cbn.
        destruct (String.eqb_spec k h) as [->|Hne].
        - apply Map_get_mutate_same.
        - now apply Map_get_mutate_other. }
      intros k. split.
      * intros [Hn|Hk].
        -- assert (k <> h) by (intros ->; apply Hn; now left).
           rewrite (proj1 (Hq2 k)), Hq1.
           ++ destruct (String.eqb_spec k h); congruence.
           ++ left. intros Hin. apply Hn. now right.
        -- assert (k <> h) by (intros ->; apply HhP; now apply Hf2).
           rewrite (proj1 (Hq2 k)), Hq1; [|now right].
           destruct (String.eqb_spec k h); congruence.
      * intros [<-|Hk] Hnf.
        -- rewrite (proj1 (Hq2 h)), Hq1; [|now left].
           now rewrite String.eqb_refl.
        -- assert (k <> h) by (intros ->; now apply HhP).
           rewrite (proj2 (Hq2 k)), Hq1; [|assumption|assumption].
           destruct (String.eqb_spec k h); congruence.
Qed.

(** ** The keys of the queue stay distinct *)

#[export] Instance keysStayDistinct_Frame : Frame (@keysStayDistinct W).
Proof. split; unfold keysStayDistinct; cbn; auto. Qed.

Lemma addToQueue_distinct (msg : SentMessage.t) :
  stable keysStayDistinct (addToQueue options msg).
Proof.
  intros s. rewrite addToQueue_run.
  pose proof (blockTimestamp_quiet (Options.l1RpcProvider options)
                (SentMessage.blockNumber msg) s) as (Ks & _).
  destruct (blockTimestamp _ _ s) as [s1 [timestamp|e]];
    cbn [fst] in *; unfold keysStayDistinct; cbn -[Map_keys]; rewrite Ks.
  - apply Map_set_NoDup.
  - auto.
Qed.

Ltac distinct_leaf :=
  unfold keysStayDistinct; cbn -[Map_keys]; rewrite ?Map_keys_mutate; auto.

Lemma main_distinct : stable keysStayDistinct (main options).
Proof.
  unfold main, updateMetrics, relayPendingMessages, relayOne,
    checkRelayedMessages, indexNewMessages, confirmRelayed, setRelayed,
    relayL1Message, submitRelay, setBalance, sendForkTxAs,
    getSentMessageEvents, getRelayedMessageEvents.
  repeat first [apply addToQueue_distinct | frame_step distinct_leaf].
Qed.

Lemma loop_distinct (n : nat) (s : Sigma W) :
  NoDup (Map_keys (State.messageQueue (state s))) ->
  NoDup (Map_keys (State.messageQueue (state (loop options n s)))).
Proof.
  revert s. induction n as [|n IH]; intros s Hnd; cbn [loop]; [assumption|].
  apply IH. now apply main_distinct.
Qed.

(** After [init] the keys are distinct, whatever the state was. *)
Lemma init_distinct (s : Sigma W) :
  NoDup (Map_keys (State.messageQueue (state (fst (init options s))))).
Proof.
  unfold init. rewrite bind_run, modifyState_run. cbv beta iota.
  match goal with
  | |- context [bind ?m ?k ?s0] =>
      assert (Hrest : stable keysStayDistinct (bind m k))
  end.
  { unfold indexHistoricalMessages, setRelayed, getSentMessageEvents,
      getRelayedMessageEvents.
    repeat first [apply addToQueue_distinct | frame_step distinct_leaf]. }
  apply Hrest. cbn. constructor.
Qed.

(** ** A scan that fails on a sender mismatch *)

Lemma indexNewMessages_scan_throws (s : Sigma W) latest w0 w1 w2
    sent extensionEvents err :
  Provider.getBlockNumber (Options.l1RpcProvider options) (world s)
  = (w0, Ok latest) ->
  State.lastScannedL1Block (state s) < latest ->
  Provider.querySentMessage (Options.l1RpcProvider options)
    (State.lastScannedL1Block (state s) + 1) latest w0 = (w1, Ok sent) ->
  Provider.querySentMessageExtension1 (Options.l1RpcProvider options)
    (State.lastScannedL1Block (state s) + 1) latest w1
  = (w2, Ok extensionEvents) ->
  pairSentMessages sent extensionEvents = Throw err ->
  snd (indexNewMessages options s) = Throw err
  /\ state (fst (indexNewMessages options s)) = state s
  /\ metrics (fst (indexNewMessages options s)) = metrics s.
Proof.
  intros Hhead Hlt Hsent Hext Hpair.
  unfold indexNewMessages. rewrite bind_run, await_run, Hhead.
  rewrite bind_run, getState_run. cbn [state].
  apply Z.ltb_lt in Hlt. rewrite Hlt.
  rewrite bind_run, console_log_run, bind_run.
  erewrite getSentMessageEvents_run by (cbn [world]; eassumption).
  rewrite Hpair. cbn. auto.
Qed.

(** ** The relay call, step by step *)

Lemma ret_run {A} (a : A) (s : Sigma W) : ret a s = (s, Ok a).
Proof. reflexivity. Qed.

(** A transaction that was populated is the [relayMessage] call on the
    arguments as given, to the L2 messenger, with the value when it is not
    zero; and the ABI coder accepted the six arguments. *)
Lemma relayTransaction_Ok versioned l1Sender target value minGasLimit message
    (tx : PopulatedTransaction.t) :
  relayTransaction versioned l1Sender target value minGasLimit message = Ok tx ->
  tx = {| PopulatedTransaction.to := L2_CROSS_DOMAIN_MESSENGER_ADDRESS;
          PopulatedTransaction.data :=
            relayMessage versioned l1Sender target value minGasLimit message;
          PopulatedTransaction.value :=
            if BigNumber_isZero value then None else Some value |}
  /\ isOk (encodeCrossDomainMessageV1 (ArgBigNumber versioned) l1Sender target
             value (ArgNumber minGasLimit) message)
     = true.
Proof.
  unfold relayTransaction, resolveName.
  destruct (getAddress l1Sender); cbn [rbind]; [|discriminate].
  destruct (getAddress target); cbn [rbind]; [|discriminate].
  destruct (encodeCrossDomainMessageV1 _ _ _ _ _ _); cbn [rbind];
    [|discriminate].
  intros Htx. apply Ok_inj in Htx. subst tx.
  split; [|reflexivity]. now destruct (BigNumber_isZero value).
Qed.

(** The [try] block of [relayL1Message] by the answers of the provider. *)
Lemma submitRelay_run (provider : Provider.t W) submitted l1Sender target
    message value minGasLimit (s : Sigma W) :
  submitRelay provider submitted l1Sender target message value minGasLimit s
  = (let funded :=
       if BigNumber_isZero value then (s, Ok tt)
       else
         match Provider.send provider
                 (tenderly_setBalance L1_MESSENGER_ADDRESS_ALIAS value)
                 (world s) with
         | (w, Ok _) =>
             ({| world := w; state := state s; metrics := metrics s;
                 console := console s ++ [SetMessengerBalance value] |}, Ok tt)
         | (w, Throw e) =>
             ({| world := w; state := state s; metrics := metrics s;
                 console := console s |}, Throw e)
         end in
     match funded with
     | (s1, Throw e) => (s1, Throw e)
     | (s1, Ok _) =>
         match relayTransaction submitted l1Sender target value minGasLimit
                 message with
         | Throw e => (s1, Throw e)
         | Ok tx =>
             match Provider.send provider
                     (eth_sendTransaction L1_MESSENGER_ADDRESS_ALIAS
                        (PopulatedTransaction.to tx)
                        (PopulatedTransaction.value tx)
                        (PopulatedTransaction.data tx))
                     (world s1) with
             | (w2, Throw e) =>
                 ({| world := w2; state := state s1; metrics := metrics s1;
                     console := console s1 |}, Throw e)
             | (w2, Ok txHash) =>
                 match Provider.getTransactionReceipt provider txHash w2 with
                 | (w3, Throw e) =>
                     ({| world := w3; state := state s1; metrics := metrics s1;
                         console :=
                           console s1 ++ [RelayTransactionSent txHash] |},
                      Throw e)
                 | (w3, Ok None) =>
                     ({| world := w3; state := state s1; metrics := metrics s1;
                         console :=
                           console s1 ++ [RelayTransactionSent txHash] |},
                      Throw (TypeError "receipt.blockNumber"))
                 | (w3, Ok (Some receipt)) =>
                     ({| world := w3; state := state s1; metrics := metrics s1;
                         console :=
                           (console s1 ++ [RelayTransactionSent txHash])
                           ++ [TransactionConfirmed
                                 (Receipt.blockNumber receipt)] |},
                      Ok receipt)
                 end
             end
         end
     end).
Proof.
  unfold submitRelay, setBalance, sendForkTxAs. rewrite bind_run.
  destruct (BigNumber_isZero value); cbn [negb].
  - rewrite ret_run. cbv zeta. rewrite bind_run. unfold liftResult at 1.
    destruct (relayTransaction _ _ _ _ _ _) as [tx|e]; [|reflexivity].
    rewrite bind_run, await_run.
    destruct (Provider.send provider _ (world s)) as [w2 [txHash|e]];
      [|reflexivity].
    rewrite bind_run, console_log_run, bind_run, await_run. cbn [world].
    destruct (Provider.getTransactionReceipt provider txHash w2)
      as [w3 [[receipt|]|e]]; reflexivity.
  - rewrite bind_run, bind_run, await_run.
    destruct (Provider.send provider (tenderly_setBalance _ _) (world s))
      as [w [r|e]]; [|reflexivity].
    rewrite ret_run, console_log_run. cbv zeta.
    rewrite bind_run. unfold liftResult at 1.
    destruct (relayTransaction _ _ _ _ _ _) as [tx|e]; [|reflexivity].
    rewrite bind_run, await_run. cbn [world].
    destruct (Provider.send provider _ w) as [w2 [txHash|e]]; [|reflexivity].
    rewrite bind_run, console_log_run, bind_run, await_run. cbn [world].
    destruct (Provider.getTransactionReceipt provider txHash w2)
      as [w3 [[receipt|]|e]]; reflexivity.
Qed.

Lemma relayL1Message_run (provider : Provider.t W) l1Sender target message
    nonce value minGasLimit (s : Sigma W) :
  relayL1Message provider l1Sender target message nonce value minGasLimit s
  = match versionedNonce nonce with
    | Throw e => (s, Throw e)
    | Ok submitted =>
        match submitRelay provider submitted l1Sender target message value
                minGasLimit s with
        | (s1, Ok receipt) => (s1, Ok receipt)
        | (s1, Throw e) =>
            ({| world := world s1; state := state s1; metrics := metrics s1;
                console := console s1 ++ [ErrorRelaying e] |}, Throw e)
        end
    end.
Proof.
  unfold relayL1Message. rewrite bind_run. unfold liftResult.
  destruct (versionedNonce nonce) as [submitted|e]; [|reflexivity].
  unfold tryCatch.
  destruct (submitRelay _ _ _ _ _ _ _ s) as [s1 [receipt|e]]; reflexivity.
Qed.

(** The nonce computed for the relay call: the value of the argument with
    bit 240 set, for an argument that denotes a number that is not
    negative. *)
Lemma versionedNonce_Ok (arg : BigNumberish) (submitted : BigNumber) :
  versionedNonce arg = Ok submitted ->
  exists n, BigNumber_from arg = Ok n /\ 0 <= n
            /\ submitted = Z.lor (Z.shiftl 1 240) n
            /\ n <= submitted.
Proof.
  unfold versionedNonce, BigNumber_or, BigNumber_shl.
  destruct (BigNumber_from arg) as [n|e]; cbn [rbind]; [|discriminate].
  rewrite shiftl_1_240_sign. cbn [orb].
  destruct (Z.ltb_spec n 0) as [Hneg|Hpos]; [discriminate|].
  intros Hsub. apply Ok_inj in Hsub. subst submitted.
  exists n. repeat split; try assumption.
  rewrite shiftl_1_240. now apply lor_version_ge.
Qed.

Lemma versionedNonce_of_value (arg : BigNumberish) (n : Z) :
  BigNumber_from arg = Ok n -> 0 <= n ->
  versionedNonce arg = Ok (Z.lor (Z.shiftl 1 240) n).
Proof.
  intros Harg Hn. unfold versionedNonce, BigNumber_or, BigNumber_shl.
  rewrite Harg. cbn [rbind]. rewrite shiftl_1_240_sign. cbn [orb].
  destruct (Z.ltb_spec n 0); [lia|reflexivity].
Qed.

Lemma versionedNonce_negative (arg : BigNumberish) (n : Z) :
  BigNumber_from arg = Ok n -> n < 0 ->
  versionedNonce arg = Throw (NumericFault "unbound-bitwise-result").
Proof.
  intros Harg Hn. unfold versionedNonce, BigNumber_or, BigNumber_shl.
  rewrite Harg. cbn [rbind]. rewrite shiftl_1_240_sign. cbn [orb].
  destruct (Z.ltb_spec n 0); [reflexivity|lia].
Qed.

Lemma encodeCrossDomainMessageV1_only_valid
    nonce sender target value gasLimit data encoded :
  encodeCrossDomainMessageV1 nonce sender target value gasLimit data
  = Ok encoded ->
  validUint256 nonce /\ validAddress sender /\ validAddress target
  /\ 0 <= value < 2 ^ 256 /\ validUint256 gasLimit /\ validBytes data.
Proof.
  intros Henc.
  apply hashCrossDomainMessageV1_only_valid
    with (digest := hexlify (keccak256 encoded)).
  unfold hashCrossDomainMessageV1. now rewrite Henc.
Qed.

(** The contract call is populated exactly for the argument lists the ABI
    coder accepts. *)
Lemma relayTransaction_accepted versioned l1Sender target value minGasLimit
    message (tx : PopulatedTransaction.t) :
  relayTransaction versioned l1Sender target value minGasLimit message = Ok tx ->
  0 <= versioned < 2 ^ 256 /\ validAddress l1Sender /\ validAddress target
  /\ 0 <= value < 2 ^ 256 /\ 0 <= minGasLimit < 2 ^ 53 - 1
  /\ validBytes message.
Proof.
  intros Htx. apply relayTransaction_Ok in Htx as [_ Hok].
  destruct (encodeCrossDomainMessageV1 (ArgBigNumber versioned) l1Sender
              target value (ArgNumber minGasLimit) message)
    as [encoded|e] eqn:Henc; [|discriminate].
  apply encodeCrossDomainMessageV1_only_valid in Henc
    as (Hn & Hs & Ht & Hv & Hg & Hd).
  repeat split; try assumption; try apply Hn; try apply Hv.
  - unfold validUint256 in Hg. cbn [BigNumber_from] in Hg.
    destruct ((- (2 ^ 53 - 1) <? minGasLimit) && (minGasLimit <? 2 ^ 53 - 1));
      [apply Hg|contradiction].
  - unfold validUint256 in Hg. cbn [BigNumber_from] in Hg.
    destruct (Z.ltb_spec (- (2 ^ 53 - 1)) minGasLimit); cbn [andb] in Hg;
      [|contradiction].
    destruct (Z.ltb_spec minGasLimit (2 ^ 53 - 1)); [assumption|contradiction].
Qed.

Lemma relayTransaction_valid versioned l1Sender target value minGasLimit
    message :
  0 <= versioned < 2 ^ 256 -> validAddress l1Sender -> validAddress target ->
  0 <= value < 2 ^ 256 -> 0 <= minGasLimit < 2 ^ 53 - 1 ->
  validBytes message ->
  relayTransaction versioned l1Sender target value minGasLimit message
  = Ok {| PopulatedTransaction.to := L2_CROSS_DOMAIN_MESSENGER_ADDRESS;
          PopulatedTransaction.data :=
            relayMessage versioned l1Sender target value minGasLimit message;
          PopulatedTransaction.value :=
            if BigNumber_isZero value then None else Some value |}.
Proof.
  intros Hn Hs Ht Hv Hg Hd.
  assert (Hgas : validUint256 (ArgNumber minGasLimit)).
  { unfold validUint256. cbn [BigNumber_from].
    destruct (Z.ltb_spec (- (2 ^ 53 - 1)) minGasLimit); [|lia].
    destruct (Z.ltb_spec minGasLimit (2 ^ 53 - 1)); [|lia].
    cbn [andb]. lia. }
  destruct (encodeCrossDomainMessageV1_valid (ArgBigNumber versioned)
              l1Sender target value (ArgNumber minGasLimit) message
              Hn Hs Ht Hv Hgas Hd) as [encoded Henc].
  unfold relayTransaction, resolveName. unfold validAddress in Hs, Ht.
  destruct (getAddress l1Sender); [|contradiction].
  destruct (getAddress target); [|contradiction].
  cbn [rbind]. rewrite Henc. cbn [rbind].
  now destruct (BigNumber_isZero value).
Qed.

(** [relayL1Message] once the nonce is computed, the arguments are accepted
    and the balance step, if there is one, was answered: the transaction
    goes out, and the answers to it decide the rest. *)
Lemma relayL1Message_submits (provider : Provider.t W) l1Sender target
    message nonce value minGasLimit (s : Sigma W) submitted tx w lines :
  versionedNonce nonce = Ok submitted ->
  relayTransaction submitted l1Sender target value minGasLimit message
  = Ok tx ->
  balanceStepAnswered provider value (world s) w lines ->
  relayL1Message provider l1Sender target message nonce value minGasLimit s
  = match Provider.send provider
            (eth_sendTransaction L1_MESSENGER_ADDRESS_ALIAS
               L2_CROSS_DOMAIN_MESSENGER_ADDRESS
               (if BigNumber_isZero value then None else Some value)
               (relayMessage submitted l1Sender target value minGasLimit
                  message))
            w with
    | (w2, Throw e) =>
        ({| world := w2; state := state s; metrics := metrics s;
            console := console s ++ lines ++ [ErrorRelaying e] |}, Throw e)
    | (w2, Ok txHash) =>
        match Provider.getTransactionReceipt provider txHash w2 with
        | (w3, Throw e) =>
            ({| world := w3; state := state s; metrics := metrics s;
                console :=
                  console s ++ lines
                  ++ [RelayTransactionSent txHash; ErrorRelaying e] |},
             Throw e)
        | (w3, Ok None) =>
            ({| world := w3; state := state s; metrics := metrics s;
                console :=
                  console s ++ lines
                  ++ [RelayTransactionSent txHash;
                      ErrorRelaying (TypeError "receipt.blockNumber")] |},
             Throw (TypeError "receipt.blockNumber"))
        | (w3, Ok (Some receipt)) =>
            ({| world := w3; state := state s; metrics := metrics s;
                console :=
                  console s ++ lines
                  ++ [RelayTransactionSent txHash;
                      TransactionConfirmed (Receipt.blockNumber receipt)] |},
             Ok receipt)
        end
    end.
Proof.
  intros Hv Htx Hfund. rewrite relayL1Message_run, Hv, submitRelay_run.
  cbv zeta. rewrite Htx. apply relayTransaction_Ok in Htx as [-> _].
  cbn [PopulatedTransaction.to PopulatedTransaction.value
       PopulatedTransaction.data].
  unfold balanceStepAnswered in Hfund.
  destruct (BigNumber_isZero value).
  - destruct Hfund as [-> ->]. cbn [app].
    destruct (Provider.send provider _ (world s)) as [w2 [txHash|e]];
      [|reflexivity].
    destruct (Provider.getTransactionReceipt provider txHash w2)
      as [w3 [[receipt|]|e]]; cbn; now rewrite <- ?app_assoc.
  - destruct Hfund as (-> & answer & Hset). rewrite Hset.
    cbn [world state metrics console].
    destruct (Provider.send provider _ w) as [w2 [txHash|e]];
      [|cbn; now rewrite <- ?app_assoc].
    destruct (Provider.getTransactionReceipt provider txHash w2)
      as [w3 [[receipt|]|e]]; cbn; now rewrite <- ?app_assoc.
Qed.

(** [relayL1Message] on arguments the contract call refuses: the error is
    logged and rethrown, and no transaction goes out. *)
Lemma relayL1Message_refuses (provider : Provider.t W) l1Sender target
    message nonce value minGasLimit (s : Sigma W) submitted e w lines :
  versionedNonce nonce = Ok submitted ->
  relayTransaction submitted l1Sender target value minGasLimit message
  = Throw e ->
  balanceStepAnswered provider value (world s) w lines ->
  relayL1Message provider l1Sender target message nonce value minGasLimit s
  = ({| world := w; state := state s; metrics := metrics s;
        console := console s ++ lines ++ [ErrorRelaying e] |}, Throw e).
Proof.
  intros Hv Htx Hfund. rewrite relayL1Message_run, Hv, submitRelay_run.
  cbv zeta. rewrite Htx. unfold balanceStepAnswered in Hfund.
  destruct (BigNumber_isZero value).
  - destruct Hfund as [-> ->]. reflexivity.
  - destruct Hfund as (-> & answer & Hset). rewrite Hset. cbn.
    now rewrite <- app_assoc.
Qed.

(** A loop over two lists in a row. *)
Lemma forOf_app {A} (xs ys : list A) (body : A -> M W unit) (s : Sigma W) :
  forOf (xs ++ ys) body s
  = match forOf xs body s with
    | (s1, Ok _) => forOf ys body s1
    | (s1, Throw e) => (s1, Throw e)
    end.
Proof.
  revert s. induction xs as [|x xs IH]; intros s; [reflexivity|].
  rewrite <- app_comm_cons. cbn [forOf]. rewrite !bind_run.
  destruct (body x s) as [s1 [[]|e]]; [apply IH|reflexivity].
Qed.

End ServiceFrames.

(* ================================================================== *)
(** * The message store *)

Section StoreClaims.

Context {W : Type} `{Ethers} `{Constants} (options : Options.t W).

(** C1 (amended).  The indexing insert keeps one record per hash but it is
    an overwrite: when the hash of the indexed message is already a key of
    the queue and the time stamp is read, the queue keeps its keys, their
    order and its size, every other key keeps its record, and the record
    under that hash is replaced by the freshly indexed one, whose status is
    Pending; the queue is unchanged exactly when the stored record already
    equals the fresh one.  When reading the time stamp throws, state and
    gauges are as before. *)
Theorem addToQueue_overwrites_present_hash
    (msg : SentMessage.t) (s : Sigma W) (old : Message.t) :
  Map_get (State.messageQueue (state s)) (SentMessage.messageHash msg)
  = Some old ->
  (isOk (snd (addToQueue options msg s)) = false ->
   state (fst (addToQueue options msg s)) = state s
   /\ metrics (fst (addToQueue options msg s)) = metrics s)
  /\ (snd (addToQueue options msg s) = Ok tt ->
      exists timestamp,
        let queue := State.messageQueue (state s) in
        let queue' :=
          State.messageQueue (state (fst (addToQueue options msg s))) in
        let hash := SentMessage.messageHash msg in
        queue' = Map_set queue hash (Message.fresh msg timestamp)
        /\ Map_get queue' hash = Some (Message.fresh msg timestamp)
        /\ Message.isRelayed (Message.fresh msg timestamp) = false
        /\ Map_keys queue' = Map_keys queue
        /\ Map_size queue' = Map_size queue
        /\ (forall k, k <> hash -> Map_get queue' k = Map_get queue k)
        /\ (queue' = queue <-> old = Message.fresh msg timestamp)).
Proof.
  intros Hold. rewrite addToQueue_run.
  pose proof (blockTimestamp_quiet (Options.l1RpcProvider options)
                (SentMessage.blockNumber msg) s) as (Ks & Km & _).
  destruct (blockTimestamp _ _ s) as [s1 [timestamp|e]]; cbn [fst snd] in *.
  - split; [discriminate|]. intros _. exists timestamp. cbn.
    rewrite Ks. repeat split.
    + apply Map_get_set_same.
    + now apply Map_keys_set_present with old.
    + now apply Map_size_set_present with old.
    + intros k Hk. now apply Map_get_set_other.
    + intros Heq.
      pose proof (Map_get_set_same (State.messageQueue (state s))
                    (SentMessage.messageHash msg)
                    (Message.fresh msg timestamp)) as Hnew.
      rewrite Heq, Hold in Hnew. now injection Hnew.
    + intros ->. now apply Map_set_fixed.
  - split; [auto|discriminate].
Qed.

(** C7.  A confirmation never fabricates a record: for a hash that is not
    a key of the queue the loop body of [checkRelayedMessages] changes
    nothing at all, and neither does it for a hash whose record is already
    Relayed; whatever the scan returns, [checkRelayedMessages] keeps the
    keys of the queue and changes a record only by marking a pending one
    relayed; and when every returned hash is unknown or already relayed it
    returns with the queue and the gauges as they were. *)
Theorem checkRelayedMessages_never_fabricates (s : Sigma W) :
  (forall hash,
      Map_get (State.messageQueue (state s)) hash = None ->
      confirmRelayed hash s = (s, Ok tt))
  /\ (forall hash m,
         Map_get (State.messageQueue (state s)) hash = Some m ->
         Message.isRelayed m = true ->
         confirmRelayed hash s = (s, Ok tt))
  /\ Map_keys (State.messageQueue
                 (state (fst (checkRelayedMessages options s))))
     = Map_keys (State.messageQueue (state s))
  /\ onlyMarks s (fst (checkRelayedMessages options s))
  /\ (forall latest hashes w1 w2,
         Provider.getBlockNumber (Options.l2RpcProvider options) (world s)
         = (w1, Ok latest) ->
         State.lastScannedL2Block (state s) < latest ->
         Provider.queryRelayedMessage (Options.l2RpcProvider options)
           (State.lastScannedL2Block (state s) + 1) latest w1
         = (w2, Ok hashes) ->
         (forall hash, In hash hashes ->
            Map_get (State.messageQueue (state s)) hash = None
            \/ exists m,
                 Map_get (State.messageQueue (state s)) hash = Some m
                 /\ Message.isRelayed m = true) ->
         snd (checkRelayedMessages options s) = Ok tt
         /\ State.messageQueue (state (fst (checkRelayedMessages options s)))
            = State.messageQueue (state s)
         /\ metrics (fst (checkRelayedMessages options s)) = metrics s).
Proof.
  split; [intros hash; apply confirmRelayed_unknown|].
  split; [intros hash m; apply confirmRelayed_already|].
  split; [apply (checkRelayedMessages_keeps_keys options s)|].
  split; [apply checkRelayedMessages_onlyMarks|].
  intros latest hashes w1 w2 Hhead Hlt Hscan Hall.
  unfold checkRelayedMessages. rewrite bind_run, await_run, Hhead.
  rewrite bind_run, getState_run. cbn [state].
  apply Z.ltb_lt in Hlt. rewrite Hlt.
  rewrite bind_run, console_log_run, bind_run.
  unfold getRelayedMessageEvents. rewrite await_run. cbn [world].
  rewrite Hscan. rewrite bind_run, console_log_run, bind_run.
  rewrite forOf_fixed.
  - rewrite modifyState_run. cbn. auto.
  - intros hash Hin. destruct (Hall hash Hin) as [Hnone|(m & Hm & Hr)].
    + now apply confirmRelayed_unknown.
    + now apply confirmRelayed_already with m.
Qed.

(** C5.  Relay failures are isolated per message: a pass of
    [relayPendingMessages] over a queue (whose keys are distinct, as the
    keys of a Map are) never throws and keeps the keys; it attempts exactly
    the pending messages, each once and in queue order; a message that was
    already relayed is left alone.  The pass reaches every pending message,
    whatever happened to the messages before it, and there it calls
    [relayL1Message] on the fields of the message; the outcome of that call
    alone decides the status of the message at the end of the pass: when
    the call throws, the record is kept as it is, still Pending, and the
    failure is logged; when the call returns a receipt, the record is
    marked Relayed.  In terms of the console: a pending message named by a
    [Failed to relay message] line keeps its record, every other pending
    message is marked Relayed. *)
Theorem relayPendingMessages_isolates_failures (s : Sigma W) :
  NoDup (Map_keys (State.messageQueue (state s))) ->
  snd (relayPendingMessages options s) = Ok tt
  /\ Map_keys (State.messageQueue (state (fst (relayPendingMessages options s))))
     = Map_keys (State.messageQueue (state s))
  /\ exists lines,
       console (fst (relayPendingMessages options s)) = console s ++ lines
       /\ attempted lines = pendingHashes (State.messageQueue (state s))
       /\ (forall hash m,
            Map_get (State.messageQueue (state s)) hash = Some m ->
            (Message.isRelayed m = true ->
             Map_get (State.messageQueue
                        (state (fst (relayPendingMessages options s)))) hash
             = Some m)
            /\ (Message.isRelayed m = false ->
                In hash (attempted lines)
                /\ (In hash (failed lines) ->
                    Map_get (State.messageQueue
                               (state (fst (relayPendingMessages options s))))
                      hash
                    = Some m)
                /\ (~ In hash (failed lines) ->
                    Map_get (State.messageQueue
                               (state (fst (relayPendingMessages options s))))
                      hash
                    = Some (Message.markRelayed m))))
       /\ (forall before hash m after,
            State.messageQueue (state s) = before ++ (hash, m) :: after ->
            Message.isRelayed m = false ->
            snd (forOf before (relayOne options) s) = Ok tt
            /\ forall s2 outcome,
                 relayL1Message (Options.l2RpcProvider options)
                   (Message.sender m) (Message.target m) (Message.message m)
                   (ArgString (Message.messageNonce m)) (Message.value m)
                   (Message.gasLimit m)
                   (fst (console_log (AttemptingToRelay hash)
                           (fst (forOf before (relayOne options) s))))
                 = (s2, outcome) ->
                 match outcome with
                 | Throw e =>
                     Map_get (State.messageQueue
                                (state (fst (relayPendingMessages options s))))
                       hash
                     = Some m
                     /\ In (FailedToRelay hash e) lines
                 | Ok receipt =>
                     Map_get (State.messageQueue
                                (state (fst (relayPendingMessages options s))))
                       hash
                     = Some (Message.markRelayed m)
                     /\ In (MessageRelayedInBlock (Receipt.blockNumber receipt))
                          lines
                     /\ ~ In hash (failed lines)
                 end).
Proof.
  intros Hnd.
  pose proof (relayPendingMessages_keeps_keys options s) as Hkeys.
  assert (Hrun : relayPendingMessages options s
                 = forOf (State.messageQueue (state s)) (relayOne options) s)
    by reflexivity.
  rewrite Hrun in *. clear Hrun.
  destruct (relayEach_spec options (State.messageQueue (state s)) Hnd s)
    as (Hok & lines & Hc & Ha & Hf & Hq).
  split; [exact Hok|]. split; [exact Hkeys|].
  exists lines. split; [exact Hc|]. split; [exact Ha|]. split.
  { intros hash m Hget. split.
    - intros Hr. rewrite (proj1 (Hq hash)); [assumption|].
      left. intros Hin. apply pendingHashes_In in Hin as (m' & Hin & Hp).
      apply (Map_In_get _ _ _ Hnd) in Hin. congruence.
    - intros Hp.
      assert (Hin : In hash (pendingHashes (State.messageQueue (state s)))).
      { apply pendingHashes_In. exists m. split; [|assumption].
        now apply Map_get_In. }
      split; [now rewrite Ha|]. split.
      + intros Hfail. rewrite (proj1 (Hq hash)); [assumption|now right].
      + intros Hnf. rewrite (proj2 (Hq hash)); [|assumption|assumption].
        now rewrite Hget. }
  intros before hash m after Hsplit Hp.
  assert (Hget : Map_get (State.messageQueue (state s)) hash = Some m).
  { apply Map_In_get; [assumption|]. rewrite Hsplit. apply in_elt. }
  rewrite Hsplit in Hnd, Hc, Hq |- *. clear Hok Ha Hf Hkeys.
  unfold Map_keys in Hnd. rewrite map_app in Hnd. cbn [map fst] in Hnd.
  pose proof (NoDup_remove_1 _ _ _ Hnd) as Hrest.
  pose proof (NoDup_remove_2 _ _ _ Hnd) as Hfresh.
  assert (Hndb : NoDup (Map_keys before))
    by (now apply NoDup_app_remove_r in Hrest).
  assert (Hnda : NoDup (Map_keys after))
    by (now apply NoDup_app_remove_l in Hrest).
  assert (Hnb : ~ In hash (pendingHashes before)).
  { intros Hin. apply Hfresh, in_or_app. left.
    now apply pendingHashes_keys. }
  assert (Hna : ~ In hash (pendingHashes after)).
  { intros Hin. apply Hfresh, in_or_app. right.
    now apply pendingHashes_keys. }
  destruct (relayEach_spec options before Hndb s)
    as (Hok1 & lines1 & Hc1 & _ & Hf1 & Hq1).
  split; [exact Hok1|].
  intros s2 outcome Hcall.
  rewrite forOf_app in Hc, Hq |- *.
  destruct (forOf before (relayOne options) s) as [s1 r1].
  cbn [fst snd] in *. subst r1.
  assert (Hget1 : Map_get (State.messageQueue (state s1)) hash = Some m)
    by (rewrite (proj1 (Hq1 hash)); [assumption|now left]).
  rewrite console_log_run in Hcall. cbn [fst] in Hcall.
  pose proof (relayL1Message_quiet (Options.l2RpcProvider options)
                (Message.sender m) (Message.target m) (Message.message m)
                (ArgString (Message.messageNonce m)) (Message.value m)
                (Message.gasLimit m)
                {| world := world s1; state := state s1;
                   metrics := metrics s1;
                   console := console s1 ++ [AttemptingToRelay hash] |})
    as (Ks & _ & lines0 & Kc & _ & Kf0).
  rewrite Hcall in Ks, Kc. cbn [fst state console] in Ks, Kc.
  cbn [forOf] in Hc, Hq |- *. rewrite bind_run in Hc, Hq |- *.
  rewrite (relayOne_run options hash m s1 s2 outcome Hp Hcall) in Hc, Hq |- *.
  destruct outcome as [receipt|e].
  - match type of Hc with
    | context [forOf after _ ?s3] =>
        destruct (relayEach_spec options after Hnda s3)
          as (_ & lines3 & Hc3 & _ & Hf3 & Hq3);
        rewrite Hc3 in Hc; rewrite (proj1 (Hq3 hash)) by (now left)
    end.
    cbn [state console State.messageQueue set_messageQueue] in *.
    rewrite Kc, Hc1, <- !app_assoc in Hc.
    apply app_inv_head in Hc. subst lines.
    split; [rewrite Map_get_mutate_same, Ks, Hget1; reflexivity|].
    split; [apply in_or_app; right; apply in_or_app; right;
            apply in_or_app; right; apply in_or_app; left; now left|].
    rewrite !failed_app, Kf0. cbn [failed flat_map app].
    intros Hin. apply in_app_or in Hin as [Hin|Hin].
    + apply Hnb. now apply Hf1.
    + apply Hna. now apply Hf3.
  - match type of Hc with
    | context [forOf after _ ?s3] =>
        destruct (relayEach_spec options after Hnda s3)
          as (_ & lines3 & Hc3 & _ & _ & Hq3);
        rewrite Hc3 in Hc; rewrite (proj1 (Hq3 hash)) by (now left)
    end.
    cbn [state console] in *.
    rewrite Kc, Hc1, <- !app_assoc in Hc.
    apply app_inv_head in Hc. subst lines.
    split; [now rewrite Ks|].
    apply in_or_app; right; apply in_or_app; right;
      apply in_or_app; right; apply in_or_app; left; now left.
Qed.

End StoreClaims.

(* ================================================================== *)
(** * The cursors and the read surface *)

Section CursorClaims.

Context {W : Type} `{Ethers} `{Constants} (options : Options.t W).

(** Across poll cycles both cursors are monotonic: over any number of calls
    of [main], each returning or throwing, for any heads the providers
    report, neither cursor is ever lower than before.  The historical pass
    of [init] is different: when it completes, each cursor is the head its
    provider reported at the start of the pass, whatever the configured
    start block was. *)
Theorem cursors_monotonic_across_cycles (s : Sigma W) :
  (forall n, cursorsAdvance s (loop options n s))
  /\ cursorsAdvance s (fst (main options s))
  /\ (snd (init options s) = Ok tt ->
      exists w1 w2 latestL1 latestL2,
        Provider.getBlockNumber (Options.l1RpcProvider options) (world s)
        = (w1, Ok latestL1)
        /\ Provider.getBlockNumber (Options.l2RpcProvider options) w1
           = (w2, Ok latestL2)
        /\ State.lastScannedL1Block (state (fst (init options s))) = latestL1
        /\ State.lastScannedL2Block (state (fst (init options s))) = latestL2).
Proof.
  split; [intros n; apply loop_advances|].
  split; [apply main_advances|].
  apply init_cursors.
Qed.

(** A read that throws leaves both cursors where they were, and no step of
    a cycle changes the [nodeConnectionFailures] gauge. *)
Lemma read_failure_effects (s : Sigma W) :
  (isOk (snd (indexNewMessages options s)) = false ->
   keeps cursorsView s (fst (indexNewMessages options s)))
  /\ (isOk (snd (checkRelayedMessages options s)) = false ->
      keeps cursorsView s (fst (checkRelayedMessages options s)))
  /\ keeps failuresView s (fst (indexNewMessages options s))
  /\ keeps failuresView s (fst (checkRelayedMessages options s))
  /\ keeps failuresView s (fst (main options s)).
Proof.
  split; [apply indexNewMessages_cursors|].
  split; [apply checkRelayedMessages_cursors|].
  split; [apply indexNewMessages_keeps_failures|].
  split; [apply checkRelayedMessages_keeps_failures|].
  apply main_keeps_failures.
Qed.

(** C6.  On a transient read failure the affected cursor is unchanged and
    a failure counter is incremented.  When [indexNewMessages] throws --
    while fetching the block height, while scanning the logs, or later --
    the cycle ends there, the L1 cursor has the value it had, so that the
    next cycle scans from the same block, and the orchestrator has logged
    the error and counted one more failure.  When [indexNewMessages]
    returns and [checkRelayedMessages] throws, the same holds of the L2
    cursor.  A cycle that completes counts nothing.  The cursors are those
    of the service; the counter and the log are the orchestrator's, as the
    spec describes them. *)
Theorem read_failure_keeps_cursor_and_counts (o : Orchestrator.t W) :
  (forall s1 e,
      indexNewMessages options (Orchestrator.service o) = (s1, Throw e) ->
      Orchestrator.service (cycle options o) = s1
      /\ State.lastScannedL1Block (state (Orchestrator.service (cycle options o)))
         = State.lastScannedL1Block (state (Orchestrator.service o))
      /\ Orchestrator.failureCounter (cycle options o)
         = Orchestrator.failureCounter o + 1
      /\ Orchestrator.errorLog (cycle options o)
         = Orchestrator.errorLog o ++ [e])
  /\ (forall s1 s2 e,
         indexNewMessages options (Orchestrator.service o) = (s1, Ok tt) ->
         checkRelayedMessages options s1 = (s2, Throw e) ->
         Orchestrator.service (cycle options o) = s2
         /\ State.lastScannedL2Block
              (state (Orchestrator.service (cycle options o)))
            = State.lastScannedL2Block (state (Orchestrator.service o))
         /\ Orchestrator.failureCounter (cycle options o)
            = Orchestrator.failureCounter o + 1
         /\ Orchestrator.errorLog (cycle options o)
            = Orchestrator.errorLog o ++ [e])
  /\ (snd (main options (Orchestrator.service o)) = Ok tt ->
      Orchestrator.failureCounter (cycle options o)
      = Orchestrator.failureCounter o
      /\ Orchestrator.errorLog (cycle options o) = Orchestrator.errorLog o).
Proof.
  split; [|split].
  - intros s1 e Hidx.
    pose proof (proj2 (indexNewMessages_cursors options
                         (Orchestrator.service o))) as Hkeep.
    unfold cycle, main. rewrite bind_run, Hidx in *. cbn [fst snd isOk] in *.
    specialize (Hkeep eq_refl). unfold keeps, cursorsView in Hkeep.
    injection Hkeep as H1 _. auto.
  - intros s1 s2 e Hidx Hchk.
    pose proof (indexNewMessages_keeps_L2 options (Orchestrator.service o))
      as Hl2.
    pose proof (proj2 (checkRelayedMessages_cursors options s1)) as Hkeep.
    unfold cycle, main. rewrite bind_run, Hidx in *. cbn [fst] in *.
    rewrite bind_run, Hchk in *. cbn [fst snd isOk] in *.
    specialize (Hkeep eq_refl). unfold keeps, cursorsView in Hkeep, Hl2.
    injection Hkeep as _ H2. cbn. repeat split. congruence.
  - intros Hok. unfold cycle.
    destruct (main options (Orchestrator.service o)) as [s' [[]|e]];
      [auto|discriminate].
Qed.

(** Both routes answer 200 and leave everything as it is; [/healthz]
    reports the size of the queue. *)
Lemma routes_read_only (s : Sigma W) :
  healthz s
  = (s, Ok (200, {| HealthzBody.ok := true;
                    HealthzBody.synced := true;
                    HealthzBody.pendingMessages :=
                      Map_size (State.messageQueue (state s)) |}))
  /\ messages s = (s, Ok (200, Map_values (State.messageQueue (state s)))).
Proof. split; reflexivity. Qed.

(** The reported number is the pending count only while nothing has been
    relayed. *)
Lemma pendingCount_le_size (q : JsMap Message.t) :
  0 <= pendingCount q <= Map_size q.
Proof.
  unfold pendingCount, Map_size, Map_values.
  assert (Hgen : forall l acc,
             acc <= fold_left
                      (fun count message =>
                         if negb (Message.isRelayed message)
                         then count + 1 else count) l acc
                    <= acc + Z.of_nat (List.length l)).
  { induction l as [|m l IH]; intros acc; cbn [fold_left List.length].
    - lia.
    - destruct (negb (Message.isRelayed m));
        [specialize (IH (acc + 1))|specialize (IH acc)]; lia. }
  specialize (Hgen (map snd q) 0). rewrite length_map in Hgen. lia.
Qed.

End CursorClaims.

(* ================================================================== *)
(** * Scanning the source chain *)

Section ScanClaims.

Context {W : Type} `{Ethers} (options : Options.t W).

(** C4 (amended).  Pairing integrity holds for the extension event the code
    pairs a primary event with, which is the first one of the scanned range
    with the same transaction hash: if for some primary event that
    extension event names a sender that differs from the primary's, letter
    case aside, then the pairing raises an error, [getSentMessageEvents]
    returns no record for any event of the batch and touches neither state
    nor gauges, and [indexNewMessages] throws with the queue, the cursors
    and the gauges as they were. *)
Theorem getSentMessageEvents_sender_mismatch
    (sent : list SentMessageEvent.t)
    (extensionEvents : list SentMessageExtension1Event.t)
    (event : SentMessageEvent.t) (ext : SentMessageExtension1Event.t) :
  In event sent ->
  findExtension extensionEvents event = Some ext ->
  toLowerCase (SentMessageExtension1Event.sender ext)
  <> toLowerCase (SentMessageEvent.sender event) ->
  (exists err, pairSentMessages sent extensionEvents = Throw err)
  /\ (forall (provider : Provider.t W) fromBlock toBlock (s : Sigma W) w1 w2,
         Provider.querySentMessage provider fromBlock toBlock (world s)
         = (w1, Ok sent) ->
         Provider.querySentMessageExtension1 provider fromBlock toBlock w1
         = (w2, Ok extensionEvents) ->
         (exists err,
             snd (getSentMessageEvents provider fromBlock toBlock s)
             = Throw err)
         /\ state (fst (getSentMessageEvents provider fromBlock toBlock s))
            = state s
         /\ metrics (fst (getSentMessageEvents provider fromBlock toBlock s))
            = metrics s)
  /\ (forall (s : Sigma W) latest w0 w1 w2,
         Provider.getBlockNumber (Options.l1RpcProvider options) (world s)
         = (w0, Ok latest) ->
         State.lastScannedL1Block (state s) < latest ->
         Provider.querySentMessage (Options.l1RpcProvider options)
           (State.lastScannedL1Block (state s) + 1) latest w0
         = (w1, Ok sent) ->
         Provider.querySentMessageExtension1 (Options.l1RpcProvider options)
           (State.lastScannedL1Block (state s) + 1) latest w1
         = (w2, Ok extensionEvents) ->
         (exists err, snd (indexNewMessages options s) = Throw err)
         /\ state (fst (indexNewMessages options s)) = state s
         /\ metrics (fst (indexNewMessages options s)) = metrics s).
Proof.
  intros Hin Hfind Hdiff.
  assert (Hthrow : exists err, pairSentMessages sent extensionEvents = Throw err)
    by (now apply pairSentMessages_mismatch with event ext).
  split; [exact Hthrow|]. destruct Hthrow as [err Herr]. split.
  - intros provider fromBlock toBlock s w1 w2 H1 H2.
    rewrite (getSentMessageEvents_run provider fromBlock toBlock s w1 w2
               sent extensionEvents H1 H2).
    cbn. rewrite Herr. split; [now exists err|auto].
  - intros s latest w0 w1 w2 Hhead Hlt H1 H2.
    destruct (indexNewMessages_scan_throws options s latest w0 w1 w2
                sent extensionEvents err Hhead Hlt H1 H2 Herr)
      as (Hr & Hs & Hm).
    split; [now exists err|auto].
Qed.

(** C9.  A primary event without an extension event of the same
    transaction gets value zero: whenever the pairing returns, the record
    it holds for that event has [value = 0], and its [messageHash] is the
    identity hash computed with value zero from the fields of the event;
    the record the service stores for it has value zero and status
    Pending.  And the pairing does return when every event of the batch is
    well formed and agrees with its extension event, if any, on the
    sender. *)
Theorem getSentMessageEvents_defaults_value_to_zero
    (sent : list SentMessageEvent.t)
    (extensionEvents : list SentMessageExtension1Event.t)
    (event : SentMessageEvent.t) :
  In event sent ->
  (forall ext, In ext extensionEvents ->
     SentMessageExtension1Event.transactionHash ext
     <> SentMessageEvent.transactionHash event) ->
  (forall msgs,
      pairSentMessages sent extensionEvents = Ok msgs ->
      exists msg,
        In msg msgs
        /\ sentMessageOf extensionEvents event = Ok msg
        /\ SentMessage.transactionHash msg
           = SentMessageEvent.transactionHash event
        /\ SentMessage.value msg = 0
        /\ hashCrossDomainMessageV1
             (ArgBigNumber (SentMessageEvent.messageNonce event))
             (SentMessageEvent.sender event) (SentMessageEvent.target event)
             0
             (ArgBigNumber (SentMessageEvent.gasLimit event))
             (SentMessageEvent.message event)
           = Ok (SentMessage.messageHash msg)
        /\ forall timestamp,
             Message.value (Message.fresh msg timestamp) = 0
             /\ Message.isRelayed (Message.fresh msg timestamp) = false)
  /\ ((forall e, In e sent ->
         wellFormedEvent e
         /\ senderMismatch (findExtension extensionEvents e) e = false
         /\ 0 <= extensionValue (findExtension extensionEvents e) < 2 ^ 256) ->
      exists msgs, pairSentMessages sent extensionEvents = Ok msgs)
  /\ (forall (provider : Provider.t W) fromBlock toBlock (s : Sigma W) w1 w2,
         Provider.querySentMessage provider fromBlock toBlock (world s)
         = (w1, Ok sent) ->
         Provider.querySentMessageExtension1 provider fromBlock toBlock w1
         = (w2, Ok extensionEvents) ->
         snd (getSentMessageEvents provider fromBlock toBlock s)
         = pairSentMessages sent extensionEvents).
Proof.
  intros Hin Hnone. apply findExtension_None in Hnone.
  split; [|split];
    [| |intros provider fromBlock toBlock s w1 w2 H1 H2;
        now rewrite (getSentMessageEvents_run provider fromBlock toBlock s
                       w1 w2 sent extensionEvents H1 H2)].
  - intros msgs Hpair. apply mapResult_Ok in Hpair.
    destruct (Forall2_In_l _ _ _ _ Hpair Hin) as (msg & Hmsg & Hcall).
    exists msg. split; [assumption|]. split; [assumption|].
    destruct (sentMessageOf_Ok extensionEvents event msg Hcall)
      as (_ & Hvalue & Htx & _ & Hhash).
    rewrite Hnone in Hvalue. cbn in Hvalue. rewrite Hvalue in Hhash.
    repeat split; assumption.
  - intros Hall. apply mapResult_all_Ok. intros e He.
    destruct (Hall e He) as (Hwf & Hmatch & Hvalue).
    now apply sentMessageOf_wellFormed.
Qed.

End ScanClaims.

(* ================================================================== *)
(** * Identity and versioned nonce *)

Section IdentityClaims.

Context {W : Type} `{Ethers} `{Constants}.

(** C8 (amended).  On every valid argument list -- nonce, value and gas
    limit in the range of [uint256], sender and target accepted as
    addresses, payload a well-formed byte string -- the identity function
    raises nothing and returns the Keccak-256 digest of the
    [encodeCrossDomainMessageV1] encoding of the six fields; and it reads
    its arguments only through their values, so argument lists that denote
    the same six values (equal ones in particular) get the same digest. *)
Theorem hashCrossDomainMessageV1_deterministic
    nonce sender target value gasLimit data :
  validUint256 nonce -> validAddress sender -> validAddress target ->
  0 <= value < 2 ^ 256 -> validUint256 gasLimit -> validBytes data ->
  (exists encoded,
      encodeCrossDomainMessageV1 nonce sender target value gasLimit data
      = Ok encoded
      /\ hashCrossDomainMessageV1 nonce sender target value gasLimit data
         = Ok (hexlify (keccak256 encoded)))
  /\ (forall nonce' sender' target' gasLimit' data',
        BigNumber_from nonce' = BigNumber_from nonce ->
        getAddress sender' = getAddress sender ->
        getAddress target' = getAddress target ->
        BigNumber_from gasLimit' = BigNumber_from gasLimit ->
        arrayify data' = arrayify data ->
        hashCrossDomainMessageV1 nonce' sender' target' value gasLimit' data'
        = hashCrossDomainMessageV1 nonce sender target value gasLimit data).
Proof.
  intros Hn Hs Ht Hv Hg Hd. split.
  - destruct (encodeCrossDomainMessageV1_valid
                nonce sender target value gasLimit data Hn Hs Ht Hv Hg Hd)
      as [encoded Henc].
    exists encoded. split; [assumption|].
    unfold hashCrossDomainMessageV1. now rewrite Henc.
  - intros nonce' sender' target' gasLimit' data' En Es Et Eg Ed.
    unfold hashCrossDomainMessageV1.
    now rewrite (encodeCrossDomainMessageV1_values
                   nonce sender target value gasLimit data
                   nonce' sender' target' gasLimit' data' En Es Et Eg Ed).
Qed.

(** C10 (amended).  [relayL1Message] re-applies the version tag whenever
    it submits.  A call that returned has sent the [relayMessage] call with
    the nonce [(1 << 240) | n], where [n] is the number its nonce argument
    denotes, and [0 <= n < 2 ^ 256].  Conversely, for every nonce argument
    that denotes such an [n], once the other arguments are accepted and the
    balance step, if any, was answered, the transaction with that nonce is
    what goes to the provider, and the provider's answer decides the
    outcome.  A nonce argument that denotes no number, a negative number,
    or a number of [2 ^ 256] or more is refused, and then no transaction
    goes out.  The service passes the decimal string of the nonce of the
    indexed event, which reads back as that nonce, while the identity hash
    was computed from the event nonce itself.  So for an event nonce of
    version 1 the submitted nonce is the indexed and hashed one, and for an
    event nonce of version 0 the submitted nonce is the indexed one plus
    [2 ^ 240]: a different number, of version 1. *)
Theorem relayL1Message_reapplies_version :
  (forall (provider : Provider.t W) l1Sender target message arg value
          minGasLimit (s s' : Sigma W) receipt,
      relayL1Message provider l1Sender target message arg value minGasLimit s
      = (s', Ok receipt) ->
      exists n w w' txHash,
        BigNumber_from arg = Ok n /\ 0 <= n < 2 ^ 256
        /\ Provider.send provider
             (eth_sendTransaction L1_MESSENGER_ADDRESS_ALIAS
                L2_CROSS_DOMAIN_MESSENGER_ADDRESS
                (if BigNumber_isZero value then None else Some value)
                (relayMessage (Z.lor (Z.shiftl 1 240) n) l1Sender target value
                   minGasLimit message))
             w
           = (w', Ok txHash)
        /\ Provider.getTransactionReceipt provider txHash w'
           = (world s', Ok (Some receipt)))
  /\ (forall (provider : Provider.t W) l1Sender target message arg
             (value : BigNumber) minGasLimit (s : Sigma W) n w lines,
         BigNumber_from arg = Ok n -> 0 <= n < 2 ^ 256 ->
         validAddress l1Sender -> validAddress target ->
         0 <= value < 2 ^ 256 -> 0 <= minGasLimit < 2 ^ 53 - 1 ->
         validBytes message ->
         balanceStepAnswered provider value (world s) w lines ->
         (forall w2 e,
             Provider.send provider
               (eth_sendTransaction L1_MESSENGER_ADDRESS_ALIAS
                  L2_CROSS_DOMAIN_MESSENGER_ADDRESS
                  (if BigNumber_isZero value then None else Some value)
                  (relayMessage (Z.lor (Z.shiftl 1 240) n) l1Sender target
                     value minGasLimit message))
               w
             = (w2, Throw e) ->
             relayL1Message provider l1Sender target message arg value
               minGasLimit s
             = ({| world := w2; state := state s; metrics := metrics s;
                   console := console s ++ lines ++ [ErrorRelaying e] |},
                Throw e))
         /\ (forall w2 txHash w3 receipt,
                Provider.send provider
                  (eth_sendTransaction L1_MESSENGER_ADDRESS_ALIAS
                     L2_CROSS_DOMAIN_MESSENGER_ADDRESS
                     (if BigNumber_isZero value then None else Some value)
                     (relayMessage (Z.lor (Z.shiftl 1 240) n) l1Sender target
                        value minGasLimit message))
                  w
                = (w2, Ok txHash) ->
                Provider.getTransactionReceipt provider txHash w2
                = (w3, Ok (Some receipt)) ->
                relayL1Message provider l1Sender target message arg value
                  minGasLimit s
                = ({| world := w3; state := state s; metrics := metrics s;
                      console :=
                        console s ++ lines
                        ++ [RelayTransactionSent txHash;
                            TransactionConfirmed
                              (Receipt.blockNumber receipt)] |},
                   Ok receipt)))
  /\ (forall (provider : Provider.t W) l1Sender target message arg value
             minGasLimit (s : Sigma W),
         (forall e,
             BigNumber_from arg = Throw e ->
             relayL1Message provider l1Sender target message arg value
               minGasLimit s
             = (s, Throw e))
         /\ (forall n,
                BigNumber_from arg = Ok n -> n < 0 ->
                relayL1Message provider l1Sender target message arg value
                  minGasLimit s
                = (s, Throw (NumericFault "unbound-bitwise-result")))
         /\ (forall n w lines,
                BigNumber_from arg = Ok n -> 2 ^ 256 <= n ->
                balanceStepAnswered provider value (world s) w lines ->
                exists e,
                  relayL1Message provider l1Sender target message arg value
                    minGasLimit s
                  = ({| world := w; state := state s; metrics := metrics s;
                        console := console s ++ lines ++ [ErrorRelaying e] |},
                     Throw e)))
  /\ (forall extensionEvents event msg,
         sentMessageOf extensionEvents event = Ok msg ->
         SentMessage.messageNonce msg
         = BigNumber_toString (SentMessageEvent.messageNonce event)
         /\ hashCrossDomainMessageV1
              (ArgBigNumber (SentMessageEvent.messageNonce event))
              (SentMessageEvent.sender event) (SentMessageEvent.target event)
              (SentMessage.value msg)
              (ArgBigNumber (SentMessageEvent.gasLimit event))
              (SentMessageEvent.message event)
            = Ok (SentMessage.messageHash msg))
  /\ (forall n,
         0 <= n ->
         versionedNonce (ArgString (BigNumber_toString n))
         = Ok (Z.lor (Z.shiftl 1 240) n)
         /\ (nonceVersion n = 1 -> Z.lor (Z.shiftl 1 240) n = n)
         /\ (nonceVersion n = 0 ->
             Z.lor (Z.shiftl 1 240) n = n + 2 ^ 240
             /\ Z.lor (Z.shiftl 1 240) n <> n
             /\ nonceVersion (Z.lor (Z.shiftl 1 240) n) = 1)).
Proof.
  split.
  { intros provider l1Sender target message arg value minGasLimit s s' receipt.
    rewrite relayL1Message_run.
    destruct (versionedNonce arg) as [submitted|e] eqn:Hv; [|discriminate].
    apply versionedNonce_Ok in Hv as (n & Harg & Hn & -> & Hle).
    rewrite submitRelay_run. cbv zeta.
    assert (Hsent : forall (s1 : Sigma W) tx,
               relayTransaction (Z.lor (Z.shiftl 1 240) n) l1Sender target
                 value minGasLimit message = Ok tx ->
               match Provider.send provider
                       (eth_sendTransaction L1_MESSENGER_ADDRESS_ALIAS
                          (PopulatedTransaction.to tx)
                          (PopulatedTransaction.value tx)
                          (PopulatedTransaction.data tx))
                       (world s1) with
               | (w2, Throw e) =>
                   ({| world := w2; state := state s1; metrics := metrics s1;
                       console := console s1 ++ [ErrorRelaying e] |}, Throw e)
               | (w2, Ok txHash) =>
                   match Provider.getTransactionReceipt provider txHash w2 with
                   | (w3, Throw e) =>
                       ({| world := w3; state := state s1;
                           metrics := metrics s1;
                           console :=
                             (console s1 ++ [RelayTransactionSent txHash])
                             ++ [ErrorRelaying e] |}, Throw e)
                   | (w3, Ok None) =>
                       ({| world := w3; state := state s1;
                           metrics := metrics s1;
                           console :=
                             (console s1 ++ [RelayTransactionSent txHash])
                             ++ [ErrorRelaying
                                   (TypeError "receipt.blockNumber")] |},
                        Throw (TypeError "receipt.blockNumber"))
                   | (w3, Ok (Some r)) =>
                       ({| world := w3; state := state s1;
                           metrics := metrics s1;
                           console :=
                             (console s1 ++ [RelayTransactionSent txHash])
                             ++ [TransactionConfirmed (Receipt.blockNumber r)] |},
                        Ok r)
                   end
               end = (s', Ok receipt) ->
               exists n0 w w' txHash,
                 BigNumber_from arg = Ok n0 /\ 0 <= n0 < 2 ^ 256
                 /\ Provider.send provider
                      (eth_sendTransaction L1_MESSENGER_ADDRESS_ALIAS
                         L2_CROSS_DOMAIN_MESSENGER_ADDRESS
                         (if BigNumber_isZero value then None else Some value)
                         (relayMessage (Z.lor (Z.shiftl 1 240) n0) l1Sender
                            target value minGasLimit message))
                      w
                    = (w', Ok txHash)
                 /\ Provider.getTransactionReceipt provider txHash w'
                    = (world s', Ok (Some receipt))).
    { intros s1 tx Htx.
      pose proof (relayTransaction_accepted _ _ _ _ _ _ _ Htx) as (Hr & _).
      apply relayTransaction_Ok in Htx as [-> _].
      cbn [PopulatedTransaction.to PopulatedTransaction.value
           PopulatedTransaction.data].
      destruct (Provider.send provider _ (world s1)) as [w2 [txHash|e]]
        eqn:Hsend; [|discriminate].
      destruct (Provider.getTransactionReceipt provider txHash w2)
        as [w3 [[r|]|e]] eqn:Hrec; try discriminate.
      intros [= <- <-]. exists n, (world s1), w2, txHash. cbn [world].
      repeat split; try assumption; lia. }
    destruct (BigNumber_isZero value).
    - destruct (relayTransaction _ _ _ _ _ _) as [tx|e] eqn:Htx;
        [|discriminate].
      specialize (Hsent s tx eq_refl).
      destruct (Provider.send provider _ (world s)) as [w2 [txHash|e]];
        [|discriminate].
      destruct (Provider.getTransactionReceipt provider txHash w2)
        as [w3 [[r|]|e]]; try discriminate; exact Hsent.
    - destruct (Provider.send provider (tenderly_setBalance _ _) (world s))
        as [w [answer|e]]; [|discriminate].
      destruct (relayTransaction _ _ _ _ _ _) as [tx|e] eqn:Htx;
        [|discriminate].
      match goal with
      | |- context [Provider.send provider _ (world ?s1)] =>
          specialize (Hsent s1 tx eq_refl)
      end.
      cbn [world state metrics console] in *.
      destruct (Provider.send provider _ w) as [w2 [txHash|e]];
        [|discriminate].
      destruct (Provider.getTransactionReceipt provider txHash w2)
        as [w3 [[r|]|e]]; try discriminate; exact Hsent. }
  split.
  { intros provider l1Sender target message arg value minGasLimit s n w lines
      Harg Hn Hs Ht Hval Hg Hd Hfund.
    pose proof (versionedNonce_of_value arg n Harg (proj1 Hn)) as Hv.
    assert (Hsub : 0 <= Z.lor (Z.shiftl 1 240) n < 2 ^ 256).
    { rewrite shiftl_1_240. split.
      - apply Z.lor_nonneg. lia.
      - now apply lor_version_uint256. }
    pose proof (relayTransaction_valid _ l1Sender target value minGasLimit
                  message Hsub Hs Ht Hval Hg Hd) as Htx.
    pose proof (relayL1Message_submits provider l1Sender target message arg
                  value minGasLimit s _ _ w lines Hv Htx Hfund) as Hrun.
    split.
    - intros w2 e Hsend. now rewrite Hrun, Hsend.
    - intros w2 txHash w3 receipt Hsend Hrec. now rewrite Hrun, Hsend, Hrec. }
  split.
  { intros provider l1Sender target message arg value minGasLimit s.
    split; [|split].
    - intros e Harg. rewrite relayL1Message_run.
      unfold versionedNonce. now rewrite Harg.
    - intros n Harg Hneg. rewrite relayL1Message_run.
      now rewrite (versionedNonce_negative arg n Harg Hneg).
    - intros n w lines Harg Hwide Hfund.
      assert (Hn : 0 <= n) by (pose proof (Z.pow_pos_nonneg 2 256); lia).
      pose proof (versionedNonce_of_value arg n Harg Hn) as Hv.
      destruct (relayTransaction (Z.lor (Z.shiftl 1 240) n) l1Sender target
                  value minGasLimit message) as [tx|e] eqn:Htx.
      + apply relayTransaction_accepted in Htx as (Hr & _).
        rewrite shiftl_1_240 in Hr.
        pose proof (lor_version_ge n Hn). lia.
      + exists e.
        exact (relayL1Message_refuses provider l1Sender target message arg
                 value minGasLimit s _ e w lines Hv Htx Hfund). }
  split.
  { intros extensionEvents event msg Hcall.
    destruct (sentMessageOf_Ok extensionEvents event msg Hcall)
      as (_ & _ & _ & Hnonce & Hhash).
    auto. }
  intros n Hn. split.
  { unfold versionedNonce. cbn [BigNumber_from].
    rewrite BigNumber_toString_fromString. cbn [rbind].
    unfold BigNumber_or, BigNumber_shl.
    rewrite shiftl_1_240_sign. cbn [orb].
    destruct (Z.ltb_spec n 0); [lia|reflexivity]. }
  split; [now apply lor_version_set|].
  intros Hv. unfold nonceVersion in *.
  pose proof (version_clear_bound n Hn Hv) as Hlt.
  rewrite (lor_version_clear n Hn Hv).
  split; [reflexivity|]. split; [lia|].
  apply version_after_add. lia.
Qed.

End IdentityClaims.

(* ================================================================== *)
(** * The claims on the scripted chains *)

(** Closes a range or validity goal on literals. *)
Ltac by_computation := vm_compute; repeat split; try discriminate.

(** ** C1 *)

(** C1, as stated, fails: the first message is stored and Relayed; the
    next cycle scans blocks 101 to 110, meets its send event again, and the
    stored record is Pending afterwards. *)
Lemma reindexing_resets_relayed_status :
  Map_get (State.messageQueue (state relayedStore)) (hashOfEvent event105 0)
  = Some (storedMessage event105 true)
  /\ snd (@indexNewMessages Script.t scriptedEthers demoOptions relayedStore)
     = Ok tt
  /\ Map_get
       (State.messageQueue
          (state (fst (@indexNewMessages Script.t scriptedEthers demoOptions
                         relayedStore))))
       (hashOfEvent event105 0)
     = Some (storedMessage event105 false)
  /\ Message.isRelayed (storedMessage event105 false) = false.
Proof. vm_compute. repeat split. Qed.

Lemma addToQueue_overwrites_present_hash_witness :
  Map_get (State.messageQueue (state relayedStore))
    (SentMessage.messageHash (indexedMessage event105))
  = Some (storedMessage event105 true)
  /\ (snd (@addToQueue Script.t demoOptions (indexedMessage event105)
             relayedStore) = Ok tt ->
      exists timestamp,
        Map_get
          (State.messageQueue
             (state (fst (@addToQueue Script.t demoOptions
                            (indexedMessage event105) relayedStore))))
          (SentMessage.messageHash (indexedMessage event105))
        = Some (Message.fresh (indexedMessage event105) timestamp)).
Proof.
  assert (Hold : Map_get (State.messageQueue (state relayedStore))
                   (SentMessage.messageHash (indexedMessage event105))
                 = Some (storedMessage event105 true))
    by (vm_compute; reflexivity).
  split; [exact Hold|].
  intros Hok.
  destruct (proj2 (@addToQueue_overwrites_present_hash Script.t demoOptions
                     (indexedMessage event105) relayedStore
                     (storedMessage event105 true) Hold) Hok)
    as (timestamp & _ & Hget & _).
  exists timestamp. exact Hget.
Defined.

(** ** C2 *)

(** C2: the cursors are to be monotonic from [init] on, for any configured
    start block and any head.  With start block 100 and an L1 head at 50,
    [init] sets the L1 cursor to 100 and its historical pass then takes it
    down to 50, below the configured start block. *)
Theorem historical_pass_lowers_cursor :
  Options.l1StartBlock demoOptions = 100
  /\ State.lastScannedL1Block (state (startAt chain50 [] 100 0)) = 100
  /\ State.lastScannedL1Block
       (state (fst (@indexHistoricalMessages Script.t scriptedEthers
                      demoOptions (startAt chain50 [] 100 0))))
     = 50
  /\ State.lastScannedL1Block
       (state (fst (@init Script.t scriptedEthers demoOptions
                      (startAt chain50 [] 0 0))))
     < Options.l1StartBlock demoOptions.
Proof. vm_compute. repeat split. Qed.

(** On a chain whose heads are past the start blocks, [init] completes and
    leaves the cursors at the heads. *)
Example init_reaches_the_heads :
  snd (@init Script.t scriptedEthers demoOptions (startAt chain110 [] 0 0))
  = Ok tt
  /\ exists w1 w2 latestL1 latestL2,
       Provider.getBlockNumber (Options.l1RpcProvider demoOptions)
         (world (startAt chain110 [] 0 0))
       = (w1, Ok latestL1)
       /\ Provider.getBlockNumber (Options.l2RpcProvider demoOptions) w1
          = (w2, Ok latestL2)
       /\ State.lastScannedL1Block
            (state (fst (@init Script.t scriptedEthers demoOptions
                           (startAt chain110 [] 0 0))))
          = latestL1
       /\ State.lastScannedL2Block
            (state (fst (@init Script.t scriptedEthers demoOptions
                           (startAt chain110 [] 0 0))))
          = latestL2.
Proof.
  assert (Hok : snd (@init Script.t scriptedEthers demoOptions
                       (startAt chain110 [] 0 0)) = Ok tt)
    by (vm_compute; reflexivity).
  split; [exact Hok|].
  exact (proj2 (proj2 (@cursors_monotonic_across_cycles Script.t
                         scriptedEthers optimismConstants demoOptions
                         (startAt chain110 [] 0 0))) Hok).
Qed.

(** ** C3 *)

(** C3: with one stored message, already relayed, [/healthz] answers 200
    and leaves everything as it is, but the [pendingMessages] it reports is
    1, the size of the queue, while no message is pending and
    [updateMetrics] sets the gauge of the same name to 0. *)
Theorem healthz_reports_queue_size :
  healthz relayedStore
  = (relayedStore,
     Ok (200, {| HealthzBody.ok := true;
                 HealthzBody.synced := true;
                 HealthzBody.pendingMessages := 1 |}))
  /\ pendingCount (State.messageQueue (state relayedStore)) = 0
  /\ Metrics.pendingMessages (metrics (fst (updateMetrics relayedStore))) = 0
  /\ messages relayedStore
     = (relayedStore, Ok (200, [storedMessage event105 true])).
Proof. vm_compute. repeat split. Qed.

(** ** C4 *)

(** C4, as stated, fails: the transaction of the send event has an
    extension event from another sender, but it is the second extension
    event of that transaction; the first agrees with the send event, is the
    one paired with it, and the scan returns a record. *)
Lemma later_extension_mismatch_goes_undetected :
  In event105 [event105]
  /\ In (extensionOf addrC 7 105 "0x0105") twoExtensions
  /\ SentMessageExtension1Event.transactionHash
       (extensionOf addrC 7 105 "0x0105")
     = SentMessageEvent.transactionHash event105
  /\ toLowerCase
       (SentMessageExtension1Event.sender (extensionOf addrC 7 105 "0x0105"))
     <> toLowerCase (SentMessageEvent.sender event105)
  /\ isOk (@pairSentMessages scriptedEthers [event105] twoExtensions) = true
  /\ isOk (snd (@getSentMessageEvents Script.t scriptedEthers
                  (Options.l1RpcProvider demoOptions) 101 110
                  (startAt chainTwoExtensions [] 100 60)))
     = true.
Proof.
  split; [now left|]. split; [right; now left|].
  vm_compute. repeat split. discriminate.
Qed.

Lemma getSentMessageEvents_sender_mismatch_witness :
  In event105 [event105]
  /\ findExtension foreignExtension event105
     = Some (extensionOf addrC 7 105 "0x0105")
  /\ toLowerCase
       (SentMessageExtension1Event.sender (extensionOf addrC 7 105 "0x0105"))
     <> toLowerCase (SentMessageEvent.sender event105)
  /\ exists err,
       @pairSentMessages scriptedEthers [event105] foreignExtension
       = Throw err.
Proof.
  assert (Hin : In event105 [event105]) by (now left).
  assert (Hfind : findExtension foreignExtension event105
                  = Some (extensionOf addrC 7 105 "0x0105"))
    by reflexivity.
  assert (Hdiff : toLowerCase
                    (SentMessageExtension1Event.sender
                       (extensionOf addrC 7 105 "0x0105"))
                  <> toLowerCase (SentMessageEvent.sender event105))
    by (vm_compute; discriminate).
  repeat split; try assumption.
  exact (proj1 (@getSentMessageEvents_sender_mismatch Script.t scriptedEthers
                  demoOptions [event105] foreignExtension event105
                  (extensionOf addrC 7 105 "0x0105") Hin Hfind Hdiff)).
Defined.

(** ** C5 *)

Lemma relayPendingMessages_isolates_failures_witness :
  NoDup (Map_keys (State.messageQueue (state twoPending)))
  /\ snd (relayCallFor (hashOfEvent event106 0) (storedMessage event106 false)
            twoPending)
     = Throw (ProviderError (-32000))
  /\ Map_get
       (State.messageQueue
          (state (fst (@relayPendingMessages Script.t scriptedEthers
                         optimismConstants demoOptions twoPending))))
       (hashOfEvent event106 0)
     = Some (storedMessage event106 false)
  /\ isOk (snd (relayCallFor (hashOfEvent event105 0)
                  (storedMessage event105 false)
                  (fst (forOf [(hashOfEvent event106 0,
                                storedMessage event106 false)]
                          (@relayOne Script.t scriptedEthers optimismConstants
                             demoOptions)
                          twoPending))))
     = true
  /\ Map_get
       (State.messageQueue
          (state (fst (@relayPendingMessages Script.t scriptedEthers
                         optimismConstants demoOptions twoPending))))
       (hashOfEvent event105 0)
     = Some (storedMessage event105 true).
Proof.
  assert (Hnd : NoDup (Map_keys (State.messageQueue (state twoPending)))).
  { vm_compute. constructor.
    - intros [Heq|[]]. discriminate Heq.
    - constructor; [intros []|constructor]. }
  assert (H106 : snd (relayCallFor (hashOfEvent event106 0)
                        (storedMessage event106 false) twoPending)
                 = Throw (ProviderError (-32000)))
    by (vm_compute; reflexivity).
  assert (H105 : exists receipt,
             snd (relayCallFor (hashOfEvent event105 0)
                    (storedMessage event105 false)
                    (fst (forOf [(hashOfEvent event106 0,
                                  storedMessage event106 false)]
                            (@relayOne Script.t scriptedEthers
                               optimismConstants demoOptions)
                            twoPending)))
             = Ok receipt)
    by (eexists; vm_compute; reflexivity).
  destruct (@relayPendingMessages_isolates_failures Script.t scriptedEthers
              optimismConstants demoOptions twoPending Hnd)
    as (_ & _ & lines & _ & _ & _ & Hout).
  split; [exact Hnd|]. split; [exact H106|].
  destruct (Hout [] (hashOfEvent event106 0) (storedMessage event106 false)
              [(hashOfEvent event105 0, storedMessage event105 false)]
              eq_refl eq_refl) as [_ Hfirst].
  specialize (Hfirst _ _ (surjective_pairing _)).
  unfold relayCallFor in H106. cbn [forOf fst ret] in Hfirst.
  rewrite H106 in Hfirst. destruct Hfirst as [Hkept _].
  split; [exact Hkept|].
  destruct (Hout [(hashOfEvent event106 0, storedMessage event106 false)]
              (hashOfEvent event105 0) (storedMessage event105 false) []
              eq_refl eq_refl) as [_ Hsecond].
  specialize (Hsecond _ _ (surjective_pairing _)).
  destruct H105 as [receipt H105]. unfold relayCallFor in H105.
  rewrite H105 in Hsecond. destruct Hsecond as [Hmarked _].
  split; [reflexivity|exact Hmarked].
Defined.

(** The pass on two pending messages of which the first cannot be relayed:
    the first stays Pending, the second becomes Relayed, both were
    attempted. *)
Example relay_pass_after_a_failure :
  snd (@relayPendingMessages Script.t scriptedEthers optimismConstants
         demoOptions twoPending)
  = Ok tt
  /\ State.messageQueue
       (state (fst (@relayPendingMessages Script.t scriptedEthers
                      optimismConstants demoOptions twoPending)))
     = [(hashOfEvent event106 0, storedMessage event106 false);
        (hashOfEvent event105 0, storedMessage event105 true)]
  /\ attempted
       (console (fst (@relayPendingMessages Script.t scriptedEthers
                        optimismConstants demoOptions twoPending)))
     = [hashOfEvent event106 0; hashOfEvent event105 0]
  /\ failed
       (console (fst (@relayPendingMessages Script.t scriptedEthers
                        optimismConstants demoOptions twoPending)))
     = [hashOfEvent event106 0].
Proof. vm_compute. repeat split. Qed.

(** ** C6 *)

Lemma read_failure_keeps_cursor_and_counts_witness :
  @indexNewMessages Script.t scriptedEthers demoOptions
    (startAt unreachableL1 [] 100 60)
  = (startAt unreachableL1 [] 100 60, Throw (ProviderError (-32603)))
  /\ State.lastScannedL1Block
       (state (Orchestrator.service
                 (@cycle Script.t scriptedEthers optimismConstants demoOptions
                    (orchestratorAt (startAt unreachableL1 [] 100 60)))))
     = 100
  /\ Orchestrator.failureCounter
       (@cycle Script.t scriptedEthers optimismConstants demoOptions
          (orchestratorAt (startAt unreachableL1 [] 100 60)))
     = 1.
Proof.
  assert (Hidx : @indexNewMessages Script.t scriptedEthers demoOptions
                   (startAt unreachableL1 [] 100 60)
                 = (startAt unreachableL1 [] 100 60,
                    Throw (ProviderError (-32603))))
    by (vm_compute; reflexivity).
  split; [exact Hidx|].
  destruct (proj1 (@read_failure_keeps_cursor_and_counts Script.t
                     scriptedEthers optimismConstants demoOptions
                     (orchestratorAt (startAt unreachableL1 [] 100 60)))
              _ _ Hidx)
    as (_ & Hcursor & Hcount & _).
  split; [exact Hcursor|exact Hcount].
Defined.

(** The service itself counts nothing: when the L1 head cannot be read,
    [indexNewMessages] throws and the L1 cursor stays at 100, and when the
    L2 head cannot be read, [checkRelayedMessages] throws and the L2 cursor
    stays at 60, while the gauge [nodeConnectionFailures] of the service is
    0 before and 0 after, also after the whole cycle. *)
Example read_failure_leaves_failure_gauge :
  snd (@indexNewMessages Script.t scriptedEthers demoOptions
         (startAt unreachableL1 [] 100 60))
  = Throw (ProviderError (-32603))
  /\ State.lastScannedL1Block
       (state (fst (@indexNewMessages Script.t scriptedEthers demoOptions
                      (startAt unreachableL1 [] 100 60))))
     = 100
  /\ Metrics.nodeConnectionFailures
       (metrics (fst (@indexNewMessages Script.t scriptedEthers demoOptions
                        (startAt unreachableL1 [] 100 60))))
     = 0
  /\ snd (@checkRelayedMessages Script.t demoOptions
            (startAt unreachableL2 [] 100 60))
     = Throw (ProviderError (-32603))
  /\ State.lastScannedL2Block
       (state (fst (@checkRelayedMessages Script.t demoOptions
                      (startAt unreachableL2 [] 100 60))))
     = 60
  /\ Metrics.nodeConnectionFailures
       (metrics (fst (@checkRelayedMessages Script.t demoOptions
                        (startAt unreachableL2 [] 100 60))))
     = 0
  /\ Metrics.nodeConnectionFailures
       (metrics (fst (@main Script.t scriptedEthers optimismConstants
                        demoOptions (startAt unreachableL1 [] 100 60))))
     = 0.
Proof. vm_compute. repeat split. Qed.

(** ** C7 *)

Lemma checkRelayedMessages_never_fabricates_witness :
  Map_get (State.messageQueue (state relayedStore)) "0xdead" = None
  /\ @confirmRelayed Script.t "0xdead" relayedStore = (relayedStore, Ok tt).
Proof.
  assert (Hnone : Map_get (State.messageQueue (state relayedStore)) "0xdead"
                  = None)
    by (vm_compute; reflexivity).
  split; [exact Hnone|].
  exact (proj1 (@checkRelayedMessages_never_fabricates Script.t demoOptions
                  relayedStore) "0xdead" Hnone).
Defined.

(** The confirmation scan of the end-to-end scenario: the first message is
    pending, L2 confirms it and also reports a hash that was never sent;
    the message becomes Relayed and no record appears for the other
    hash. *)
Example confirmation_scan_marks_known_hash_only :
  State.messageQueue
    (state (fst (@checkRelayedMessages Script.t demoOptions
                   (startAt chain110Confirmed
                      [(hashOfEvent event105 0, storedMessage event105 false)]
                      110 50))))
  = [(hashOfEvent event105 0, storedMessage event105 true)].
Proof. vm_compute. reflexivity. Qed.

(** ** C8 *)

(** C8, as stated, fails: a value of [2 ^ 256] is a [BigNumber] like any
    other, and the encoder refuses it; so it does a nonce string that is no
    number. *)
Lemma hashCrossDomainMessageV1_rejects_out_of_range :
  @hashCrossDomainMessageV1 scriptedEthers (ArgBigNumber 1) addrA addrB
    (2 ^ 256) (ArgBigNumber 200000) "0x1234"
  = Throw (InvalidArgument "value out-of-bounds")
  /\ @hashCrossDomainMessageV1 scriptedEthers (ArgString "one") addrA addrB
       0 (ArgBigNumber 200000) "0x1234"
     = Throw (InvalidArgument "invalid BigNumber string").
Proof. vm_compute. repeat split. Qed.

Lemma hashCrossDomainMessageV1_deterministic_witness :
  validUint256 (ArgBigNumber 1)
  /\ @validAddress scriptedEthers addrA
  /\ @validAddress scriptedEthers addrB
  /\ 0 <= 0 < 2 ^ 256
  /\ validUint256 (ArgBigNumber 200000)
  /\ validBytes "0x1234"
  /\ exists encoded,
       @encodeCrossDomainMessageV1 scriptedEthers (ArgBigNumber 1) addrA addrB
         0 (ArgBigNumber 200000) "0x1234"
       = Ok encoded
       /\ @hashCrossDomainMessageV1 scriptedEthers (ArgBigNumber 1) addrA
            addrB 0 (ArgBigNumber 200000) "0x1234"
          = Ok (hexlify (@keccak256 scriptedEthers encoded)).
Proof.
  assert (Hn : validUint256 (ArgBigNumber 1)) by by_computation.
  assert (Hs : @validAddress scriptedEthers addrA) by by_computation.
  assert (Ht : @validAddress scriptedEthers addrB) by by_computation.
  assert (Hv : 0 <= 0 < 2 ^ 256) by by_computation.
  assert (Hg : validUint256 (ArgBigNumber 200000)) by by_computation.
  assert (Hd : validBytes "0x1234") by by_computation.
  repeat (split; [assumption|]).
  exact (proj1 (@hashCrossDomainMessageV1_deterministic scriptedEthers
                  (ArgBigNumber 1) addrA addrB 0 (ArgBigNumber 200000)
                  "0x1234" Hn Hs Ht Hv Hg Hd)).
Defined.

(** The same message given with its nonce as a decimal string and its gas
    limit as a number has the same identity hash. *)
Example identity_hash_of_equal_values :
  @hashCrossDomainMessageV1 scriptedEthers (ArgString "1") addrA addrB 0
    (ArgNumber 200000) "0x1234"
  = @hashCrossDomainMessageV1 scriptedEthers (ArgBigNumber 1) addrA addrB 0
      (ArgBigNumber 200000) "0x1234".
Proof. vm_compute. reflexivity. Qed.

(** ** C9 *)

Lemma getSentMessageEvents_defaults_value_to_zero_witness :
  In event105 [event105; event106]
  /\ (forall ext, In ext [] ->
        SentMessageExtension1Event.transactionHash ext
        <> SentMessageEvent.transactionHash event105)
  /\ exists msgs,
       @pairSentMessages scriptedEthers [event105; event106] [] = Ok msgs.
Proof.
  assert (Hin : In event105 [event105; event106]) by (now left).
  assert (Hnone : forall ext, In ext [] ->
                    SentMessageExtension1Event.transactionHash ext
                    <> SentMessageEvent.transactionHash event105)
    by (intros ext []).
  split; [exact Hin|]. split; [exact Hnone|].
  apply (proj1 (proj2 (@getSentMessageEvents_defaults_value_to_zero Script.t
                         scriptedEthers [event105; event106] [] event105
                         Hin Hnone))).
  intros e [<-|[<-|[]]]; by_computation.
Defined.

(** The scan of the end-to-end scenario: one send event in block 105 and no
    extension event give one record, with value zero. *)
Example scan_without_extension :
  @pairSentMessages scriptedEthers [event105] []
  = Ok [indexedMessage event105]
  /\ SentMessage.value (indexedMessage event105) = 0.
Proof. vm_compute. repeat split. Qed.

(** ** C10 *)

(** C10, as stated, fails: for the nonce [2 ^ 256] the bitwise OR is
    computed, but no [relayMessage] call is issued with it.  The contract
    call refuses the nonce, and the node receives no request at all. *)
Lemma relayL1Message_submits_nothing_for_wide_nonce :
  versionedNonce (ArgBigNumber (2 ^ 256)) = Ok (2 ^ 256 + 2 ^ 240)
  /\ @relayL1Message (list RpcRequest) scriptedEthers optimismConstants
       recordingProvider addrA addrB "0x1234" (ArgBigNumber (2 ^ 256)) 0 200000
       recordingStart
     = ({| world := [];
           state := state recordingStart;
           metrics := metrics recordingStart;
           console := [ErrorRelaying (InvalidArgument "value out-of-bounds")] |},
        Throw (InvalidArgument "value out-of-bounds")).
Proof. vm_compute. split; reflexivity. Qed.

Lemma relayL1Message_reapplies_version_witness :
  BigNumber_from (ArgString "1") = Ok 1
  /\ 0 <= 1 < 2 ^ 256
  /\ @validAddress scriptedEthers addrA
  /\ @validAddress scriptedEthers addrB
  /\ 0 <= 200000 < 2 ^ 53 - 1
  /\ validBytes "0x1234"
  /\ @relayL1Message (list RpcRequest) scriptedEthers optimismConstants
       recordingProvider addrA addrB "0x1234" (ArgString "1") 0 200000
       recordingStart
     = ({| world :=
             [eth_sendTransaction
                (@L1_MESSENGER_ADDRESS_ALIAS optimismConstants)
                (@L2_CROSS_DOMAIN_MESSENGER_ADDRESS optimismConstants) None
                (relayMessage (Z.lor (Z.shiftl 1 240) 1) addrA addrB 0 200000
                   "0x1234")];
           state := state recordingStart;
           metrics := metrics recordingStart;
           console := [RelayTransactionSent "0x7e1a"; TransactionConfirmed 7] |},
        Ok relayReceipt).
Proof.
  assert (Harg : BigNumber_from (ArgString "1") = Ok 1) by reflexivity.
  assert (Hn : 0 <= 1 < 2 ^ 256) by by_computation.
  assert (Hs : @validAddress scriptedEthers addrA) by by_computation.
  assert (Ht : @validAddress scriptedEthers addrB) by by_computation.
  assert (Hv : 0 <= 0 < 2 ^ 256) by by_computation.
  assert (Hg : 0 <= 200000 < 2 ^ 53 - 1) by by_computation.
  assert (Hd : validBytes "0x1234") by by_computation.
  assert (Hfund : @balanceStepAnswered (list RpcRequest) optimismConstants
                    recordingProvider 0 (world recordingStart) [] [])
    by (split; reflexivity).
  repeat (split; [assumption|]).
  exact (proj2 (proj1 (proj2 (@relayL1Message_reapplies_version
                                 (list RpcRequest) scriptedEthers
                                 optimismConstants))
                  recordingProvider addrA addrB "0x1234" (ArgString "1") 0
                  200000 recordingStart 1 [] [] Harg Hn Hs Ht Hv Hg Hd Hfund)
           _ "0x7e1a" _ relayReceipt eq_refl eq_refl).
Defined.

(** The nonce of the end-to-end scenario, 1, is of version 0 and goes out
    as [2 ^ 240 + 1]; a nonce that carries version 1 goes out as it is. *)
Example versioned_nonce_of_the_scenario :
  versionedNonce (ArgString "1") = Ok (2 ^ 240 + 1)
  /\ nonceVersion 1 = 0
  /\ versionedNonce (ArgString (BigNumber_toString (2 ^ 240 + 1)))
     = Ok (2 ^ 240 + 1)
  /\ nonceVersion (2 ^ 240 + 1) = 1.
Proof. vm_compute. repeat split. Qed.

(* ================================================================== *)
(** * One cycle of the service, step by step *)

Section CycleFacts.

Context {W : Type} `{Ethers} `{Constants} (options : Options.t W).

Lemma Map_keys_set_grows {V} (m : JsMap V) (k : string) (v : V) :
  exists added, Map_keys (Map_set m k v) = Map_keys m ++ added.
Proof.
  destruct (Map_get m k) as [old|] eqn:Hg.
  - exists []. rewrite app_nil_r. now apply Map_keys_set_present with old.
  - exists [k]. now apply Map_keys_set_absent.
Qed.

#[export] Instance keysGrow_Frame : Frame (@keysGrow W).
Proof.
  split; unfold keysGrow.
  - intros s. exists []. now rewrite app_nil_r.
  - intros s1 s2 s3 [a1 H1] [a2 H2]. exists (a1 ++ a2).
    now rewrite H2, H1, <- app_assoc.
  - intros s w. cbn. exists []. now rewrite app_nil_r.
Qed.

Ltac grow_leaf :=
  unfold keysGrow; cbn -[Map_keys]; rewrite ?Map_keys_mutate;
  first [apply Map_keys_set_grows | exists []; now rewrite app_nil_r].

Lemma main_keysGrow : stable keysGrow (main options).
Proof.
  unfold main, updateMetrics, relayPendingMessages, relayOne,
    checkRelayedMessages, indexNewMessages, confirmRelayed, setRelayed,
    addToQueue, blockTimestamp, relayL1Message, submitRelay, setBalance,
    sendForkTxAs, getSentMessageEvents, getRelayedMessageEvents.
  frames grow_leaf.
Qed.

Lemma loop_keysGrow (n : nat) (s : Sigma W) : keysGrow s (loop options n s).
Proof.
  revert s. induction n as [|n IH]; intros s; cbn [loop].
  - apply frame_refl.
  - eapply frame_trans; [apply main_keysGrow|apply IH].
Qed.

(** ** Marking *)

Lemma markRelayed_relayed (m : Message.t) :
  Message.isRelayed m = true -> Message.markRelayed m = m.
Proof. destruct m; cbn; intros ->; reflexivity. Qed.


Lemma set_messageQueue_same (st : State.t) :
  set_messageQueue (State.messageQueue st) st = st.
Proof. now destruct st. Qed.

Lemma setRelayed_onlyMarks (hash : string) :
  stable onlyMarks (@setRelayed W hash).
Proof.
  intros s. destruct (Map_get (State.messageQueue (state s)) hash) as [m|] eqn:Hg.
  - destruct (Message.isRelayed m) eqn:Hr.
    + apply onlyMarks_data. unfold setRelayed. rewrite modifyState_run. cbn.
      rewrite (Map_mutate_fixed _ _ _ m Hg (markRelayed_relayed m Hr)).
      apply set_messageQueue_same.
    + now apply setRelayed_marks with m.
  - apply onlyMarks_data. unfold setRelayed. rewrite modifyState_run. cbn.
    rewrite (Map_mutate_absent _ _ _ Hg). apply set_messageQueue_same.
Qed.

Ltac marks_leaf := intros ?; left; reflexivity.

Lemma relayPendingMessages_onlyMarks :
  stable onlyMarks (relayPendingMessages options).
Proof.
  unfold relayPendingMessages, relayOne, relayL1Message, submitRelay,
    setBalance, sendForkTxAs.
  repeat first [apply setRelayed_onlyMarks | frame_step marks_leaf].
Qed.

Lemma updateMetrics_onlyMarks : stable onlyMarks (@updateMetrics W).
Proof. unfold updateMetrics. frames marks_leaf. Qed.


(** ** A scan that finds the head at or behind the cursor *)

Lemma indexNewMessages_idle (s : Sigma W) w1 latest :
  Provider.getBlockNumber (Options.l1RpcProvider options) (world s)
  = (w1, Ok latest) ->
  latest <= State.lastScannedL1Block (state s) ->
  indexNewMessages options s
  = ({| world := w1; state := state s; metrics := metrics s;
        console := console s ++ [NoNewMessages] |}, Ok tt).
Proof.
  intros Hhead Hle. unfold indexNewMessages.
  rewrite bind_run, await_run, Hhead, bind_run, getState_run. cbn [state].
  apply Z.ltb_ge in Hle. rewrite Hle. reflexivity.
Qed.

Lemma checkRelayedMessages_idle (s : Sigma W) w1 latest :
  Provider.getBlockNumber (Options.l2RpcProvider options) (world s)
  = (w1, Ok latest) ->
  latest <= State.lastScannedL2Block (state s) ->
  checkRelayedMessages options s
  = ({| world := w1; state := state s; metrics := metrics s;
        console := console s ++ [NoNewRelayed] |}, Ok tt).
Proof.
  intros Hhead Hle. unfold checkRelayedMessages.
  rewrite bind_run, await_run, Hhead, bind_run, getState_run. cbn [state].
  apply Z.ltb_ge in Hle. rewrite Hle. reflexivity.
Qed.

(** ** The indexing loop *)

Lemma blockTimestamp_data (provider : Provider.t W) (n : Z) (s : Sigma W) :
  state (fst (blockTimestamp provider n s)) = state s
  /\ metrics (fst (blockTimestamp provider n s)) = metrics s.
Proof.
  destruct (blockTimestamp_quiet provider n s) as (Ks & Km & _). auto.
Qed.

Lemma forOf_addToQueue_stores (msgs : list SentMessage.t) (s : Sigma W) :
  snd (forOf msgs (addToQueue options) s) = Ok tt ->
  (forall msg, In msg msgs ->
     exists msg' timestamp,
       In msg' msgs
       /\ SentMessage.messageHash msg' = SentMessage.messageHash msg
       /\ Map_get (State.messageQueue
                     (state (fst (forOf msgs (addToQueue options) s))))
            (SentMessage.messageHash msg)
          = Some (Message.fresh msg' timestamp))
  /\ (forall k, ~ In k (map SentMessage.messageHash msgs) ->
        Map_get (State.messageQueue
                   (state (fst (forOf msgs (addToQueue options) s)))) k
        = Map_get (State.messageQueue (state s)) k)
  /\ Metrics.messagesSent (metrics (fst (forOf msgs (addToQueue options) s)))
     = Metrics.messagesSent (metrics s) + Z.of_nat (List.length msgs)
  /\ cursorsView (state (fst (forOf msgs (addToQueue options) s)))
       (metrics (fst (forOf msgs (addToQueue options) s)))
     = cursorsView (state s) (metrics s).
Proof.
  revert s. induction msgs as [|msg msgs IH]; intros s.
  - cbn. intros _. repeat split; try tauto. lia.
  - cbn [forOf]. rewrite bind_run, addToQueue_run.
    destruct (blockTimestamp_data (Options.l1RpcProvider options)
                (SentMessage.blockNumber msg) s) as (Ks & Km).
    destruct (blockTimestamp _ _ s) as [s1 [timestamp|e]]; cbn [fst snd] in *;
      [|discriminate].
    match goal with
    | |- context [forOf msgs _ ?s0] => specialize (IH s0); set (s2 := s0) in *
    end.
    intros Hok. destruct (IH Hok) as (Hin & Hout & Hsent & Hcur). clear IH.
    assert (Hq2 : State.messageQueue (state s2)
                  = Map_set (State.messageQueue (state s))
                      (SentMessage.messageHash msg)
                      (Message.fresh msg timestamp))
      by (unfold s2; cbn; now rewrite Ks).
    repeat split.
    + intros msg0 Hmsg0.
      destruct (in_dec string_dec (SentMessage.messageHash msg0)
                  (map SentMessage.messageHash msgs)) as [Hlater|Hlast].
      * apply in_map_iff in Hlater as (msg1 & Hhash & Hmsg1).
        destruct (Hin msg1 Hmsg1) as (msg' & ts & Hin' & Hh' & Hget).
        exists msg', ts. split; [now right|]. split; [congruence|].
        now rewrite <- Hhash.
      * destruct Hmsg0 as [<-|Hmsg0];
          [|exfalso; apply Hlast; now apply in_map].
        exists msg, timestamp. split; [now left|]. split; [reflexivity|].
        rewrite (Hout _ Hlast), Hq2. apply Map_get_set_same.
    + intros k Hk. rewrite Hout by (intros Hin'; apply Hk; now right).
      rewrite Hq2. apply Map_get_set_other. intros ->. apply Hk. now left.
    + rewrite Hsent. unfold s2. cbn [metrics messagesSent_inc messagesSent_set
                                      Metrics.messagesSent].
      rewrite Km. cbn [List.length]. lia.
    + rewrite Hcur. unfold s2, cursorsView. cbn. now rewrite Ks.
Qed.

(** ** The confirmation loop *)

Lemma confirmRelayed_step (hash : string) (s : Sigma W) :
  snd (confirmRelayed hash s) = Ok tt
  /\ (forall k,
        Map_get (State.messageQueue (state (fst (confirmRelayed hash s)))) k
        = if String.eqb k hash
          then option_map Message.markRelayed
                 (Map_get (State.messageQueue (state s)) k)
          else Map_get (State.messageQueue (state s)) k)
  /\ Metrics.messagesRelayed (metrics (fst (confirmRelayed hash s)))
     + Metrics.pendingMessages (metrics (fst (confirmRelayed hash s)))
     = Metrics.messagesRelayed (metrics s) + Metrics.pendingMessages (metrics s)
  /\ Metrics.messagesSent (metrics (fst (confirmRelayed hash s)))
     = Metrics.messagesSent (metrics s)
  /\ cursorsView (state (fst (confirmRelayed hash s)))
       (metrics (fst (confirmRelayed hash s)))
     = cursorsView (state s) (metrics s).
Proof.
  unfold confirmRelayed. rewrite bind_run, getState_run.
  destruct (Map_get (State.messageQueue (state s)) hash) as [m|] eqn:Hg.
  - destruct (Message.isRelayed m) eqn:Hr; cbn [negb].
    + cbn. repeat split. intros k.
      destruct (String.eqb_spec k hash) as [->|Hne]; [|reflexivity].
      rewrite Hg. cbn. now rewrite markRelayed_relayed.
    + rewrite bind_run, console_log_run, bind_run. unfold setRelayed.
      rewrite modifyState_run, bind_run, modifyMetrics_run, modifyMetrics_run.
      cbn. repeat split; try lia. intros k.
      destruct (String.eqb_spec k hash) as [->|Hne].
      * apply Map_get_mutate_same.
      * now apply Map_get_mutate_other.
  - cbn. repeat split. intros k.
    destruct (String.eqb_spec k hash) as [->|Hne]; [|reflexivity].
    now rewrite Hg.
Qed.

Lemma forOf_confirmRelayed_marks (hashes : list string) (s : Sigma W) :
  snd (forOf hashes confirmRelayed s) = Ok tt
  /\ (forall h m, In h hashes ->
        Map_get (State.messageQueue (state s)) h = Some m ->
        Map_get (State.messageQueue
                   (state (fst (forOf hashes confirmRelayed s)))) h
        = Some (Message.markRelayed m))
  /\ (forall k, ~ In k hashes ->
        Map_get (State.messageQueue
                   (state (fst (forOf hashes confirmRelayed s)))) k
        = Map_get (State.messageQueue (state s)) k)
  /\ Metrics.messagesRelayed (metrics (fst (forOf hashes confirmRelayed s)))
     + Metrics.pendingMessages (metrics (fst (forOf hashes confirmRelayed s)))
     = Metrics.messagesRelayed (metrics s) + Metrics.pendingMessages (metrics s)
  /\ Metrics.messagesSent (metrics (fst (forOf hashes confirmRelayed s)))
     = Metrics.messagesSent (metrics s)
  /\ cursorsView (state (fst (forOf hashes confirmRelayed s)))
       (metrics (fst (forOf hashes confirmRelayed s)))
     = cursorsView (state s) (metrics s).
Proof.
  revert s. induction hashes as [|hash hashes IH]; intros s.
  - cbn. repeat split; tauto.
  - cbn [forOf]. rewrite bind_run.
    destruct (confirmRelayed_step hash s) as (Hok & Hq & Hsum & Hsent & Hcur).
    destruct (confirmRelayed hash s) as [s1 r1]. cbn [fst snd] in *. subst r1.
    destruct (IH s1) as (Hok2 & Hin2 & Hout2 & Hsum2 & Hsent2 & Hcur2).
    split; [assumption|]. repeat split; try congruence.
    + intros h m Hh Hg.
      assert (Hg1 : Map_get (State.messageQueue (state s1)) h
                    = Some (if String.eqb h hash
                            then Message.markRelayed m else m))
        by (rewrite Hq, Hg; now destruct (String.eqb h hash)).
      destruct (in_dec string_dec h hashes) as [Hlater|Hlast].
      * rewrite (Hin2 h _ Hlater Hg1). now destruct (String.eqb h hash).
      * destruct Hh as [->|Hh]; [|contradiction].
        rewrite (Hout2 h Hlast), Hg1. now rewrite String.eqb_refl.
    + intros k Hk. rewrite Hout2 by (intros Hin; apply Hk; now right).
      rewrite Hq. destruct (String.eqb_spec k hash) as [->|Hne];
        [exfalso; apply Hk; now left|reflexivity].
Qed.

End CycleFacts.

(* ================================================================== *)
(** * The relay pass, entry by entry *)

Section RelayFacts.

Context {W : Type} `{Ethers} `{Constants} (options : Options.t W).

#[export] Instance noRelayLine_Frame : Frame (@noRelayLine W).
Proof.
  split; unfold noRelayLine.
  - intros s. exists []. now rewrite app_nil_r.
  - intros s1 s2 s3 (l1 & H1 & A1 & F1) (l2 & H2 & A2 & F2).
    exists (l1 ++ l2).
    rewrite H2, H1, <- app_assoc, attempted_app, failed_app, A1, A2, F1, F2.
    auto.
  - intros s w. cbn. exists []. now rewrite app_nil_r.
Qed.

Ltac noRelayLine_leaf :=
  unfold noRelayLine; cbn;
  first [ exists []; rewrite app_nil_r; repeat split; reflexivity
        | eexists; repeat split; reflexivity ].

Lemma indexNewMessages_noRelayLine :
  stable noRelayLine (indexNewMessages options).
Proof.
  unfold indexNewMessages, addToQueue, blockTimestamp, getSentMessageEvents.
  frames noRelayLine_leaf.
Qed.

Lemma checkRelayedMessages_noRelayLine :
  stable noRelayLine (checkRelayedMessages options).
Proof.
  unfold checkRelayedMessages, confirmRelayed, setRelayed,
    getRelayedMessageEvents.
  frames noRelayLine_leaf.
Qed.


(** One turn of the loop, with the gauges. *)
Lemma relayOne_outcome (h : string) (m : Message.t) (s : Sigma W) :
  snd (relayOne options (h, m) s) = Ok tt
  /\ exists lines,
       console (fst (relayOne options (h, m) s)) = console s ++ lines
       /\ ((Message.isRelayed m = true /\ lines = []
            /\ state (fst (relayOne options (h, m) s)) = state s
            /\ metrics (fst (relayOne options (h, m) s)) = metrics s)
           \/ (Message.isRelayed m = false
               /\ attempted lines = [h] /\ failed lines = [h]
               /\ state (fst (relayOne options (h, m) s)) = state s
               /\ metrics (fst (relayOne options (h, m) s)) = metrics s)
           \/ (Message.isRelayed m = false
               /\ attempted lines = [h] /\ failed lines = []
               /\ state (fst (relayOne options (h, m) s))
                  = set_messageQueue
                      (Map_mutate (State.messageQueue (state s)) h
                         Message.markRelayed)
                      (state s)
               /\ metrics (fst (relayOne options (h, m) s))
                  = pendingMessages_dec (messagesRelayed_inc (metrics s)))).
Proof.
  unfold relayOne. destruct (Message.isRelayed m) eqn:Hr; cbn [negb].
  - split; [reflexivity|]. exists []. rewrite app_nil_r.
    split; [reflexivity|]. left. repeat split; reflexivity.
  - unfold tryCatch. rewrite bind_run, console_log_run, bind_run.
    match goal with
    | |- context [relayL1Message ?p ?a ?b ?c ?d ?e ?f ?s0] =>
        pose proof (relayL1Message_quiet p a b c d e f s0) as K;
        destruct (relayL1Message p a b c d e f s0) as [s2 [receipt|e0]]
    end; destruct K as (Ks & Km & lines0 & Kc & Ka & Kf); cbn in Ks, Km, Kc.
    + rewrite bind_run, console_log_run, bind_run.
      unfold setRelayed. rewrite modifyState_run, bind_run,
        modifyMetrics_run, modifyMetrics_run.
      cbn. split; [reflexivity|].
      exists ([AttemptingToRelay h] ++ lines0
              ++ [MessageRelayedInBlock (Receipt.blockNumber receipt)]).
      split; [rewrite Kc, <- !app_assoc; reflexivity|].
      right; right.
      rewrite !attempted_app, !failed_app, Ka, Kf, Ks, Km. cbn.
      repeat split; reflexivity.
    + rewrite console_log_run. cbn. split; [reflexivity|].
      exists ([AttemptingToRelay h] ++ lines0 ++ [FailedToRelay h e0]).
      split; [rewrite Kc, <- !app_assoc; reflexivity|].
      right; left.
      rewrite !attempted_app, !failed_app, Ka, Kf. cbn.
      repeat split; assumption.
Qed.

Lemma Map_mutate_middle {V} (pre : JsMap V) (h : string) (v : V)
    (l : JsMap V) (f : V -> V) :
  ~ In h (Map_keys pre) ->
  Map_mutate (pre ++ (h, v) :: l) h f = pre ++ (h, f v) :: l.
Proof.
  induction pre as [|[k0 v0] pre IH]; cbn; intros Hnot.
  - now rewrite String.eqb_refl.
  - destruct (String.eqb_spec k0 h) as [->|Hne]; [tauto|].
    rewrite IH by tauto. reflexivity.
Qed.

Lemma pendingHashes_app (l1 l2 : JsMap Message.t) :
  pendingHashes (l1 ++ l2) = pendingHashes l1 ++ pendingHashes l2.
Proof. unfold pendingHashes. now rewrite filter_app, map_app. Qed.

Lemma pendingHashes_all_relayed (l : JsMap Message.t) :
  pendingHashes l = [] <-> forall k m, In (k, m) l -> Message.isRelayed m = true.
Proof.
  induction l as [|[h m] l IH]; [cbn; tauto|].
  rewrite pendingHashes_cons. destruct (Message.isRelayed m) eqn:Hr.
  - rewrite IH. split.
    + intros Hall k m' [[= <- <-]|Hin]; [assumption|]. now apply Hall with k.
    + intros Hall k m' Hin. apply Hall with k. now right.
  - split; [discriminate|]. intros Hall.
    specialize (Hall h m (or_introl eq_refl)). congruence.
Qed.

(** The loop over the entries [l] of a queue [pre ++ l] whose keys are
    distinct: what the queue, the gauges and the console are afterwards. *)
Lemma relayEach_exact (l : JsMap Message.t) :
  forall (pre : JsMap Message.t) (s : Sigma W),
    State.messageQueue (state s) = pre ++ l ->
    NoDup (Map_keys (pre ++ l)) ->
    exists l' lines,
      State.messageQueue (state (fst (forOf l (relayOne options) s)))
      = pre ++ l'
      /\ console (fst (forOf l (relayOne options) s)) = console s ++ lines
      /\ Map_keys l' = Map_keys l
      /\ attempted lines = pendingHashes l
      /\ failed lines = pendingHashes l'
      /\ Metrics.messagesRelayed
           (metrics (fst (forOf l (relayOne options) s)))
         + Z.of_nat (List.length (failed lines))
         = Metrics.messagesRelayed (metrics s)
           + Z.of_nat (List.length (attempted lines))
      /\ Metrics.pendingMessages
           (metrics (fst (forOf l (relayOne options) s)))
         + Z.of_nat (List.length (attempted lines))
         = Metrics.pendingMessages (metrics s)
           + Z.of_nat (List.length (failed lines))
      /\ Metrics.messagesSent (metrics (fst (forOf l (relayOne options) s)))
         = Metrics.messagesSent (metrics s)
      /\ cursorsView (state (fst (forOf l (relayOne options) s)))
           (metrics (fst (forOf l (relayOne options) s)))
         = cursorsView (state s) (metrics s).
Proof.
  induction l as [|[h m] l IH]; intros pre s Hq Hnd.
  - cbn. exists [], []. rewrite !app_nil_r. rewrite app_nil_r in Hq.
    repeat split; auto.
  - cbn [forOf]. rewrite bind_run.
    destruct (relayOne_outcome h m s) as (Hok & lines1 & Hc1 & Hcase).
    destruct (relayOne options (h, m) s) as [s1 r1]. cbn [fst snd] in *.
    subst r1.
    assert (Hfresh : ~ In h (Map_keys pre)).
    { unfold Map_keys in *. rewrite map_app in Hnd. cbn in Hnd.
      apply NoDup_remove_2 in Hnd. intros Hin. apply Hnd.
      apply in_or_app. now left. }
    assert (Hq1 : exists m1,
               State.messageQueue (state s1) = (pre ++ [(h, m1)]) ++ l
               /\ pendingHashes [(h, m1)] = failed lines1
               /\ attempted lines1 = pendingHashes [(h, m)]
               /\ Metrics.messagesRelayed (metrics s1)
                  + Z.of_nat (List.length (failed lines1))
                  = Metrics.messagesRelayed (metrics s)
                    + Z.of_nat (List.length (attempted lines1))
               /\ Metrics.pendingMessages (metrics s1)
                  + Z.of_nat (List.length (attempted lines1))
                  = Metrics.pendingMessages (metrics s)
                    + Z.of_nat (List.length (failed lines1))
               /\ Metrics.messagesSent (metrics s1)
                  = Metrics.messagesSent (metrics s)
               /\ cursorsView (state s1) (metrics s1)
                  = cursorsView (state s) (metrics s)).
    { destruct Hcase as [(Hr & -> & Hs1 & Hm1)
                        |[(Hr & Ha1 & Hf1 & Hs1 & Hm1)
                         |(Hr & Ha1 & Hf1 & Hs1 & Hm1)]].
      - exists m. rewrite Hs1, Hm1, Hq, <- app_assoc, !pendingHashes_cons, Hr.
        cbn. repeat split; lia.
      - exists m. rewrite Hs1, Hm1, Hq, <- app_assoc, !pendingHashes_cons, Hr,
          Ha1, Hf1.
        cbn. repeat split; lia.
      - exists (Message.markRelayed m).
        rewrite Hs1, Hm1, Hq, <- app_assoc, !pendingHashes_cons, Hr, Ha1, Hf1.
        cbn -[Z.of_nat]. rewrite Map_mutate_middle by assumption.
        cbn. repeat split; lia. }
    destruct Hq1 as (m1 & Hq1 & Hp1 & Ha1 & Hrel1 & Hpen1 & Hsent1 & Hcur1).
    assert (Hnd1 : NoDup (Map_keys ((pre ++ [(h, m1)]) ++ l))).
    { rewrite <- app_assoc. unfold Map_keys in *.
      rewrite map_app in *. exact Hnd. }
    destruct (IH (pre ++ [(h, m1)]) s1 Hq1 Hnd1)
      as (l' & lines2 & Hq2 & Hc2 & Hk2 & Ha2 & Hf2 & Hrel2 & Hpen2 & Hsent2
          & Hcur2).
    exists ((h, m1) :: l'), (lines1 ++ lines2).
    rewrite Hq2, Hc2, Hc1, <- !app_assoc, attempted_app, failed_app.
    rewrite !length_app, !Nat2Z.inj_add.
    split; [reflexivity|]. split; [reflexivity|].
    split; [unfold Map_keys in *; cbn; now rewrite Hk2|].
    split.
    { rewrite Ha1, Ha2.
      change ((h, m) :: l) with ([(h, m)] ++ l).
      now rewrite pendingHashes_app. }
    split.
    { rewrite <- Hp1, Hf2.
      change ((h, m1) :: l') with ([(h, m1)] ++ l').
      now rewrite pendingHashes_app. }
    repeat split; try lia; congruence.
Qed.

Lemma forOf_relayOne_returns (l : JsMap Message.t) (s : Sigma W) :
  snd (forOf l (relayOne options) s) = Ok tt.
Proof.
  revert s. induction l as [|[h m] l IH]; intros s; [reflexivity|].
  cbn [forOf]. rewrite bind_run.
  destruct (relayOne_outcome h m s) as (Hok & _).
  destruct (relayOne options (h, m) s) as [s1 r1]. cbn [snd] in Hok. subst r1.
  apply IH.
Qed.

Lemma pendingCount_pendingHashes (q : JsMap Message.t) :
  pendingCount q = Z.of_nat (List.length (pendingHashes q)).
Proof.
  unfold pendingCount, pendingHashes, Map_values.
  assert (Hgen : forall l acc,
             fold_left
               (fun count message =>
                  if negb (Message.isRelayed message) then count + 1 else count)
               (map snd l) acc
             = acc + Z.of_nat
                       (List.length
                          (map fst
                             (filter
                                (fun entry : string * Message.t =>
                                   negb (Message.isRelayed (snd entry))) l)))).
  { induction l as [|[k m] l IH]; intros acc; cbn [map fold_left filter snd].
    - cbn. lia.
    - rewrite IH. destruct (negb (Message.isRelayed m)); cbn [map List.length];
        lia. }
  now rewrite Hgen.
Qed.

End RelayFacts.

(* ================================================================== *)
(** * What a cycle does to the store, the cursors and the gauges *)

Section CycleProperties.

Context {W : Type} `{Ethers} `{Constants} (options : Options.t W).

(** X1.  A completed [indexNewMessages] that found new blocks has stored
    every message of the scanned range: for each record the scan returned,
    the queue holds under its hash a freshly indexed record (the one of a
    scanned message with that hash), Pending; every hash that was not
    scanned keeps what it had; [messagesSent] has grown by the number of
    scanned messages; and the L1 cursor is the head that was read, the L2
    cursor is as before. *)
Theorem indexNewMessages_stores_every_scanned_message
    (s : Sigma W) latest w0 w1 w2 sent extensionEvents msgs :
  Provider.getBlockNumber (Options.l1RpcProvider options) (world s)
  = (w0, Ok latest) ->
  State.lastScannedL1Block (state s) < latest ->
  Provider.querySentMessage (Options.l1RpcProvider options)
    (State.lastScannedL1Block (state s) + 1) latest w0 = (w1, Ok sent) ->
  Provider.querySentMessageExtension1 (Options.l1RpcProvider options)
    (State.lastScannedL1Block (state s) + 1) latest w1
  = (w2, Ok extensionEvents) ->
  pairSentMessages sent extensionEvents = Ok msgs ->
  snd (indexNewMessages options s) = Ok tt ->
  (forall msg, In msg msgs ->
     exists msg' timestamp,
       In msg' msgs
       /\ SentMessage.messageHash msg' = SentMessage.messageHash msg
       /\ Map_get (State.messageQueue (state (fst (indexNewMessages options s))))
            (SentMessage.messageHash msg)
          = Some (Message.fresh msg' timestamp)
       /\ Message.isRelayed (Message.fresh msg' timestamp) = false)
  /\ (forall k, ~ In k (map SentMessage.messageHash msgs) ->
        Map_get (State.messageQueue (state (fst (indexNewMessages options s)))) k
        = Map_get (State.messageQueue (state s)) k)
  /\ Metrics.messagesSent (metrics (fst (indexNewMessages options s)))
     = Metrics.messagesSent (metrics s) + Z.of_nat (List.length msgs)
  /\ State.lastScannedL1Block (state (fst (indexNewMessages options s)))
     = latest
  /\ State.lastScannedL2Block (state (fst (indexNewMessages options s)))
     = State.lastScannedL2Block (state s).
Proof.
  intros Hhead Hlt Hsent Hext Hpair.
  unfold indexNewMessages. rewrite bind_run, await_run, Hhead.
  rewrite bind_run, getState_run. cbn [state].
  apply Z.ltb_lt in Hlt. rewrite Hlt.
  rewrite bind_run, console_log_run, bind_run.
  erewrite getSentMessageEvents_run by (cbn [world]; eassumption).
  rewrite Hpair. rewrite bind_run, console_log_run, bind_run.
  match goal with
  | |- context [forOf msgs _ ?s0] =>
      pose proof (forOf_addToQueue_stores options msgs s0) as Hloop;
      destruct (forOf msgs (addToQueue options) s0) as [s3 [[]|e]]
  end; cbn [fst snd] in *; [|discriminate].
  destruct (Hloop eq_refl) as (Hin & Hout & Hcount & Hcur). clear Hloop.
  rewrite modifyState_run. cbn [fst snd state metrics]. intros _.
  unfold cursorsView in Hcur. cbn in Hcur. injection Hcur as Hc1 Hc2.
  cbn in Hout, Hcount.
  split.
  { intros msg Hmsg. destruct (Hin msg Hmsg) as (msg' & ts & H1 & H2 & H3).
    exists msg', ts. cbn. auto. }
  split; [intros k Hk; cbn; now apply Hout|].
  split; [assumption|]. cbn. auto.
Qed.

(** X2.  [checkRelayedMessages], once the head is read ahead of the cursor
    and the log query has answered, cannot throw, and it has marked every
    confirmed message: each returned hash that is a key of the queue holds
    its record marked Relayed; every other key holds what it held; the sum
    of the gauges [messagesRelayed] and [pendingMessages] is as before; and
    the L2 cursor is the head that was read, the L1 cursor is as before. *)
Theorem checkRelayedMessages_marks_every_confirmed_message
    (s : Sigma W) latest w1 w2 hashes :
  Provider.getBlockNumber (Options.l2RpcProvider options) (world s)
  = (w1, Ok latest) ->
  State.lastScannedL2Block (state s) < latest ->
  Provider.queryRelayedMessage (Options.l2RpcProvider options)
    (State.lastScannedL2Block (state s) + 1) latest w1 = (w2, Ok hashes) ->
  snd (checkRelayedMessages options s) = Ok tt
  /\ (forall h m, In h hashes ->
        Map_get (State.messageQueue (state s)) h = Some m ->
        Map_get (State.messageQueue
                   (state (fst (checkRelayedMessages options s)))) h
        = Some (Message.markRelayed m))
  /\ (forall k, ~ In k hashes ->
        Map_get (State.messageQueue
                   (state (fst (checkRelayedMessages options s)))) k
        = Map_get (State.messageQueue (state s)) k)
  /\ Metrics.messagesRelayed (metrics (fst (checkRelayedMessages options s)))
     + Metrics.pendingMessages (metrics (fst (checkRelayedMessages options s)))
     = Metrics.messagesRelayed (metrics s) + Metrics.pendingMessages (metrics s)
  /\ State.lastScannedL2Block (state (fst (checkRelayedMessages options s)))
     = latest
  /\ State.lastScannedL1Block (state (fst (checkRelayedMessages options s)))
     = State.lastScannedL1Block (state s).
Proof.
  intros Hhead Hlt Hscan.
  unfold checkRelayedMessages. rewrite bind_run, await_run, Hhead.
  rewrite bind_run, getState_run. cbn [state].
  apply Z.ltb_lt in Hlt. rewrite Hlt.
  rewrite bind_run, console_log_run, bind_run.
  unfold getRelayedMessageEvents. rewrite await_run. cbn [world].
  rewrite Hscan. rewrite bind_run, console_log_run, bind_run.
  match goal with
  | |- context [forOf hashes _ ?s0] =>
      destruct (forOf_confirmRelayed_marks hashes s0)
        as (Hok & Hin & Hout & Hsum & _ & Hcur);
      destruct (forOf hashes confirmRelayed s0) as [s3 r3]
  end; cbn [fst snd] in *. subst r3.
  rewrite modifyState_run. cbn [fst snd state metrics].
  unfold cursorsView in Hcur. cbn in Hcur. injection Hcur as Hc1 Hc2.
  cbn in Hin, Hout, Hsum. cbn. auto 10.
Qed.

Lemma forOf_addToQueue_throws (msgs : list SentMessage.t) (s : Sigma W)
    (e : Error) :
  snd (forOf msgs (addToQueue options) s) = Throw e ->
  exists done msg rest s1,
    msgs = done ++ msg :: rest
    /\ forOf done (addToQueue options) s = (s1, Ok tt)
    /\ snd (blockTimestamp (Options.l1RpcProvider options)
              (SentMessage.blockNumber msg) s1)
       = Throw e
    /\ state (fst (forOf msgs (addToQueue options) s)) = state s1
    /\ metrics (fst (forOf msgs (addToQueue options) s)) = metrics s1.
Proof.
  revert s. induction msgs as [|m msgs IH]; intros s; [discriminate|].
  cbn [forOf]. rewrite bind_run, addToQueue_run.
  destruct (blockTimestamp_data (Options.l1RpcProvider options)
              (SentMessage.blockNumber m) s) as (Ks & Km).
  destruct (blockTimestamp _ _ s) as [s1 [timestamp|e0]] eqn:Eb;
    cbn [fst snd] in *.
  - intros Hthrow.
    destruct (IH _ Hthrow) as (done & msg & rest & s2 & -> & Hdone & Hts & Hs & Hm).
    exists (m :: done), msg, rest, s2. split; [reflexivity|].
    split; [|auto].
    cbn [forOf]. now rewrite bind_run, addToQueue_run, Eb.
  - intros [= ->]. exists [], m, msgs, s. cbn [forOf app].
    rewrite Eb. auto.
Qed.

(** X23.  Indexing is not all or nothing once the scan has answered: when
    reading the time stamp of a block fails part of the way through the
    scanned messages, [indexNewMessages] throws, the messages before the
    failing one stay in the queue, Pending, and stay counted in
    [messagesSent], while the L1 cursor is where it was. *)
Theorem indexNewMessages_keeps_partial_progress
    (s : Sigma W) latest w0 w1 w2 sent extensionEvents msgs (e : Error) :
  Provider.getBlockNumber (Options.l1RpcProvider options) (world s)
  = (w0, Ok latest) ->
  State.lastScannedL1Block (state s) < latest ->
  Provider.querySentMessage (Options.l1RpcProvider options)
    (State.lastScannedL1Block (state s) + 1) latest w0 = (w1, Ok sent) ->
  Provider.querySentMessageExtension1 (Options.l1RpcProvider options)
    (State.lastScannedL1Block (state s) + 1) latest w1
  = (w2, Ok extensionEvents) ->
  pairSentMessages sent extensionEvents = Ok msgs ->
  snd (indexNewMessages options s) = Throw e ->
  exists done msg rest,
    msgs = done ++ msg :: rest
    /\ Metrics.messagesSent (metrics (fst (indexNewMessages options s)))
       = Metrics.messagesSent (metrics s) + Z.of_nat (List.length done)
    /\ (forall m, In m done ->
          exists m' timestamp,
            In m' done
            /\ SentMessage.messageHash m' = SentMessage.messageHash m
            /\ Map_get
                 (State.messageQueue (state (fst (indexNewMessages options s))))
                 (SentMessage.messageHash m)
               = Some (Message.fresh m' timestamp))
    /\ (forall k, ~ In k (map SentMessage.messageHash done) ->
          Map_get
            (State.messageQueue (state (fst (indexNewMessages options s)))) k
          = Map_get (State.messageQueue (state s)) k)
    /\ State.lastScannedL1Block (state (fst (indexNewMessages options s)))
       = State.lastScannedL1Block (state s).
Proof.
  intros Hhead Hlt Hsent Hext Hpair.
  pose proof (proj2 (indexNewMessages_cursors options s)) as Hkeep.
  unfold indexNewMessages in *. rewrite bind_run, await_run, Hhead in *.
  rewrite bind_run, getState_run in *. cbn [state] in *.
  apply Z.ltb_lt in Hlt. rewrite Hlt in *.
  rewrite bind_run, console_log_run, bind_run in *.
  erewrite getSentMessageEvents_run in * by (cbn [world]; eassumption).
  rewrite Hpair in *. rewrite bind_run, console_log_run, bind_run in *.
  match goal with
  | |- context [forOf msgs _ ?s0] =>
      pose proof (forOf_addToQueue_throws msgs s0) as Hloop;
      destruct (forOf msgs (addToQueue options) s0) as [s3 [[]|e3]]
  end; cbn [fst snd] in *; [discriminate|].
  intros [= ->].
  destruct (Hloop e eq_refl) as (done & msg & rest & s1 & Hsplit & Hdone & _ & Hs & Hm).
  clear Hloop.
  match type of Hdone with
  | forOf done _ ?s0 = _ =>
      pose proof (forOf_addToQueue_stores options done s0) as Hstore
  end.
  rewrite Hdone in Hstore. cbn [fst snd] in Hstore.
  destruct (Hstore eq_refl) as (Hin & Hout & Hcount & _). clear Hstore.
  cbn in Hout, Hcount.
  specialize (Hkeep eq_refl). unfold keeps, cursorsView in Hkeep.
  cbn in Hkeep. injection Hkeep as Hk1 Hk2.
  rewrite Hs in Hk1. exists done, msg, rest. rewrite Hs, Hm.
  repeat split; assumption.
Qed.

(** X3.  A scan that completes leaves its cursor at the larger of the old
    cursor and the head it read, and the other cursor where it was; when
    the head is not ahead of the cursor it queries no log and changes
    neither state nor gauges.  This holds of [indexNewMessages] on L1 and
    of [checkRelayedMessages] on L2. *)
Theorem completed_scan_leaves_cursor_at_head (s : Sigma W) :
  (snd (indexNewMessages options s) = Ok tt ->
   exists w1 latest,
     Provider.getBlockNumber (Options.l1RpcProvider options) (world s)
     = (w1, Ok latest)
     /\ State.lastScannedL1Block (state (fst (indexNewMessages options s)))
        = Z.max (State.lastScannedL1Block (state s)) latest
     /\ State.lastScannedL2Block (state (fst (indexNewMessages options s)))
        = State.lastScannedL2Block (state s)
     /\ (latest <= State.lastScannedL1Block (state s) ->
         fst (indexNewMessages options s)
         = {| world := w1; state := state s; metrics := metrics s;
              console := console s ++ [NoNewMessages] |}))
  /\ (snd (checkRelayedMessages options s) = Ok tt ->
      exists w1 latest,
        Provider.getBlockNumber (Options.l2RpcProvider options) (world s)
        = (w1, Ok latest)
        /\ State.lastScannedL2Block
             (state (fst (checkRelayedMessages options s)))
           = Z.max (State.lastScannedL2Block (state s)) latest
        /\ State.lastScannedL1Block
             (state (fst (checkRelayedMessages options s)))
           = State.lastScannedL1Block (state s)
        /\ (latest <= State.lastScannedL2Block (state s) ->
            fst (checkRelayedMessages options s)
            = {| world := w1; state := state s; metrics := metrics s;
                 console := console s ++ [NoNewRelayed] |})).
Proof.
  split.
  - destruct (Provider.getBlockNumber (Options.l1RpcProvider options) (world s))
      as [w1 [latest|e]] eqn:Hhead.
    2: { unfold indexNewMessages. rewrite bind_run, await_run, Hhead.
         discriminate. }
    intros Hok. exists w1, latest. split; [reflexivity|].
    destruct (Z.le_gt_cases latest (State.lastScannedL1Block (state s)))
      as [Hle|Hgt].
    + rewrite (indexNewMessages_idle options s w1 latest Hhead Hle). cbn.
      repeat split; try reflexivity. lia.
    + revert Hok. unfold indexNewMessages.
      rewrite bind_run, await_run, Hhead, bind_run, getState_run. cbn [state].
      rewrite (proj2 (Z.ltb_lt _ _) Hgt).
      rewrite bind_run, console_log_run, bind_run.
      match goal with
      | |- context [getSentMessageEvents ?p ?a ?b ?s0] =>
          pose proof (getSentMessageEvents_quiet p a b s0) as K2;
          apply (quiet_keeps cursorsView) in K2;
          destruct (getSentMessageEvents p a b s0) as [s2 [msgs|e]]
      end; cbn [fst snd] in *; [|discriminate].
      rewrite bind_run, console_log_run, bind_run.
      match goal with
      | |- context [forOf msgs ?body ?s0] =>
          pose proof (stable_forOf (keeps cursorsView) msgs body
                        (addToQueue_keeps_cursors options) s0) as K3;
          destruct (forOf msgs body s0) as [s3 [u|e]]
      end; cbn [fst snd] in *; [|discriminate].
      rewrite modifyState_run. cbn [fst snd]. intros _.
      unfold keeps, cursorsView in *. cbn in *.
      injection K2 as K2a K2b. injection K3 as K3a K3b.
      repeat split; lia.
  - destruct (Provider.getBlockNumber (Options.l2RpcProvider options) (world s))
      as [w1 [latest|e]] eqn:Hhead.
    2: { unfold checkRelayedMessages. rewrite bind_run, await_run, Hhead.
         discriminate. }
    intros Hok. exists w1, latest. split; [reflexivity|].
    destruct (Z.le_gt_cases latest (State.lastScannedL2Block (state s)))
      as [Hle|Hgt].
    + rewrite (checkRelayedMessages_idle options s w1 latest Hhead Hle). cbn.
      repeat split; try reflexivity. lia.
    + revert Hok. unfold checkRelayedMessages.
      rewrite bind_run, await_run, Hhead, bind_run, getState_run. cbn [state].
      rewrite (proj2 (Z.ltb_lt _ _) Hgt).
      rewrite bind_run, console_log_run, bind_run.
      match goal with
      | |- context [getRelayedMessageEvents ?p ?a ?b ?s0] =>
          pose proof (getRelayedMessageEvents_quiet p a b s0) as K2;
          apply (quiet_keeps cursorsView) in K2;
          destruct (getRelayedMessageEvents p a b s0) as [s2 [hashes|e]]
      end; cbn [fst snd] in *; [|discriminate].
      rewrite bind_run, console_log_run, bind_run.
      match goal with
      | |- context [forOf hashes ?body ?s0] =>
          pose proof (stable_forOf (keeps cursorsView) hashes body
                        (@confirmRelayed_keeps_cursors W) s0) as K3;
          destruct (forOf hashes body s0) as [s3 [u|e]]
      end; cbn [fst snd] in *; [|discriminate].
      rewrite modifyState_run. cbn [fst snd]. intros _.
      unfold keeps, cursorsView in *. cbn in *.
      injection K2 as K2a K2b. injection K3 as K3a K3b.
      repeat split; lia.
Qed.

(** The three steps of a cycle that follow the L1 scan. *)
Lemma after_scan_onlyMarks :
  stable onlyMarks
    (checkRelayedMessages options ;;
     relayPendingMessages options ;;
     updateMetrics).
Proof.
  frame_rule @stable_bind; [apply checkRelayedMessages_onlyMarks|intros _].
  frame_rule @stable_bind; [apply relayPendingMessages_onlyMarks|intros _].
  apply updateMetrics_onlyMarks.
Qed.

Lemma after_scan_keeps_keys :
  stable (keeps keysView)
    (checkRelayedMessages options ;;
     relayPendingMessages options ;;
     updateMetrics).
Proof.
  frame_rule @stable_bind; [apply checkRelayedMessages_keeps_keys|intros _].
  frame_rule @stable_bind; [apply relayPendingMessages_keeps_keys|intros _].
  intros s. pose proof (updateMetrics_keeps_state s) as K.
  unfold keeps, keysView in *. now rewrite K.
Qed.

(** X4.  In a cycle that finds no new L1 block the status Relayed is
    final and records are never rewritten: the queue keeps its keys in
    their order, a record marked Relayed is kept as it is, and a Pending
    record is either kept as it is or marked Relayed, by every step
    ([checkRelayedMessages], [relayPendingMessages], [updateMetrics]) and
    so by the whole of [main], however the L2 reads and the relays turn
    out. *)
Theorem main_without_new_blocks_only_marks (s : Sigma W) w1 latest :
  Provider.getBlockNumber (Options.l1RpcProvider options) (world s)
  = (w1, Ok latest) ->
  latest <= State.lastScannedL1Block (state s) ->
  Map_keys (State.messageQueue (state (fst (main options s))))
  = Map_keys (State.messageQueue (state s))
  /\ forall k m,
       Map_get (State.messageQueue (state s)) k = Some m ->
       (Message.isRelayed m = true ->
        Map_get (State.messageQueue (state (fst (main options s)))) k = Some m)
       /\ (Message.isRelayed m = false ->
           Map_get (State.messageQueue (state (fst (main options s)))) k
           = Some m
           \/ Map_get (State.messageQueue (state (fst (main options s)))) k
              = Some (Message.markRelayed m)).
Proof.
  intros Hhead Hle. unfold main. rewrite bind_run.
  rewrite (indexNewMessages_idle options s w1 latest Hhead Hle).
  match goal with
  | |- context [bind ?m ?k ?s0] =>
      pose proof (after_scan_onlyMarks s0) as Hmarks;
      pose proof (after_scan_keeps_keys s0) as Hkeys;
      destruct (bind m k s0) as [s' r']
  end; cbn [fst] in *.
  unfold keeps, keysView in Hkeys. cbn in Hkeys. split; [exact Hkeys|].
  intros k m Hg. specialize (Hmarks k). cbn in Hmarks. split.
  - intros Hr. destruct Hmarks as [E|(m' & Hg' & Hp & _)]; [congruence|].
    rewrite Hg in Hg'. injection Hg' as <-. congruence.
  - intros Hp. destruct Hmarks as [E|(m' & Hg' & _ & E)].
    + left. congruence.
    + right. rewrite Hg in Hg'. injection Hg' as <-. exact E.
Qed.

(** X5.  [main] throws only when one of its two scans throws, with the
    same error; it then ends at once, so that cycle attempts no relay at
    all, not even for messages that were already stored and Pending: the
    console of the cycle names no relay attempt and no relay failure.
    [relayPendingMessages] and [updateMetrics] never throw. *)
Theorem main_throws_only_from_scans (s : Sigma W) (e : Error) :
  snd (main options s) = Throw e ->
  (indexNewMessages options s = (fst (main options s), Throw e)
   \/ exists s1,
        indexNewMessages options s = (s1, Ok tt)
        /\ checkRelayedMessages options s1 = (fst (main options s), Throw e))
  /\ exists lines,
       console (fst (main options s)) = console s ++ lines
       /\ attempted lines = [] /\ failed lines = [].
Proof.
  unfold main. rewrite bind_run.
  pose proof (indexNewMessages_noRelayLine options s) as N1.
  destruct (indexNewMessages options s) as [s1 [[]|e1]]; cbn [fst snd] in *.
  2: { intros [= ->]. split; [now left|exact N1]. }
  rewrite bind_run.
  pose proof (checkRelayedMessages_noRelayLine options s1) as N2.
  destruct (checkRelayedMessages options s1) as [s2 [[]|e2]] eqn:E2;
    cbn [fst snd] in *.
  2: { intros [= ->]. split; [right; now exists s1|].
       exact (frame_trans _ _ _ N1 N2). }
  rewrite bind_run.
  assert (Hrelay : relayPendingMessages options s2
                   = forOf (State.messageQueue (state s2)) (relayOne options) s2)
    by reflexivity.
  pose proof (forOf_relayOne_returns options (State.messageQueue (state s2)) s2)
    as Hok.
  rewrite <- Hrelay in Hok.
  destruct (relayPendingMessages options s2) as [s3 r3]. cbn [snd] in Hok.
  subst r3. discriminate.
Qed.

Ltac distinct_leaf' :=
  unfold keysStayDistinct; cbn -[Map_keys]; rewrite ?Map_keys_mutate; auto.

Lemma indexNewMessages_distinct :
  stable keysStayDistinct (indexNewMessages options).
Proof.
  unfold indexNewMessages, getSentMessageEvents.
  repeat first [apply addToQueue_distinct | frame_step distinct_leaf'].
Qed.

Lemma checkRelayedMessages_distinct :
  stable keysStayDistinct (checkRelayedMessages options).
Proof.
  unfold checkRelayedMessages, confirmRelayed, setRelayed,
    getRelayedMessageEvents.
  frames distinct_leaf'.
Qed.

(** X6.  After a relay pass the Pending messages are exactly the ones whose
    relay failed in that pass: for a queue with distinct keys (as the keys
    of a Map are) the hashes of the Pending records afterwards are, in
    queue order, the hashes named by the [Failed to relay message] lines
    the pass wrote; so a pass without failure leaves no record Pending.  The
    gauges follow: [messagesRelayed] has grown, and [pendingMessages] has
    dropped, by the number of attempts less the number of failures. *)
Theorem relayPendingMessages_leaves_failed_pending (s : Sigma W) :
  NoDup (Map_keys (State.messageQueue (state s))) ->
  exists lines,
    console (fst (relayPendingMessages options s)) = console s ++ lines
    /\ attempted lines = pendingHashes (State.messageQueue (state s))
    /\ pendingHashes
         (State.messageQueue (state (fst (relayPendingMessages options s))))
       = failed lines
    /\ (failed lines = [] ->
        forall k m,
          In (k, m)
            (State.messageQueue (state (fst (relayPendingMessages options s)))) ->
          Message.isRelayed m = true)
    /\ Metrics.messagesRelayed (metrics (fst (relayPendingMessages options s)))
       = Metrics.messagesRelayed (metrics s)
         + (Z.of_nat (List.length (attempted lines))
            - Z.of_nat (List.length (failed lines)))
    /\ Metrics.pendingMessages (metrics (fst (relayPendingMessages options s)))
       = Metrics.pendingMessages (metrics s)
         - (Z.of_nat (List.length (attempted lines))
            - Z.of_nat (List.length (failed lines))).
Proof.
  intros Hnd.
  assert (Hrun : relayPendingMessages options s
                 = forOf (State.messageQueue (state s)) (relayOne options) s)
    by reflexivity.
  rewrite Hrun. clear Hrun.
  destruct (relayEach_exact options (State.messageQueue (state s)) [] s
              eq_refl Hnd)
    as (l' & lines & Hq & Hc & _ & Ha & Hf & Hrel & Hpen & _).
  rewrite app_nil_l in Hq. exists lines. rewrite Hq.
  split; [exact Hc|]. split; [exact Ha|]. split; [now rewrite Hf|].
  split; [|lia].
  intros Hnone. apply pendingHashes_all_relayed. congruence.
Qed.

(** X7.  At the end of every cycle that completes, the gauge
    [pendingMessages] is the number of stored messages that are not marked
    Relayed; and when the keys of the queue were distinct at the start,
    these messages are exactly the ones whose relay failed in this cycle,
    in queue order. *)
Theorem main_completed_gauge_counts_pending (s : Sigma W) :
  snd (main options s) = Ok tt ->
  Metrics.pendingMessages (metrics (fst (main options s)))
  = Z.of_nat
      (List.length
         (pendingHashes (State.messageQueue (state (fst (main options s))))))
  /\ (NoDup (Map_keys (State.messageQueue (state s))) ->
      exists lines,
        console (fst (main options s)) = console s ++ lines
        /\ pendingHashes (State.messageQueue (state (fst (main options s))))
           = failed lines).
Proof.
  unfold main. rewrite bind_run.
  pose proof (indexNewMessages_noRelayLine options s) as N1.
  pose proof (indexNewMessages_distinct s) as D1.
  destruct (indexNewMessages options s) as [s1 [[]|e1]]; cbn [fst snd] in *;
    [|discriminate].
  rewrite bind_run.
  pose proof (checkRelayedMessages_noRelayLine options s1) as N2.
  pose proof (checkRelayedMessages_distinct s1) as D2.
  destruct (checkRelayedMessages options s1) as [s2 [[]|e2]];
    cbn [fst snd] in *; [|discriminate].
  rewrite bind_run.
  pose proof (fun Hnd =>
                relayEach_exact options (State.messageQueue (state s2)) [] s2
                  eq_refl Hnd) as R3.
  change (forOf (State.messageQueue (state s2)) (relayOne options) s2)
    with (relayPendingMessages options s2) in R3.
  assert (Hrelay : relayPendingMessages options s2
                   = forOf (State.messageQueue (state s2)) (relayOne options) s2)
    by reflexivity.
  pose proof (forOf_relayOne_returns options (State.messageQueue (state s2)) s2)
    as Hok.
  rewrite <- Hrelay in Hok. clear Hrelay.
  destruct (relayPendingMessages options s2) as [s3 r3]. cbn [fst snd] in *.
  subst r3. intros _. unfold updateMetrics.
  rewrite bind_run, getState_run, modifyMetrics_run. cbn.
  split; [apply pendingCount_pendingHashes|].
  intros Hnd.
  destruct (R3 (D2 (D1 Hnd))) as (l' & lines3 & Hq3 & Hc3 & _ & _ & Hp3 & _).
  rewrite app_nil_l in Hq3. rewrite Hq3, <- Hp3.
  destruct (frame_trans _ _ _ N1 N2) as (lines12 & Hc12 & _ & Hf12).
  exists (lines12 ++ lines3).
  rewrite Hc3, Hc12, <- app_assoc, failed_app, Hf12. cbn. auto.
Qed.

(** X8.  No cycle removes a message or moves it: over any number of calls
    of [main], returning or throwing, the keys of the queue stay where they
    are and new keys go last, so the queue never shrinks and a hash that is
    stored stays stored. *)
Theorem loop_never_removes_a_message (n : nat) (s : Sigma W) :
  (exists added,
      Map_keys (State.messageQueue (state (loop options n s)))
      = Map_keys (State.messageQueue (state s)) ++ added)
  /\ Map_size (State.messageQueue (state s))
     <= Map_size (State.messageQueue (state (loop options n s)))
  /\ forall k,
       Map_get (State.messageQueue (state s)) k <> None ->
       Map_get (State.messageQueue (state (loop options n s))) k <> None.
Proof.
  destruct (loop_keysGrow options n s) as [added Hkeys].
  split; [now exists added|]. split.
  - unfold Map_size.
    rewrite <- (length_map fst (State.messageQueue (state s))),
      <- (length_map fst (State.messageQueue (state (loop options n s)))).
    change (map fst ?q) with (Map_keys q). rewrite Hkeys, length_app. lia.
  - intros k Hk Hnone. apply Map_get_None_keys in Hnone. apply Hk.
    apply Map_get_None_keys. intros Hin. apply Hnone. rewrite Hkeys.
    apply in_or_app. now left.
Qed.

End CycleProperties.

(* ================================================================== *)
(** * The relay call *)

Section RelayCall.

Context {W : Type} `{Ethers} `{Constants}.

(** X9.  [relayL1Message] returns a receipt only after the relay
    transaction was sent and its receipt was found: the nonce argument
    converted to the versioned nonce; [eth_sendTransaction] went out from
    the aliased L1 messenger to the L2 messenger with the [relayMessage]
    call on the versioned nonce and the arguments as given, and was
    answered with a transaction hash; the receipt returned is the one the
    provider gave for that hash.  The transaction carries the value exactly
    when the value is not zero, and then the balance of the aliased
    messenger was set to that value first; with value zero no balance is
    set.  State and gauges are untouched, and the console gained the lines
    of these steps. *)
Theorem relayL1Message_returns_after_send_and_receipt
    (provider : Provider.t W) l1Sender target message nonce value minGasLimit
    (s s' : Sigma W) (receipt : Receipt.t) :
  relayL1Message provider l1Sender target message nonce value minGasLimit s
  = (s', Ok receipt) ->
  exists submitted w w' txHash,
    versionedNonce nonce = Ok submitted
    /\ Provider.send provider
         (eth_sendTransaction L1_MESSENGER_ADDRESS_ALIAS
            L2_CROSS_DOMAIN_MESSENGER_ADDRESS
            (if BigNumber_isZero value then None else Some value)
            (relayMessage submitted l1Sender target value minGasLimit message))
         w
       = (w', Ok txHash)
    /\ Provider.getTransactionReceipt provider txHash w'
       = (world s', Ok (Some receipt))
    /\ (value = 0 -> w = world s)
    /\ (value <> 0 ->
        exists answer,
          Provider.send provider
            (tenderly_setBalance L1_MESSENGER_ADDRESS_ALIAS value) (world s)
          = (w, Ok answer))
    /\ state s' = state s
    /\ metrics s' = metrics s
    /\ console s'
       = console s
         ++ (if BigNumber_isZero value then [] else [SetMessengerBalance value])
         ++ [RelayTransactionSent txHash;
             TransactionConfirmed (Receipt.blockNumber receipt)].
Proof.
  rewrite relayL1Message_run.
  destruct (versionedNonce nonce) as [submitted|e]; [|discriminate].
  rewrite submitRelay_run. cbv zeta.
  destruct (BigNumber_isZero value) eqn:Hz; unfold BigNumber_isZero in Hz.
  - apply Z.eqb_eq in Hz.
    destruct (relayTransaction _ _ _ _ _ _) as [tx|e] eqn:Htx; [|discriminate].
    apply relayTransaction_Ok in Htx as [-> _].
    cbn [PopulatedTransaction.to PopulatedTransaction.value
         PopulatedTransaction.data].
    replace (BigNumber_isZero value) with true
      by (unfold BigNumber_isZero; symmetry; now apply Z.eqb_eq).
    destruct (Provider.send provider _ (world s)) as [w2 [txHash|e]] eqn:Hsend;
      [|discriminate].
    destruct (Provider.getTransactionReceipt provider txHash w2)
      as [w3 [[r|]|e]] eqn:Hrec; try discriminate.
    intros [= <- <-]. exists submitted, (world s), w2, txHash. cbn.
    repeat split; try assumption; try tauto.
    now rewrite <- app_assoc.
  - apply Z.eqb_neq in Hz.
    destruct (Provider.send provider (tenderly_setBalance _ _) (world s))
      as [w [answer|e]] eqn:Hset; [|discriminate].
    destruct (relayTransaction _ _ _ _ _ _) as [tx|e] eqn:Htx; [|discriminate].
    apply relayTransaction_Ok in Htx as [-> _].
    cbn [PopulatedTransaction.to PopulatedTransaction.value
         PopulatedTransaction.data world state metrics console].
    replace (BigNumber_isZero value) with false
      by (unfold BigNumber_isZero; symmetry; now apply Z.eqb_neq).
    destruct (Provider.send provider _ w) as [w2 [txHash|e]] eqn:Hsend;
      [|discriminate].
    destruct (Provider.getTransactionReceipt provider txHash w2)
      as [w3 [[r|]|e]] eqn:Hrec; try discriminate.
    intros [= <- <-]. exists submitted, w, w2, txHash. cbn.
    repeat split; try assumption; try tauto.
    + intros _. now exists answer.
    + now rewrite <- !app_assoc.
Qed.

(** X10.  When [relayL1Message] throws, state and gauges are as before, and
    either the nonce argument was refused, which happens before the [try]
    block, so that nothing was sent and nothing was logged; or the error
    comes from the [try] block, and then the last line on the console is
    [Error relaying message] with that same error, which is rethrown.
    Three such errors.  When the value is not zero and the provider refuses
    [tenderly_setBalance], the call ends there and no transaction is sent.
    When the contract call refuses the arguments -- as it does every gas
    limit of [2 ^ 53 - 1] or more -- the call ends there: no transaction is
    sent, but the balance step, if there was one, has been carried out.
    When the arguments are accepted, the relay transaction was sent and the
    provider has no receipt for it yet (it answers null), reading
    [receipt.blockNumber] raises a TypeError, although the transaction is
    out. *)
Theorem relayL1Message_rethrows_what_it_logs
    (provider : Provider.t W) l1Sender target message nonce
    (value : BigNumber) minGasLimit (s : Sigma W) :
  (forall s' e,
      relayL1Message provider l1Sender target message nonce value minGasLimit s
      = (s', Throw e) ->
      state s' = state s /\ metrics s' = metrics s
      /\ ((versionedNonce nonce = Throw e /\ s' = s)
          \/ exists submitted lines,
               versionedNonce nonce = Ok submitted
               /\ console s' = console s ++ lines ++ [ErrorRelaying e]))
  /\ (forall submitted w e,
         value <> 0 ->
         versionedNonce nonce = Ok submitted ->
         Provider.send provider
           (tenderly_setBalance L1_MESSENGER_ADDRESS_ALIAS value) (world s)
         = (w, Throw e) ->
         relayL1Message provider l1Sender target message nonce value
           minGasLimit s
         = ({| world := w; state := state s; metrics := metrics s;
               console := console s ++ [ErrorRelaying e] |},
            Throw e))
  /\ (forall submitted e w lines,
         versionedNonce nonce = Ok submitted ->
         relayTransaction submitted l1Sender target value minGasLimit message
         = Throw e ->
         balanceStepAnswered provider value (world s) w lines ->
         relayL1Message provider l1Sender target message nonce value
           minGasLimit s
         = ({| world := w; state := state s; metrics := metrics s;
               console := console s ++ lines ++ [ErrorRelaying e] |},
            Throw e))
  /\ (forall submitted,
         2 ^ 53 - 1 <= minGasLimit ->
         isOk (relayTransaction submitted l1Sender target value minGasLimit
                 message)
         = false)
  /\ (forall submitted tx w lines w2 w3 txHash,
         versionedNonce nonce = Ok submitted ->
         relayTransaction submitted l1Sender target value minGasLimit message
         = Ok tx ->
         balanceStepAnswered provider value (world s) w lines ->
         Provider.send provider
           (eth_sendTransaction L1_MESSENGER_ADDRESS_ALIAS
              L2_CROSS_DOMAIN_MESSENGER_ADDRESS
              (if BigNumber_isZero value then None else Some value)
              (relayMessage submitted l1Sender target value minGasLimit
                 message))
           w
         = (w2, Ok txHash) ->
         Provider.getTransactionReceipt provider txHash w2 = (w3, Ok None) ->
         relayL1Message provider l1Sender target message nonce value
           minGasLimit s
         = ({| world := w3; state := state s; metrics := metrics s;
               console :=
                 console s ++ lines
                 ++ [RelayTransactionSent txHash;
                     ErrorRelaying (TypeError "receipt.blockNumber")] |},
            Throw (TypeError "receipt.blockNumber"))).
Proof.
  split; [|split; [|split; [|split]]].
  - intros s' e. rewrite relayL1Message_run.
    destruct (versionedNonce nonce) as [submitted|e0].
    2: { intros [= <- <-]. auto. }
    pose proof (submitRelay_quiet provider submitted l1Sender target message
                  value minGasLimit s) as (Ks & Km & lines & Kc & _).
    destruct (submitRelay _ _ _ _ _ _ _ s) as [s1 [receipt|e1]];
      [discriminate|].
    cbn [fst] in Ks, Km, Kc. intros [= <- <-]. cbn [state metrics console].
    split; [exact Ks|]. split; [exact Km|]. right.
    exists submitted, lines. split; [reflexivity|].
    now rewrite Kc, app_assoc.
  - intros submitted w e Hnz Hv Hset.
    rewrite relayL1Message_run, Hv, submitRelay_run. cbv zeta.
    unfold BigNumber_isZero.
    destruct (Z.eqb_spec value 0) as [|_]; [contradiction|].
    rewrite Hset. reflexivity.
  - intros submitted e w lines Hv Htx Hfund.
    now apply relayL1Message_refuses with submitted.
  - intros submitted Hgas.
    destruct (relayTransaction submitted l1Sender target value minGasLimit
                message) as [tx|e] eqn:Htx; [|reflexivity].
    apply relayTransaction_accepted in Htx as (_ & _ & _ & _ & Hg & _). lia.
  - intros submitted tx w lines w2 w3 txHash Hv Htx Hfund Hsend Hrec.
    rewrite (relayL1Message_submits provider l1Sender target message nonce
               value minGasLimit s submitted tx w lines Hv Htx Hfund).
    now rewrite Hsend, Hrec.
Qed.

End RelayCall.

(* ================================================================== *)
(** * The versioned nonce *)

(** X11.  The number [relayL1Message] computes as versioned nonce, before
    it submits anything, for every nonce argument.  For an argument that
    converts to a number [n >= 0] it is [n] with bit 240 set: [n] itself
    when that bit is set already, [n + 2 ^ 240] otherwise; all other bits
    are those of [n]; the version tag (the bits from 240 up) is the tag of
    [n] with its lowest bit set, so an even tag goes up by one and an odd
    tag is kept; the result is a [uint256] exactly when [n] is one, so that
    for [n] of [2 ^ 256] or more the computed nonce is one the ABI coder
    refuses; and versioning the result again changes nothing.  For a
    negative number the computation throws, and so it does for an argument
    that converts to no number. *)
Theorem versionedNonce_sets_bit_240 (nonce : BigNumberish) :
  (forall submitted,
      versionedNonce nonce = Ok submitted ->
      exists n,
        BigNumber_from nonce = Ok n /\ 0 <= n
        /\ submitted = (if Z.testbit n 240 then n else n + 2 ^ 240)
        /\ Z.testbit submitted 240 = true
        /\ (forall i, i <> 240 -> Z.testbit submitted i = Z.testbit n i)
        /\ nonceVersion submitted = Z.lor 1 (nonceVersion n)
        /\ (submitted < 2 ^ 256 <-> n < 2 ^ 256)
        /\ (2 ^ 256 <= n ->
            NumberCoder_encode (ArgBigNumber submitted)
            = Throw (InvalidArgument "value out-of-bounds"))
        /\ versionedNonce (ArgBigNumber submitted) = Ok submitted)
  /\ (forall n,
         BigNumber_from nonce = Ok n -> n < 0 ->
         versionedNonce nonce = Throw (NumericFault "unbound-bitwise-result"))
  /\ (forall e,
         BigNumber_from nonce = Throw e -> versionedNonce nonce = Throw e).
Proof.
  unfold versionedNonce, BigNumber_or, BigNumber_shl.
  rewrite shiftl_1_240_sign, shiftl_1_240. cbn [orb].
  split; [|split].
  - intros submitted. destruct (BigNumber_from nonce) as [n|e]; cbn [rbind];
      [|discriminate].
    destruct (Z.ltb_spec n 0) as [Hneg|Hpos]; [discriminate|].
    intros Hsub. apply Ok_inj in Hsub. subst submitted.
    exists n. split; [reflexivity|]. split; [assumption|].
    split; [now apply lor_version_bit|].
    assert (Hbit : Z.testbit (Z.lor (2 ^ 240) n) 240 = true).
    { rewrite Z.lor_spec, testbit_pow2_240 by lia. reflexivity. }
    split; [exact Hbit|]. split.
    { intros i Hi. destruct (Z.neg_nonneg_cases i) as [Hni|Hnn].
      - now rewrite !Z.testbit_neg_r.
      - rewrite Z.lor_spec, testbit_pow2_240 by assumption.
        destruct (Z.eqb_spec 240 i); [congruence|reflexivity]. }
    split.
    { unfold nonceVersion. rewrite Z.shiftr_lor.
      assert (E : Z.shiftr (2 ^ 240) 240 = 1)
        by (rewrite Z.shiftr_div_pow2 by lia; apply Z.div_same; lia).
      now rewrite E. }
    split.
    { split; intros Hhi.
      - pose proof (lor_version_ge n Hpos). lia.
      - apply lor_version_uint256. lia. }
    split.
    { intros Hwide. pose proof (lor_version_ge n Hpos) as Hge.
      unfold NumberCoder_encode. cbn [BigNumber_from rbind].
      destruct (Z.ltb_spec (Z.lor (2 ^ 240) n) 0) as [Hlt|_]; [lia|].
      destruct (Z.ltb_spec (2 ^ 256 - 1) (Z.lor (2 ^ 240) n)) as [_|Hle];
        [reflexivity|lia]. }
    cbn [BigNumber_from rbind].
    assert (Hnn : 0 <= Z.lor (2 ^ 240) n) by (apply Z.lor_nonneg; lia).
    destruct (Z.ltb_spec (Z.lor (2 ^ 240) n) 0) as [Hlt|_]; [lia|].
    f_equal. rewrite Z.lor_assoc, Z.lor_diag. reflexivity.
  - intros n -> Hneg. cbn [rbind].
    destruct (Z.ltb_spec n 0) as [_|Hpos]; [reflexivity|lia].
  - intros e ->. reflexivity.
Qed.

(* ================================================================== *)
(** * The encoding determines the message *)

Lemma Z_of_byte_range (b : byte) : 0 <= Z_of_byte b < 256.
Proof.
  unfold Z_of_byte. pose proof (Byte.to_N_bounded b) as Hb.
  split; [apply N2Z.is_nonneg|]. apply N2Z.inj_le in Hb. cbn in Hb. lia.
Qed.

Lemma Z_of_byte_of_Z (z : Z) : Z_of_byte (byte_of_Z z) = z mod 256.
Proof.
  unfold Z_of_byte, byte_of_Z.
  assert (Hr : 0 <= z mod 256 < 256) by (apply Z.mod_pos_bound; lia).
  destruct (Byte.of_N (Z.to_N (z mod 256))) as [b|] eqn:E.
  - apply Byte.to_of_N in E. rewrite E. apply Z2N.id. lia.
  - apply Byte.of_N_None_iff in E. apply N2Z.inj_lt in E.
    rewrite Z2N.id in E by lia. cbn in E. lia.
Qed.

Lemma byte_of_Z_of_byte (b : byte) : byte_of_Z (Z_of_byte b) = b.
Proof.
  unfold byte_of_Z. rewrite Z.mod_small by apply Z_of_byte_range.
  unfold Z_of_byte. now rewrite N2Z.id, Byte.of_to_N.
Qed.

Lemma length_bigEndian (n : nat) (v : Z) : List.length (bigEndian n v) = n.
Proof.
  revert v. induction n as [|n IH]; intros v; cbn [bigEndian]; [reflexivity|].
  rewrite length_app, IH. cbn. lia.
Qed.

Lemma app_inj_length {A} (a a' b b' : list A) :
  List.length a = List.length a' -> a ++ b = a' ++ b' -> a = a' /\ b = b'.
Proof.
  revert a'. induction a as [|x a IH]; intros [|x' a']; cbn;
    try discriminate; [auto|].
  intros [= Hlen] [= -> Happ]. destruct (IH a' Hlen Happ) as [-> ->]. auto.
Qed.

(** A big-endian word determines the number it was written from. *)
Lemma bigEndian_inj (n : nat) (v v' : Z) :
  0 <= v < 256 ^ Z.of_nat n -> 0 <= v' < 256 ^ Z.of_nat n ->
  bigEndian n v = bigEndian n v' -> v = v'.
Proof.
  revert v v'. induction n as [|n IH]; intros v v' Hv Hv'.
  - cbn in Hv, Hv'. lia.
  - cbn [bigEndian]. intros Heq. apply app_inj_tail in Heq as [Hhi Hlo].
    rewrite Nat2Z.inj_succ, Z.pow_succ_r in Hv, Hv' by lia.
    assert (Hmod : v mod 256 = v' mod 256)
      by (rewrite <- !Z_of_byte_of_Z; congruence).
    assert (Hdiv : v / 256 = v' / 256).
    { apply IH; [| |assumption]; split;
        try (apply Z.div_pos; lia);
        apply Z.div_lt_upper_bound; lia. }
    rewrite (Z.div_mod v 256), (Z.div_mod v' 256) by lia. congruence.
Qed.

Lemma word_inj (v v' : Z) :
  0 <= v < 2 ^ 256 -> 0 <= v' < 2 ^ 256 ->
  bigEndian 32 v = bigEndian 32 v' -> v = v'.
Proof.
  intros Hv Hv'. apply bigEndian_inj; assumption.
Qed.

Lemma Writer_writeValue_Ok (v : Z) (w : list byte) :
  Writer_writeValue v = Ok w -> 0 <= v < 2 ^ 256 /\ w = bigEndian 32 v.
Proof.
  unfold Writer_writeValue.
  destruct (Z.leb_spec 0 v); cbn [andb]; [|discriminate].
  destruct (Z.ltb_spec v (2 ^ 256)); [|discriminate].
  intros Hw. apply Ok_inj in Hw. auto.
Qed.

Lemma NumberCoder_encode_Ok (x : BigNumberish) (w : list byte) :
  NumberCoder_encode x = Ok w ->
  exists v, BigNumber_from x = Ok v /\ 0 <= v < 2 ^ 256 /\ w = bigEndian 32 v.
Proof.
  unfold NumberCoder_encode.
  destruct (BigNumber_from x) as [v|e]; cbn [rbind]; [|discriminate].
  destruct ((v <? 0) || (2 ^ 256 - 1 <? v)); [discriminate|].
  intros Hw. apply Writer_writeValue_Ok in Hw. exists v. tauto.
Qed.

Section EncodingFacts.

Context `{Ethers}.

Lemma AddressCoder_encode_Ok (a : string) (w : list byte) :
  AddressCoder_encode a = Ok w ->
  exists v, getAddress a = Some v /\ 0 <= v < 2 ^ 256 /\ w = bigEndian 32 v.
Proof.
  unfold AddressCoder_encode.
  destruct (getAddress a) as [v|]; [|discriminate].
  intros Hw. apply Writer_writeValue_Ok in Hw. exists v. tauto.
Qed.

Lemma BytesCoder_encode_Ok (data : string) (w : list byte) :
  BytesCoder_encode data = Ok w ->
  exists bytes,
    arrayify data = Ok bytes
    /\ 0 <= Z.of_nat (List.length bytes) < 2 ^ 256
    /\ w = bigEndian 32 (Z.of_nat (List.length bytes)) ++ bytes
           ++ padding (List.length bytes).
Proof.
  unfold BytesCoder_encode.
  destruct (arrayify data) as [bytes|e]; cbn [rbind]; [|discriminate].
  destruct (Writer_writeValue (Z.of_nat (List.length bytes))) as [len|e] eqn:E;
    cbn [rbind]; [|discriminate].
  apply Writer_writeValue_Ok in E as [Hr ->].
  intros Hw. apply Ok_inj in Hw. exists bytes. auto.
Qed.

(** What an encoding that was returned is made of. *)
Lemma encodeCrossDomainMessageV1_Ok nonce sender target value gasLimit data
    encoded :
  encodeCrossDomainMessageV1 nonce sender target value gasLimit data
  = Ok encoded ->
  exists vn vs vt vg bytes,
    BigNumber_from nonce = Ok vn /\ 0 <= vn < 2 ^ 256
    /\ getAddress sender = Some vs /\ 0 <= vs < 2 ^ 256
    /\ getAddress target = Some vt /\ 0 <= vt < 2 ^ 256
    /\ 0 <= value < 2 ^ 256
    /\ BigNumber_from gasLimit = Ok vg /\ 0 <= vg < 2 ^ 256
    /\ arrayify data = Ok bytes
    /\ 0 <= Z.of_nat (List.length bytes) < 2 ^ 256
    /\ encoded
       = getSighash relayMessageSignature
         ++ bigEndian 32 vn ++ bigEndian 32 vs ++ bigEndian 32 vt
         ++ bigEndian 32 value ++ bigEndian 32 vg ++ bigEndian 32 192
         ++ bigEndian 32 (Z.of_nat (List.length bytes)) ++ bytes
         ++ padding (List.length bytes).
Proof.
  unfold encodeCrossDomainMessageV1.
  destruct (NumberCoder_encode nonce) as [wn|e] eqn:En; cbn [rbind];
    [|discriminate].
  destruct (AddressCoder_encode sender) as [ws|e] eqn:Es; cbn [rbind];
    [|discriminate].
  destruct (AddressCoder_encode target) as [wt|e] eqn:Et; cbn [rbind];
    [|discriminate].
  destruct (NumberCoder_encode (ArgBigNumber value)) as [wv|e] eqn:Ev;
    cbn [rbind]; [|discriminate].
  destruct (NumberCoder_encode gasLimit) as [wg|e] eqn:Eg; cbn [rbind];
    [|discriminate].
  destruct (BytesCoder_encode data) as [tail|e] eqn:Ed; cbn [rbind];
    [|discriminate].
  rewrite (Writer_writeValue_fits 192) by lia. cbn [rbind].
  apply NumberCoder_encode_Ok in En as (vn & Hn & Hnr & ->).
  apply AddressCoder_encode_Ok in Es as (vs & Hs & Hsr & ->).
  apply AddressCoder_encode_Ok in Et as (vt & Ht & Htr & ->).
  apply NumberCoder_encode_Ok in Ev as (vv & Hv & Hvr & ->).
  apply NumberCoder_encode_Ok in Eg as (vg & Hg & Hgr & ->).
  apply BytesCoder_encode_Ok in Ed as (bytes & Hd & Hdr & ->).
  cbn [BigNumber_from] in Hv. apply Ok_inj in Hv. subst vv.
  intros Henc. apply Ok_inj in Henc. subst encoded.
  exists vn, vs, vt, vg, bytes.
  repeat (split; [assumption|]). reflexivity.
Qed.

(** Equal encodings come from equal values. *)
Lemma encoding_determines_values
    nonce sender target value gasLimit data
    nonce' sender' target' value' gasLimit' data' encoded :
  encodeCrossDomainMessageV1 nonce sender target value gasLimit data
  = Ok encoded ->
  encodeCrossDomainMessageV1 nonce' sender' target' value' gasLimit' data'
  = Ok encoded ->
  BigNumber_from nonce = BigNumber_from nonce'
  /\ getAddress sender = getAddress sender'
  /\ getAddress target = getAddress target'
  /\ value = value'
  /\ BigNumber_from gasLimit = BigNumber_from gasLimit'
  /\ arrayify data = arrayify data'.
Proof.
  intros H1 H2.
  apply encodeCrossDomainMessageV1_Ok in H1
    as (vn & vs & vt & vg & bytes & Hn & Hnr & Hs & Hsr & Ht & Htr & Hvr
        & Hg & Hgr & Hd & Hdr & ->).
  apply encodeCrossDomainMessageV1_Ok in H2
    as (vn' & vs' & vt' & vg' & bytes' & Hn' & Hnr' & Hs' & Hsr' & Ht' & Htr'
        & Hvr' & Hg' & Hgr' & Hd' & Hdr' & Heq).
  apply app_inv_head in Heq.
  repeat match type of Heq with
         | bigEndian 32 ?a ++ _ = bigEndian 32 ?b ++ _ =>
             let E := fresh "E" in
             apply app_inj_length in Heq as [E Heq];
             [apply word_inj in E; [|first [assumption|lia]..]
             |now rewrite !length_bigEndian]
         end.
  apply Nat2Z.inj in E5.
  apply app_inj_length in Heq as [Hbytes _]; [|assumption].
  subst. rewrite Hn, Hn', Hs, Hs', Ht, Ht', Hg, Hg', Hd, Hd'. auto 10.
Qed.

(** X12.  The encoding of a cross-domain message determines the message:
    when [encodeCrossDomainMessageV1] returns the same bytes for two
    argument lists, the two lists denote the same six values -- the same
    nonce, the same sender and target address, the same value, the same gas
    limit and the same payload bytes. *)
Theorem encodeCrossDomainMessageV1_injective
    nonce sender target value gasLimit data
    nonce' sender' target' value' gasLimit' data' encoded :
  encodeCrossDomainMessageV1 nonce sender target value gasLimit data
  = Ok encoded ->
  encodeCrossDomainMessageV1 nonce' sender' target' value' gasLimit' data'
  = Ok encoded ->
  BigNumber_from nonce = BigNumber_from nonce'
  /\ getAddress sender = getAddress sender'
  /\ getAddress target = getAddress target'
  /\ value = value'
  /\ BigNumber_from gasLimit = BigNumber_from gasLimit'
  /\ arrayify data = arrayify data'.
Proof.
  apply encoding_determines_values.
Qed.

Lemma hexDigitValue_hexDigit (v : Z) :
  0 <= v < 16 -> hexDigitValue (hexDigit v) = Some v.
Proof.
  intros Hv.
  assert (Hcases : v = 0 \/ v = 1 \/ v = 2 \/ v = 3 \/ v = 4 \/ v = 5 \/ v = 6
                   \/ v = 7 \/ v = 8 \/ v = 9 \/ v = 10 \/ v = 11 \/ v = 12
                   \/ v = 13 \/ v = 14 \/ v = 15) by lia.
  repeat (destruct Hcases as [->|Hcases]; [reflexivity|]).
  now subst.
Qed.

Lemma hexChars_inj (bs bs' : list byte) :
  hexChars bs = hexChars bs' -> bs = bs'.
Proof.
  revert bs'. induction bs as [|b bs IH]; intros [|b' bs']; cbn [hexChars];
    try discriminate; [reflexivity|].
  intros Heq. injection Heq as Hhi Hlo Hrest.
  pose proof (Z_of_byte_range b) as Hb.
  pose proof (Z_of_byte_range b') as Hb'.
  apply (f_equal hexDigitValue) in Hhi, Hlo.
  rewrite !hexDigitValue_hexDigit in Hhi, Hlo
    by first [ apply Z.mod_pos_bound; lia
             | split; [apply Z.div_pos; lia|apply Z.div_lt_upper_bound; lia] ].
  injection Hhi as Hhi. injection Hlo as Hlo.
  assert (Hz : Z_of_byte b = Z_of_byte b')
    by (rewrite (Z.div_mod (Z_of_byte b) 16),
          (Z.div_mod (Z_of_byte b') 16) by lia; congruence).
  f_equal; [|now apply IH].
  rewrite <- (byte_of_Z_of_byte b), <- (byte_of_Z_of_byte b'). now rewrite Hz.
Qed.

Lemma hexlify_inj (bs bs' : list byte) : hexlify bs = hexlify bs' -> bs = bs'.
Proof. unfold hexlify. intros [= Heq]. now apply hexChars_inj. Qed.

(** X13.  Two messages get the same identity hash only when they are the
    same message or Keccak-256 collides: if [hashCrossDomainMessageV1]
    returns the same digest for two argument lists, then either the lists
    denote the same six values, or their two encodings are different byte
    strings with the same Keccak-256 digest. *)
Theorem hashCrossDomainMessageV1_collision
    nonce sender target value gasLimit data
    nonce' sender' target' value' gasLimit' data' digest :
  hashCrossDomainMessageV1 nonce sender target value gasLimit data
  = Ok digest ->
  hashCrossDomainMessageV1 nonce' sender' target' value' gasLimit' data'
  = Ok digest ->
  (BigNumber_from nonce = BigNumber_from nonce'
   /\ getAddress sender = getAddress sender'
   /\ getAddress target = getAddress target'
   /\ value = value'
   /\ BigNumber_from gasLimit = BigNumber_from gasLimit'
   /\ arrayify data = arrayify data')
  \/ exists encoded encoded',
       encodeCrossDomainMessageV1 nonce sender target value gasLimit data
       = Ok encoded
       /\ encodeCrossDomainMessageV1 nonce' sender' target' value' gasLimit'
            data'
          = Ok encoded'
       /\ encoded <> encoded'
       /\ keccak256 encoded = keccak256 encoded'.
Proof.
  unfold hashCrossDomainMessageV1.
  destruct (encodeCrossDomainMessageV1 nonce sender target value gasLimit data)
    as [encoded|e] eqn:E1; cbn [rbind]; [|discriminate].
  destruct (encodeCrossDomainMessageV1 nonce' sender' target' value' gasLimit'
              data') as [encoded'|e] eqn:E2; cbn [rbind]; [|discriminate].
  intros H1 H2. apply Ok_inj in H1, H2. subst digest.
  apply hexlify_inj in H2.
  destruct (list_eq_dec Byte.byte_eq_dec encoded encoded') as [<-|Hne].
  - left. now apply encoding_determines_values with encoded.
  - right. exists encoded, encoded'. auto.
Qed.

End EncodingFacts.

(* ================================================================== *)
(** * What a scan returns *)

Section ScanProperties.

Context {W : Type} `{Ethers} (options : Options.t W).

Lemma BigNumber_toNumber_Ok (v : BigNumber) (n : Z) :
  BigNumber_toNumber v = Ok n -> n = v /\ - 2 ^ 53 < v < 2 ^ 53.
Proof.
  unfold BigNumber_toNumber.
  destruct (Z.ltb_spec (- 2 ^ 53) v); cbn [andb]; [|discriminate].
  destruct (Z.ltb_spec v (2 ^ 53)); [|discriminate].
  intros Hn. apply Ok_inj in Hn. auto.
Qed.

Lemma sentMessageOf_fields extensionEvents event msg :
  sentMessageOf extensionEvents event = Ok msg ->
  SentMessage.sender msg = SentMessageEvent.sender event
  /\ SentMessage.target msg = SentMessageEvent.target event
  /\ SentMessage.message msg = SentMessageEvent.message event
  /\ SentMessage.messageNonce msg
     = BigNumber_toString (SentMessageEvent.messageNonce event)
  /\ SentMessage.gasLimit msg = SentMessageEvent.gasLimit event
  /\ - 2 ^ 53 < SentMessageEvent.gasLimit event < 2 ^ 53
  /\ SentMessage.value msg
     = extensionValue (findExtension extensionEvents event)
  /\ SentMessage.blockNumber msg = SentMessageEvent.blockNumber event
  /\ SentMessage.transactionHash msg = SentMessageEvent.transactionHash event.
Proof.
  unfold sentMessageOf.
  destruct (senderMismatch (findExtension extensionEvents event) event);
    [discriminate|].
  destruct (hashCrossDomainMessageV1 _ _ _ _ _ _) as [h|]; cbn [rbind];
    [|discriminate].
  destruct (BigNumber_toNumber _) as [g|] eqn:Hg; cbn [rbind]; [|discriminate].
  apply BigNumber_toNumber_Ok in Hg as [-> Hsafe].
  intros Hmsg. apply Ok_inj in Hmsg. subst msg. cbn. auto 10.
Qed.

(** X14.  A scan returns all or nothing, and what it returns follows the
    log: when the pairing of [getSentMessageEvents] returns, it returns
    exactly one record for each primary event, in the order of the events;
    the record copies sender, target, payload, block number and
    transaction hash of its event, spells the nonce in decimal, carries the
    gas limit as a number (which the event's gas limit then fits, as a safe
    integer), takes its value from the extension event paired with the
    event (zero without one), and its hash is the identity hash of these
    fields. *)
Theorem pairSentMessages_one_record_per_event sent extensionEvents msgs :
  pairSentMessages sent extensionEvents = Ok msgs ->
  List.length msgs = List.length sent
  /\ map SentMessage.transactionHash msgs
     = map SentMessageEvent.transactionHash sent
  /\ Forall2
       (fun event msg =>
          SentMessage.sender msg = SentMessageEvent.sender event
          /\ SentMessage.target msg = SentMessageEvent.target event
          /\ SentMessage.message msg = SentMessageEvent.message event
          /\ SentMessage.messageNonce msg
             = BigNumber_toString (SentMessageEvent.messageNonce event)
          /\ SentMessage.gasLimit msg = SentMessageEvent.gasLimit event
          /\ - 2 ^ 53 < SentMessageEvent.gasLimit event < 2 ^ 53
          /\ SentMessage.value msg
             = extensionValue (findExtension extensionEvents event)
          /\ SentMessage.blockNumber msg = SentMessageEvent.blockNumber event
          /\ SentMessage.transactionHash msg
             = SentMessageEvent.transactionHash event
          /\ hashCrossDomainMessageV1
               (ArgBigNumber (SentMessageEvent.messageNonce event))
               (SentMessageEvent.sender event) (SentMessageEvent.target event)
               (SentMessage.value msg)
               (ArgBigNumber (SentMessageEvent.gasLimit event))
               (SentMessageEvent.message event)
             = Ok (SentMessage.messageHash msg))
       sent msgs.
Proof.
  intros Hpair. apply mapResult_Ok in Hpair.
  induction Hpair as [|event msg sent msgs Hcall _ IH].
  - repeat split. constructor.
  - destruct IH as (Hlen & Htx & Hall).
    pose proof (sentMessageOf_fields _ _ _ Hcall)
      as (F1 & F2 & F3 & F4 & F5 & F6 & F7 & F8 & F9).
    destruct (sentMessageOf_Ok _ _ _ Hcall) as (_ & _ & _ & _ & Hhash).
    split; [cbn; now rewrite Hlen|].
    split; [cbn; now rewrite Htx, F9|].
    constructor; [|assumption]. auto 12.
Qed.

Lemma sentMessageOf_unsafe_gasLimit extensionEvents event :
  2 ^ 53 <= SentMessageEvent.gasLimit event ->
  isOk (sentMessageOf extensionEvents event) = false.
Proof.
  intros Hbig.
  destruct (sentMessageOf extensionEvents event) as [msg|e] eqn:Hcall;
    [|reflexivity].
  apply sentMessageOf_fields in Hcall. lia.
Qed.

(** X15.  One event whose gas limit is not a safe integer stops the
    indexing of its whole range: if a primary event of the scanned range
    has a gas limit of [2 ^ 53] or more, the pairing throws and returns no
    record for any event of the range; [indexNewMessages] then throws with
    the queue, both cursors and the gauges as they were. *)
Theorem unsafe_gasLimit_fails_the_scan
    (sent : list SentMessageEvent.t)
    (extensionEvents : list SentMessageExtension1Event.t)
    (event : SentMessageEvent.t) :
  In event sent ->
  2 ^ 53 <= SentMessageEvent.gasLimit event ->
  (exists err, pairSentMessages sent extensionEvents = Throw err)
  /\ (forall (s : Sigma W) latest w0 w1 w2,
         Provider.getBlockNumber (Options.l1RpcProvider options) (world s)
         = (w0, Ok latest) ->
         State.lastScannedL1Block (state s) < latest ->
         Provider.querySentMessage (Options.l1RpcProvider options)
           (State.lastScannedL1Block (state s) + 1) latest w0
         = (w1, Ok sent) ->
         Provider.querySentMessageExtension1 (Options.l1RpcProvider options)
           (State.lastScannedL1Block (state s) + 1) latest w1
         = (w2, Ok extensionEvents) ->
         (exists err, snd (indexNewMessages options s) = Throw err)
         /\ state (fst (indexNewMessages options s)) = state s
         /\ metrics (fst (indexNewMessages options s)) = metrics s).
Proof.
  intros Hin Hbig.
  assert (Hthrow : exists err, pairSentMessages sent extensionEvents = Throw err).
  { apply mapResult_Throw with event; [assumption|].
    now apply sentMessageOf_unsafe_gasLimit. }
  split; [exact Hthrow|]. destruct Hthrow as [err Herr].
  intros s latest w0 w1 w2 Hhead Hlt H1 H2.
  destruct (indexNewMessages_scan_throws options s latest w0 w1 w2
              sent extensionEvents err Hhead Hlt H1 H2 Herr)
    as (Hr & Hs & Hm).
  split; [now exists err|auto].
Qed.

End ScanProperties.

(* ================================================================== *)
(** * The spelling of quantities *)

Lemma hexValue_acc (d : Hexadecimal.uint) (acc : positive) :
  hexValue (HexadecimalString.NilEmpty.string_of_uint d) (Z.pos acc)
  = Some (Z.pos (Pos.of_hex_uint_acc d acc)).
Proof.
  revert acc.
  induction d as [|d IH|d IH|d IH|d IH|d IH|d IH|d IH|d IH|d IH|d IH|d IH
                  |d IH|d IH|d IH|d IH|d IH];
    intros acc; [reflexivity|..];
    cbn [HexadecimalString.NilEmpty.string_of_uint hexValue
         Pos.of_hex_uint_acc];
    match goal with
    | |- context [hexDigitValue ?c] =>
        let v := eval vm_compute in (hexDigitValue c) in
        change (hexDigitValue c) with v
    end;
    cbv iota; rewrite <- IH; f_equal; lia.
Qed.

Lemma hexValue_uint (d : Hexadecimal.uint) :
  hexValue (HexadecimalString.NilEmpty.string_of_uint d) 0
  = Some (Z.of_N (Pos.of_hex_uint d)).
Proof.
  induction d as [|d IH|d IH|d IH|d IH|d IH|d IH|d IH|d IH|d IH|d IH|d IH
                  |d IH|d IH|d IH|d IH|d IH];
    [reflexivity|exact IH|..];
    cbn [HexadecimalString.NilEmpty.string_of_uint hexValue Pos.of_hex_uint];
    match goal with
    | |- context [hexDigitValue ?c] =>
        let v := eval vm_compute in (hexDigitValue c) in
        change (hexDigitValue c) with v
    end;
    cbv iota; cbn [Z.mul Z.add Z.of_N]; apply hexValue_acc.
Qed.

(** The digits of a positive number do not start with a zero. *)
Lemma to_hex_uint_head (p : positive) (d : Hexadecimal.uint) :
  Pos.to_hex_uint p <> Hexadecimal.D0 d.
Proof.
  intros E.
  pose proof (HexadecimalPos.Unsigned.to_of (Pos.to_hex_uint p)) as Hnorm.
  rewrite HexadecimalPos.Unsigned.of_to in Hnorm. cbn [N.to_hex_uint] in Hnorm.
  assert (Hnz : Hexadecimal.nzhead (Pos.to_hex_uint p) <> Hexadecimal.Nil).
  { intros Hnil. apply HexadecimalFacts.unorm_0 in Hnil.
    rewrite <- Hnorm in Hnil.
    now apply (HexadecimalPos.Unsigned.to_uint_nonzero p). }
  rewrite (HexadecimalFacts.unorm_nzhead _ Hnz) in Hnorm.
  rewrite E in Hnorm at 1.
  now apply (HexadecimalFacts.nzhead_nonzero (Pos.to_hex_uint p) d).
Qed.

Lemma string_of_uint_head (d : Hexadecimal.uint) (rest : string) :
  HexadecimalString.NilEmpty.string_of_uint d = String "0" rest ->
  exists d', d = Hexadecimal.D0 d'.
Proof. destruct d; cbn; try discriminate. intros _. now eexists. Qed.

Lemma dropZeros_evenLength (digits : string) :
  (forall rest, digits <> String "0" rest) ->
  dropZeros (evenLength digits) = digits.
Proof.
  intros Hhead.
  assert (Hdrop : dropZeros digits = digits).
  { destruct digits as [|c rest]; [reflexivity|].
    cbn [dropZeros].
    destruct c as [[] [] [] [] [] [] [] []]; try reflexivity.
    now contradiction (Hhead rest). }
  unfold evenLength. destruct (Nat.even (String.length digits)); [exact Hdrop|].
  cbn [dropZeros]. exact Hdrop.
Qed.

(** The digits [balanceHexStripped] writes. *)
Lemma balanceHexStripped_digits (balance : BigNumber) :
  0 <= balance ->
  exists digits,
    balanceHexStripped balance = String "0" (String "x" digits)
    /\ hexValue digits 0 = Some balance
    /\ (forall rest, digits <> String "0" rest)
    /\ (digits = EmptyString <-> balance = 0)
    /\ (0 < balance ->
        BigNumber_from (ArgString (balanceHexStripped balance)) = Ok balance)
    /\ (balance = 0 ->
        balanceHexStripped balance = "0x"
        /\ BigNumber_from (ArgString (balanceHexStripped balance))
           = Throw (InvalidArgument "invalid BigNumber string")).
Proof.
  intros Hnn. destruct balance as [|p|p]; [| |lia].
  - exists EmptyString. repeat split; try reflexivity; try discriminate.
  - set (digits := HexadecimalString.NilEmpty.string_of_uint
                     (Pos.to_hex_uint p)).
    assert (Hhead : forall rest, digits <> String "0" rest).
    { intros rest E. apply string_of_uint_head in E as [d' E].
      now apply (to_hex_uint_head p d'). }
    assert (Hval : hexValue digits 0 = Some (Z.pos p)).
    { unfold digits. rewrite hexValue_uint.
      now rewrite HexadecimalPos.Unsigned.of_to. }
    assert (Hne : digits <> EmptyString).
    { unfold digits. intros E.
      apply (HexadecimalPos.Unsigned.to_uint_nonnil p).
      destruct (Pos.to_hex_uint p); cbn in E; try discriminate;
        try reflexivity. }
    assert (Hstr : balanceHexStripped (Z.pos p)
                   = String "0" (String "x" digits)).
    { unfold balanceHexStripped, BigNumber_toHexString.
      change (Z.pos p <? 0) with false. cbv iota.
      cbn [stripLeadingZeros].
      change (BN_toString16 (Z.pos p)) with digits.
      now rewrite dropZeros_evenLength. }
    exists digits. split; [exact Hstr|]. split; [exact Hval|].
    split; [exact Hhead|]. split; [split; [contradiction|discriminate]|].
    split; [|discriminate].
    intros _. rewrite Hstr. cbn [BigNumber_from].
    unfold BigNumber_fromString.
    destruct digits as [|c rest]; [contradiction|].
    cbn [hexLiteral]. now rewrite Hval.
Qed.

(** X16.  How the Tenderly helpers spell a quantity.  For a balance that
    is not negative, [balanceHexStripped] is [0x] followed by the
    hexadecimal digits of the balance without a leading zero: the digits
    read back as the balance and never start with [0].  For a positive
    balance the string reads back as the balance with [BigNumber.from];
    for the balance zero there is no digit at all, the string is [0x], and
    [BigNumber.from] refuses it. *)
Theorem balanceHexStripped_spells_the_balance (balance : BigNumber) :
  0 <= balance ->
  exists digits,
    balanceHexStripped balance = String "0" (String "x" digits)
    /\ hexValue digits 0 = Some balance
    /\ (forall rest, digits <> String "0" rest)
    /\ (digits = EmptyString <-> balance = 0)
    /\ (0 < balance ->
        BigNumber_from (ArgString (balanceHexStripped balance)) = Ok balance)
    /\ (balance = 0 ->
        balanceHexStripped balance = "0x"
        /\ BigNumber_from (ArgString (balanceHexStripped balance))
           = Throw (InvalidArgument "invalid BigNumber string")).
Proof. apply balanceHexStripped_digits. Qed.

(* ================================================================== *)
(** * The message of one transaction *)

Section FromTx.

Variable address : string.
Variable parseLog : Log.t -> option LogDescription.

Lemma find_isSentMessage (events : list (option LogDescription)) :
  match Array_find isSentMessage events with
  | Some (Some (SentMessage_log _ _ _ _ _)) => True
  | Some _ => False
  | None => forall event, In event events -> isSentMessage event = false
  end.
Proof.
  unfold Array_find.
  destruct (find isSentMessage events) as [event|] eqn:Hfind.
  - apply find_some in Hfind as [_ His].
    destruct event as [[| |]|]; cbn in His; try discriminate. exact I.
  - intros event Hin. now apply (find_none _ _ Hfind).
Qed.

(** The first element of a list that satisfies a test, with what comes
    before it. *)
Lemma find_first {A} (p : A -> bool) (l : list A) (a : A) :
  find p l = Some a ->
  exists before after,
    l = before ++ a :: after /\ p a = true
    /\ forall x, In x before -> p x = false.
Proof.
  induction l as [|x l IH]; cbn; [discriminate|].
  destruct (p x) eqn:Hx.
  - intros [= <-]. exists [], l. repeat split; [assumption|intros ? []].
  - intros Hfind. destruct (IH Hfind) as (before & after & -> & Ha & Hb).
    exists (x :: before), after. repeat split; [assumption|].
    intros y [<-|Hy]; auto.
Qed.

Lemma map_filter_split (logs : list Log.t) (before : list (option LogDescription))
    (event : option LogDescription) (after : list (option LogDescription)) :
  map parseLog (filter (fromMessenger address) logs) = before ++ event :: after ->
  exists logsBefore log logsAfter,
    logs = logsBefore ++ log :: logsAfter
    /\ fromMessenger address log = true
    /\ parseLog log = event
    /\ map parseLog (filter (fromMessenger address) logsBefore) = before.
Proof.
  revert before. induction logs as [|l logs IH]; intros before; cbn [filter map].
  - destruct before; discriminate.
  - destruct (fromMessenger address l) eqn:Hl.
    + destruct before as [|b before]; cbn [map app].
      * intros [= Hevent Hrest]. exists [], l, logs. auto.
      * intros [= Hb Hrest].
        destruct (IH before Hrest) as (lb & log & la & -> & Hm & Hp & Hbefore).
        exists (l :: lb), log, la. cbn [filter map app]. rewrite Hl. cbn [map].
        repeat split; try assumption. now rewrite Hb, Hbefore.
    + intros Hrest.
      destruct (IH before Hrest) as (lb & log & la & -> & Hm & Hp & Hbefore).
      exists (l :: lb), log, la. cbn [filter app]. rewrite Hl.
      repeat split; assumption.
Qed.

(** X18.  [getSentMessageFromTx] returns null exactly when no log of the
    receipt that comes from the L1 messenger (the address compared without
    regard to letter case) parses as a [SentMessage] event; logs of other
    contracts and logs that [parseLog] rejects are passed over. *)
Theorem getSentMessageFromTx_null_iff (logs : list Log.t) :
  getSentMessageFromTx address parseLog logs = Ok None
  <-> (forall log,
         In log logs ->
         toLowerCase (Log.address log) = toLowerCase address ->
         isSentMessage (parseLog log) = false).
Proof.
  unfold getSentMessageFromTx.
  pose proof (find_isSentMessage
                (map parseLog (filter (fromMessenger address) logs))) as Hfind.
  destruct (Array_find isSentMessage
              (map parseLog (filter (fromMessenger address) logs)))
    as [[[target sender message messageNonce gasLimit| |]|]|] eqn:E;
    try contradiction.
  - split.
    + destruct (BigNumber_toNumber gasLimit); cbn [rbind]; discriminate.
    + intros Hnone. exfalso. unfold Array_find in E.
      apply find_some in E as [Hin _].
      apply in_map_iff in Hin as (log & Hparse & Hin).
      apply filter_In in Hin as [Hin Hfrom].
      apply String.eqb_eq in Hfrom.
      specialize (Hnone log Hin Hfrom). rewrite Hparse in Hnone. discriminate.
  - split; [|reflexivity]. intros _ log Hin Hfrom. apply Hfind.
    apply in_map. apply filter_In. split; [assumption|].
    now apply String.eqb_eq.
Qed.

(** X19.  When [getSentMessageFromTx] returns a record, it is the record
    of the first [SentMessage] log of the messenger in the receipt: no
    messenger log before it parses as that event (so of several messages
    sent by one transaction only the first is returned); target, sender
    and payload are its arguments, the nonce is spelled in decimal, the gas
    limit is its gas limit, which is a safe integer; and the value is zero
    or the value of a [SentMessageExtension1] log of the messenger in the
    same receipt. *)
Theorem getSentMessageFromTx_returns_first_SentMessage
    (logs : list Log.t) (sentMessage : SentMessageFromTx.t) :
  getSentMessageFromTx address parseLog logs = Ok (Some sentMessage) ->
  exists logsBefore log logsAfter messageNonce gasLimit,
    logs = logsBefore ++ log :: logsAfter
    /\ toLowerCase (Log.address log) = toLowerCase address
    /\ parseLog log
       = Some (SentMessage_log (SentMessageFromTx.target sentMessage)
                 (SentMessageFromTx.sender sentMessage)
                 (SentMessageFromTx.message sentMessage)
                 messageNonce gasLimit)
    /\ (forall earlier,
          In earlier logsBefore ->
          toLowerCase (Log.address earlier) = toLowerCase address ->
          isSentMessage (parseLog earlier) = false)
    /\ SentMessageFromTx.messageNonce sentMessage
       = BigNumber_toString messageNonce
    /\ SentMessageFromTx.gasLimit sentMessage = gasLimit
    /\ - 2 ^ 53 < gasLimit < 2 ^ 53
    /\ (SentMessageFromTx.value sentMessage = 0
        \/ exists extension extensionSender,
             In extension logs
             /\ toLowerCase (Log.address extension) = toLowerCase address
             /\ parseLog extension
                = Some (SentMessageExtension1_log extensionSender
                          (SentMessageFromTx.value sentMessage))).
Proof.
  unfold getSentMessageFromTx.
  destruct (Array_find isSentMessage
              (map parseLog (filter (fromMessenger address) logs)))
    as [[[target sender message messageNonce gasLimit| |]|]|] eqn:E;
    try discriminate.
  destruct (BigNumber_toNumber gasLimit) as [g|e] eqn:Hg; cbn [rbind];
    [|discriminate].
  apply BigNumber_toNumber_Ok in Hg as [-> Hsafe].
  intros Hr. apply Ok_inj in Hr. injection Hr as Hr. subst sentMessage.
  cbn [SentMessageFromTx.target SentMessageFromTx.sender
       SentMessageFromTx.message SentMessageFromTx.messageNonce
       SentMessageFromTx.gasLimit SentMessageFromTx.value].
  unfold Array_find in E. apply find_first in E as (before & after & Hsplit & _ & Hbefore).
  apply map_filter_split in Hsplit
    as (logsBefore & log & logsAfter & -> & Hfrom & Hparse & Hmap).
  exists logsBefore, log, logsAfter, messageNonce, gasLimit.
  split; [reflexivity|]. split; [now apply String.eqb_eq|].
  split; [exact Hparse|]. split.
  { intros earlier Hin Haddr. apply Hbefore. rewrite <- Hmap.
    apply in_map. apply filter_In. split; [assumption|].
    now apply String.eqb_eq. }
  split; [reflexivity|]. split; [reflexivity|]. split; [exact Hsafe|].
  destruct (Array_find isSentMessageExtension1 _)
    as [[[| extensionSender value|]|]|] eqn:Eext; try (now left).
  right. unfold Array_find in Eext. apply find_some in Eext as [Hin _].
  apply in_map_iff in Hin as (extension & Hp & Hin).
  apply filter_In in Hin as [Hin Hf]. apply String.eqb_eq in Hf.
  exists extension, extensionSender. auto.
Qed.

Lemma find_renameExtensionSender (rename : string -> string)
    (events : list (option LogDescription)) :
  Array_find isSentMessage (map (renameExtensionSender rename) events)
  = Array_find isSentMessage events
  /\ match Array_find isSentMessageExtension1
             (map (renameExtensionSender rename) events),
           Array_find isSentMessageExtension1 events with
     | Some (Some (SentMessageExtension1_log _ v)),
       Some (Some (SentMessageExtension1_log _ v')) => v = v'
     | None, None => True
     | _, _ => False
     end.
Proof.
  unfold Array_find. induction events as [|event events [IH1 IH2]];
    [cbn; auto|].
  cbn [map find].
  destruct event as [[target sender message nonce gasLimit|sender value|]|];
    cbn; auto.
Qed.

(** X20.  [getSentMessageFromTx] does not look at the sender of the
    extension event: unlike [getSentMessageEvents], which compares it with
    the sender of the primary event and throws on a mismatch, it returns
    the same result whatever sender the [SentMessageExtension1] logs
    carry. *)
Theorem getSentMessageFromTx_ignores_extension_sender
    (rename : string -> string) (logs : list Log.t) :
  getSentMessageFromTx address
    (fun log => renameExtensionSender rename (parseLog log)) logs
  = getSentMessageFromTx address parseLog logs.
Proof.
  unfold getSentMessageFromTx.
  rewrite <- (map_map parseLog (renameExtensionSender rename)).
  destruct (find_renameExtensionSender rename
              (map parseLog (filter (fromMessenger address) logs)))
    as [-> Hext].
  destruct (Array_find isSentMessage _)
    as [[[target sender message messageNonce gasLimit| |]|]|]; try reflexivity.
  destruct (BigNumber_toNumber gasLimit) as [g|e]; cbn [rbind]; [|reflexivity].
  destruct (Array_find isSentMessageExtension1
              (map (renameExtensionSender rename) _))
    as [[[| s v|]|]|];
    destruct (Array_find isSentMessageExtension1
                (map parseLog (filter (fromMessenger address) logs)))
      as [[[| s' v'|]|]|]; try contradiction; try reflexivity.
  now subst.
Qed.

End FromTx.

Section DemoHash.

Context `{Ethers}.

(** X21.  The hash of the demo script against the hash of the indexer.
    From a record of [getSentMessageFromTx] -- nonce in decimal, gas limit
    as a number -- the script computes the identity hash of the event
    itself, the one [getSentMessageEvents] computes from the event's
    [BigNumber] arguments, as long as the gas limit is below
    [2 ^ 53 - 1] in absolute value.  At a gas limit of [2 ^ 53 - 1], which
    [toNumber] still accepts, the script's call throws, because
    [BigNumber.from] refuses that number. *)
Theorem demoMessageHash_agrees_with_indexer
    (sentMessage : SentMessageFromTx.t) (messageNonce gasLimit : BigNumber) :
  SentMessageFromTx.messageNonce sentMessage = BigNumber_toString messageNonce ->
  BigNumber_toNumber gasLimit = Ok (SentMessageFromTx.gasLimit sentMessage) ->
  (Z.abs gasLimit < 2 ^ 53 - 1 ->
   demoMessageHash sentMessage
   = hashCrossDomainMessageV1 (ArgBigNumber messageNonce)
       (SentMessageFromTx.sender sentMessage)
       (SentMessageFromTx.target sentMessage)
       (SentMessageFromTx.value sentMessage)
       (ArgBigNumber gasLimit)
       (SentMessageFromTx.message sentMessage))
  /\ (Z.abs gasLimit = 2 ^ 53 - 1 ->
      isOk (demoMessageHash sentMessage) = false).
Proof.
  intros Hnonce Hgas. apply BigNumber_toNumber_Ok in Hgas as [Hg Hsafe].
  unfold demoMessageHash. rewrite Hnonce, Hg. split.
  - intros Hsmall. unfold hashCrossDomainMessageV1.
    rewrite (encodeCrossDomainMessageV1_values
               (ArgBigNumber messageNonce)
               (SentMessageFromTx.sender sentMessage)
               (SentMessageFromTx.target sentMessage)
               (SentMessageFromTx.value sentMessage)
               (ArgBigNumber gasLimit)
               (SentMessageFromTx.message sentMessage)
               (ArgString (BigNumber_toString messageNonce))
               (SentMessageFromTx.sender sentMessage)
               (SentMessageFromTx.target sentMessage)
               (ArgNumber gasLimit)
               (SentMessageFromTx.message sentMessage));
      try reflexivity.
    + cbn [BigNumber_from]. apply BigNumber_toString_fromString.
    + cbn [BigNumber_from].
      destruct (Z.ltb_spec (- (2 ^ 53 - 1)) gasLimit); [|lia].
      destruct (Z.ltb_spec gasLimit (2 ^ 53 - 1)); [|lia]. reflexivity.
  - intros Hedge.
    destruct (hashCrossDomainMessageV1 _ _ _ _ (ArgNumber gasLimit) _)
      as [digest|e] eqn:Hh; [|reflexivity].
    apply hashCrossDomainMessageV1_only_valid in Hh
      as (_ & _ & _ & _ & Hvalid & _).
    unfold validUint256 in Hvalid. cbn [BigNumber_from] in Hvalid.
    destruct (Z.ltb_spec (- (2 ^ 53 - 1)) gasLimit);
      destruct (Z.ltb_spec gasLimit (2 ^ 53 - 1)); cbn [andb] in Hvalid;
      try contradiction.
    lia.
Qed.

End DemoHash.

(* ================================================================== *)
(** * The historical pass *)

Section HistoricalPass.

Context {W : Type} `{Ethers} `{Constants} (options : Options.t W).

(** One turn of the loop of [indexHistoricalMessages] that marks the
    messages L2 has relayed already. *)
Lemma markKnown_step (hash : string) (s : Sigma W) :
  snd (markKnown hash s) = Ok tt
  /\ (forall k,
        Map_get (State.messageQueue (state (fst (markKnown hash s)))) k
        = if String.eqb k hash
          then option_map Message.markRelayed
                 (Map_get (State.messageQueue (state s)) k)
          else Map_get (State.messageQueue (state s)) k)
  /\ Metrics.messagesRelayed (metrics (fst (markKnown hash s)))
     = Metrics.messagesRelayed (metrics s)
       + (if isKnown (State.messageQueue (state s)) hash then 1 else 0)
  /\ Metrics.messagesSent (metrics (fst (markKnown hash s)))
     = Metrics.messagesSent (metrics s)
  /\ Metrics.pendingMessages (metrics (fst (markKnown hash s)))
     = Metrics.pendingMessages (metrics s)
  /\ cursorsView (state (fst (markKnown hash s))) (metrics (fst (markKnown hash s)))
     = cursorsView (state s) (metrics s).
Proof.
  unfold markKnown, isKnown. rewrite bind_run, getState_run.
  destruct (Map_get (State.messageQueue (state s)) hash) as [m|] eqn:Hg.
  - rewrite bind_run. unfold setRelayed.
    rewrite modifyState_run, bind_run, modifyMetrics_run, console_log_run.
    cbn. repeat split. intros k.
    destruct (String.eqb_spec k hash) as [->|Hne].
    + apply Map_get_mutate_same.
    + now apply Map_get_mutate_other.
  - cbn. repeat split; try lia. intros k.
    destruct (String.eqb_spec k hash) as [->|Hne]; [|reflexivity].
    now rewrite Hg.
Qed.

Lemma isKnown_get (q q' : JsMap Message.t) (f : Message.t -> Message.t)
    (hash : string) :
  Map_get q' hash = option_map f (Map_get q hash)
  \/ Map_get q' hash = Map_get q hash ->
  isKnown q' hash = isKnown q hash.
Proof.
  unfold isKnown. intros [-> | ->]; now destruct (Map_get q hash).
Qed.

Lemma markKnown_loop (hashes : list string) (s : Sigma W) :
  snd (forOf hashes markKnown s) = Ok tt
  /\ (forall k,
        Map_get (State.messageQueue (state (fst (forOf hashes markKnown s)))) k
        = if in_dec string_dec k hashes
          then option_map Message.markRelayed
                 (Map_get (State.messageQueue (state s)) k)
          else Map_get (State.messageQueue (state s)) k)
  /\ Metrics.messagesRelayed (metrics (fst (forOf hashes markKnown s)))
     = Metrics.messagesRelayed (metrics s)
       + Z.of_nat
           (List.length
              (filter (isKnown (State.messageQueue (state s))) hashes))
  /\ Metrics.messagesSent (metrics (fst (forOf hashes markKnown s)))
     = Metrics.messagesSent (metrics s)
  /\ Metrics.pendingMessages (metrics (fst (forOf hashes markKnown s)))
     = Metrics.pendingMessages (metrics s)
  /\ cursorsView (state (fst (forOf hashes markKnown s)))
       (metrics (fst (forOf hashes markKnown s)))
     = cursorsView (state s) (metrics s).
Proof.
  revert s. induction hashes as [|hash hashes IH]; intros s.
  - cbn. repeat split; lia.
  - cbn [forOf]. rewrite bind_run.
    destruct (markKnown_step hash s) as (Hok & Hq & Hrel & Hsent & Hpen & Hcur).
    destruct (markKnown hash s) as [s1 r1].
    cbn [fst snd] in *. subst r1.
    destruct (IH s1) as (Hok2 & Hq2 & Hrel2 & Hsent2 & Hpen2 & Hcur2).
    split; [exact Hok2|]. split.
    { intros k. rewrite Hq2, Hq.
      destruct (in_dec string_dec k hashes) as [Hin|Hnin];
        destruct (in_dec string_dec k (hash :: hashes)) as [Hin'|Hnin'];
        destruct (String.eqb_spec k hash) as [->|Hne];
        try reflexivity;
        try (exfalso; apply Hnin'; cbn; tauto);
        try (destruct Hin' as [->|Hin']; [congruence|contradiction]).
      now destruct (Map_get (State.messageQueue (state s)) hash). }
    split.
    { rewrite Hrel2, Hrel. cbn [filter].
      assert (Hsame : forall h,
                 isKnown (State.messageQueue (state s1)) h
                 = isKnown (State.messageQueue (state s)) h).
      { intros h. apply isKnown_get with Message.markRelayed. rewrite Hq.
        destruct (String.eqb h hash); auto. }
      rewrite (filter_ext _ _ Hsame).
      destruct (isKnown (State.messageQueue (state s)) hash);
        cbn [List.length]; lia. }
    repeat split; congruence.
Qed.

Lemma markKnown_keeps_keys (hash : string) :
  stable (keeps keysView) (@markKnown W hash).
Proof. unfold markKnown, setRelayed. frames keeps_leaf. Qed.

(** [init] up to the historical pass. *)
Lemma init_run (s : Sigma W) :
  init options s
  = indexHistoricalMessages options
      {| world := world s;
         state := {| State.messageQueue := [];
                     State.lastScannedL1Block := Options.l1StartBlock options;
                     State.lastScannedL2Block := Options.l2StartBlock options |};
         metrics := pendingMessages_set 0
                      (messagesRelayed_set 0 (messagesSent_set 0 (metrics s)));
         console := console s |}.
Proof.
  unfold init.
  repeat (rewrite bind_run;
          first [rewrite modifyState_run|rewrite modifyMetrics_run];
          cbv beta iota).
  reflexivity.
Qed.

Lemma forOf_addToQueue_gauges (msgs : list SentMessage.t) :
  stable
    (keeps (fun _ m => (Metrics.messagesRelayed m, Metrics.pendingMessages m)))
    (forOf msgs (addToQueue options)).
Proof.
  apply stable_forOf; [exact _|]. intros msg.
  unfold addToQueue, blockTimestamp.
  frames ltac:(unfold keeps; cbn; reflexivity).
Qed.

Lemma forOf_addToQueue_distinct (msgs : list SentMessage.t) :
  stable keysStayDistinct (forOf msgs (addToQueue options)).
Proof. apply stable_forOf; [exact _|]. apply addToQueue_distinct. Qed.

(** X22.  What a completed [init] leaves behind: the queue holds exactly
    the messages the scan from [l1StartBlock] to the L1 head returned, one
    record per identity hash, whatever the queue held before; a record is
    Relayed exactly when its hash is among the hashes L2 reported from
    [l2StartBlock] to its head; [messagesSent] is the number of scanned
    messages and [messagesRelayed] the number of reported hashes that are
    in the queue (each occurrence counted); the gauge [pendingMessages] is
    left at 0, however many messages are pending; both cursors are at the
    heads read at the start. *)
Theorem init_indexes_history (s : Sigma W)
    w1 w2 w3 w4 latestL1 latestL2 sent extensionEvents msgs :
  Provider.getBlockNumber (Options.l1RpcProvider options) (world s)
  = (w1, Ok latestL1) ->
  Provider.getBlockNumber (Options.l2RpcProvider options) w1
  = (w2, Ok latestL2) ->
  Provider.querySentMessage (Options.l1RpcProvider options)
    (Options.l1StartBlock options) latestL1 w2 = (w3, Ok sent) ->
  Provider.querySentMessageExtension1 (Options.l1RpcProvider options)
    (Options.l1StartBlock options) latestL1 w3 = (w4, Ok extensionEvents) ->
  pairSentMessages sent extensionEvents = Ok msgs ->
  snd (init options s) = Ok tt ->
  (forall k,
      In k (Map_keys (State.messageQueue (state (fst (init options s)))))
      <-> In k (map SentMessage.messageHash msgs))
  /\ NoDup (Map_keys (State.messageQueue (state (fst (init options s)))))
  /\ (exists w w' relayedHashes,
         Provider.queryRelayedMessage (Options.l2RpcProvider options)
           (Options.l2StartBlock options) latestL2 w
         = (w', Ok relayedHashes)
         /\ (forall k m,
               Map_get (State.messageQueue (state (fst (init options s)))) k
               = Some m ->
               (Message.isRelayed m = true <-> In k relayedHashes))
         /\ Metrics.messagesRelayed (metrics (fst (init options s)))
            = Z.of_nat
                (List.length
                   (filter
                      (isKnown
                         (State.messageQueue (state (fst (init options s)))))
                      relayedHashes)))
  /\ Metrics.messagesSent (metrics (fst (init options s)))
     = Z.of_nat (List.length msgs)
  /\ Metrics.pendingMessages (metrics (fst (init options s))) = 0
  /\ State.lastScannedL1Block (state (fst (init options s))) = latestL1
  /\ State.lastScannedL2Block (state (fst (init options s))) = latestL2.
Proof.
  intros Hh1 Hh2 Hsent Hext Hpair. rewrite init_run.
  unfold indexHistoricalMessages.
  rewrite bind_run, console_log_run, bind_run, await_run. cbn [world].
  rewrite Hh1. rewrite bind_run, await_run. cbn [world]. rewrite Hh2.
  rewrite bind_run.
  erewrite getSentMessageEvents_run by (cbn [world]; eassumption).
  rewrite Hpair. rewrite bind_run, console_log_run, bind_run.
  match goal with
  | |- context [forOf msgs (addToQueue options) ?s0] =>
      pose proof (forOf_addToQueue_stores options msgs s0) as Hloop;
      pose proof (forOf_addToQueue_distinct msgs s0) as Hnd;
      pose proof (forOf_addToQueue_gauges msgs s0) as Hgauges;
      destruct (forOf msgs (addToQueue options) s0) as [sb [[]|e]]
  end; cbn [fst snd] in *; [|discriminate].
  destruct (Hloop eq_refl) as (Hin & Hout & Hcount & Hcur). clear Hloop.
  unfold keysStayDistinct in Hnd. cbn in Hnd. specialize (Hnd (NoDup_nil _)).
  cbn in Hout, Hcount. unfold cursorsView in Hcur. cbn in Hcur.
  unfold keeps in Hgauges. cbn in Hgauges. injection Hgauges as Hrel0 Hpen0.
  rewrite bind_run, modifyState_run, bind_run, console_log_run, bind_run.
  unfold getRelayedMessageEvents. rewrite await_run. cbn [world].
  destruct (Provider.queryRelayedMessage (Options.l2RpcProvider options)
              (Options.l2StartBlock options) latestL2 (world sb))
    as [w' [relayedHashes|e]] eqn:Hrel; [|discriminate].
  rewrite bind_run, console_log_run, bind_run.
  match goal with
  | |- context [forOf relayedHashes ?body ?s0] =>
      change body with (@markKnown W);
      destruct (markKnown_loop relayedHashes s0)
        as (Hok & Hq & Hcnt & Hsent' & Hpen' & Hcur');
      pose proof (stable_forOf (keeps keysView) relayedHashes markKnown
                    markKnown_keeps_keys s0) as Hsame;
      destruct (forOf relayedHashes markKnown s0) as [sd rd]
  end.
  cbn [fst snd] in *. subst rd.
  rewrite bind_run, modifyState_run, console_log_run. cbn [fst snd].
  intros _. cbn [state metrics set_lastScannedL2Block State.messageQueue
                 State.lastScannedL1Block State.lastScannedL2Block].
  cbn in Hq, Hcnt, Hsent', Hpen', Hcur'.
  unfold cursorsView in Hcur'. cbn in Hcur'.
  unfold keeps, keysView in Hsame. cbn -[Map_keys] in Hsame.
  assert (Hkeys : forall k,
             Map_get (State.messageQueue (state sd)) k <> None
             <-> In k (map SentMessage.messageHash msgs)).
  { intros k. rewrite Hq. split.
    - intros Hsome.
      destruct (in_dec string_dec k (map SentMessage.messageHash msgs))
        as [Hk|Hk]; [assumption|].
      rewrite (Hout k Hk) in Hsome.
      destruct (in_dec string_dec k relayedHashes); now contradiction Hsome.
    - intros Hk. apply in_map_iff in Hk as (msg & <- & Hmsg).
      destruct (Hin msg Hmsg) as (msg' & ts & _ & _ & ->).
      destruct (in_dec string_dec _ relayedHashes); discriminate. }
  split.
  { intros k. rewrite <- Hkeys. split.
    - intros Hk Hnone. now apply Map_get_None_keys in Hnone.
    - intros Hsome.
      destruct (in_dec string_dec k
                  (Map_keys (State.messageQueue (state sd)))) as [|Hnot];
        [assumption|].
      apply Map_get_None_keys in Hnot. contradiction. }
  split; [now rewrite Hsame|].
  split.
  { exists (world sb), w', relayedHashes. split; [exact Hrel|]. split.
    - intros k m Hget. rewrite Hq in Hget.
      destruct (in_dec string_dec k relayedHashes) as [Hk|Hk].
      + split; [auto|]. intros _.
        destruct (Map_get (State.messageQueue (state sb)) k) as [m0|];
          [|discriminate].
        injection Hget as <-. reflexivity.
      + split; [|contradiction]. intros Hrelayed. exfalso.
        assert (Hsome : In k (map SentMessage.messageHash msgs)).
        { apply Hkeys. rewrite Hq.
          destruct (in_dec string_dec k relayedHashes); [contradiction|].
          congruence. }
        apply in_map_iff in Hsome as (msg & <- & Hmsg).
        destruct (Hin msg Hmsg) as (msg' & ts & _ & _ & Hfresh).
        rewrite Hfresh in Hget. injection Hget as <-. discriminate.
    - rewrite Hcnt, Hrel0. cbn [Z.add]. f_equal. f_equal. apply filter_ext.
      intros h.
      symmetry. apply isKnown_get with Message.markRelayed. rewrite Hq.
      destruct (in_dec string_dec h relayedHashes); auto. }
  injection Hcur as Hc1 Hc2. injection Hcur' as Hc1' Hc2'.
  repeat split; try reflexivity.
  - rewrite Hsent', Hcount. cbn. lia.
  - rewrite Hpen'. exact Hpen0.
  - congruence.
Qed.

End HistoricalPass.

(* ================================================================== *)
(** * The properties on the scripted chains *)

Lemma indexNewMessages_stores_every_scanned_message_witness :
  Provider.getBlockNumber (Options.l1RpcProvider demoOptions)
    (world (startAt chain110 [] 100 60))
  = (chain110, Ok 110)
  /\ State.lastScannedL1Block (state (startAt chain110 [] 100 60)) < 110
  /\ @pairSentMessages scriptedEthers [event105; event106] [] = Ok scanned110
  /\ snd (@indexNewMessages Script.t scriptedEthers demoOptions
            (startAt chain110 [] 100 60))
     = Ok tt
  /\ Metrics.messagesSent
       (metrics (fst (@indexNewMessages Script.t scriptedEthers demoOptions
                        (startAt chain110 [] 100 60))))
     = Metrics.messagesSent (metrics (startAt chain110 [] 100 60))
       + Z.of_nat (List.length scanned110).
Proof.
  assert (Hhead : Provider.getBlockNumber (Options.l1RpcProvider demoOptions)
                    (world (startAt chain110 [] 100 60))
                  = (chain110, Ok 110)) by reflexivity.
  assert (Hlt : State.lastScannedL1Block (state (startAt chain110 [] 100 60))
                < 110) by (vm_compute; reflexivity).
  assert (Hsent : Provider.querySentMessage (Options.l1RpcProvider demoOptions)
                    (State.lastScannedL1Block
                       (state (startAt chain110 [] 100 60)) + 1) 110 chain110
                  = (chain110, Ok [event105; event106]))
    by (vm_compute; reflexivity).
  assert (Hext : Provider.querySentMessageExtension1
                   (Options.l1RpcProvider demoOptions)
                   (State.lastScannedL1Block
                      (state (startAt chain110 [] 100 60)) + 1) 110 chain110
                 = (chain110, Ok [])) by (vm_compute; reflexivity).
  assert (Hpair : @pairSentMessages scriptedEthers [event105; event106] []
                  = Ok scanned110) by (vm_compute; reflexivity).
  assert (Hok : snd (@indexNewMessages Script.t scriptedEthers demoOptions
                       (startAt chain110 [] 100 60)) = Ok tt)
    by (vm_compute; reflexivity).
  repeat (split; [assumption|]).
  exact (proj1 (proj2 (proj2
           (@indexNewMessages_stores_every_scanned_message Script.t
              scriptedEthers demoOptions (startAt chain110 [] 100 60) 110
              chain110 chain110 chain110 [event105; event106] [] scanned110
              Hhead Hlt Hsent Hext Hpair Hok)))).
Defined.

Lemma checkRelayedMessages_marks_every_confirmed_message_witness :
  Provider.getBlockNumber (Options.l2RpcProvider demoOptions)
    (world pendingStore)
  = (chain110Confirmed, Ok 60)
  /\ State.lastScannedL2Block (state pendingStore) < 60
  /\ Provider.queryRelayedMessage (Options.l2RpcProvider demoOptions)
       (State.lastScannedL2Block (state pendingStore) + 1) 60
       chain110Confirmed
     = (chain110Confirmed, Ok [hashOfEvent event105 0; "0xdead"])
  /\ snd (@checkRelayedMessages Script.t demoOptions pendingStore) = Ok tt.
Proof.
  assert (Hhead : Provider.getBlockNumber (Options.l2RpcProvider demoOptions)
                    (world pendingStore)
                  = (chain110Confirmed, Ok 60)) by reflexivity.
  assert (Hlt : State.lastScannedL2Block (state pendingStore) < 60)
    by (vm_compute; reflexivity).
  assert (Hscan : Provider.queryRelayedMessage
                    (Options.l2RpcProvider demoOptions)
                    (State.lastScannedL2Block (state pendingStore) + 1) 60
                    chain110Confirmed
                  = (chain110Confirmed, Ok [hashOfEvent event105 0; "0xdead"]))
    by (vm_compute; reflexivity).
  repeat (split; [assumption|]).
  exact (proj1 (@checkRelayedMessages_marks_every_confirmed_message Script.t
                  demoOptions pendingStore 60 chain110Confirmed
                  chain110Confirmed [hashOfEvent event105 0; "0xdead"]
                  Hhead Hlt Hscan)).
Defined.

(** The confirmation of the end-to-end scenario, by its outcome. *)
Example confirmation_marks_the_pending_message :
  Map_get
    (State.messageQueue
       (state (fst (@checkRelayedMessages Script.t demoOptions pendingStore))))
    (hashOfEvent event105 0)
  = Some (storedMessage event105 true)
  /\ State.lastScannedL2Block
       (state (fst (@checkRelayedMessages Script.t demoOptions pendingStore)))
     = 60.
Proof. vm_compute. repeat split. Qed.

Lemma main_without_new_blocks_only_marks_witness :
  Provider.getBlockNumber (Options.l1RpcProvider demoOptions)
    (world twoPending)
  = (chain110, Ok 110)
  /\ 110 <= State.lastScannedL1Block (state twoPending)
  /\ Map_keys
       (State.messageQueue
          (state (fst (@main Script.t scriptedEthers optimismConstants
                         demoOptions twoPending))))
     = Map_keys (State.messageQueue (state twoPending)).
Proof.
  assert (Hhead : Provider.getBlockNumber (Options.l1RpcProvider demoOptions)
                    (world twoPending)
                  = (chain110, Ok 110)) by reflexivity.
  assert (Hle : 110 <= State.lastScannedL1Block (state twoPending))
    by (vm_compute; discriminate).
  repeat (split; [assumption|]).
  exact (proj1 (@main_without_new_blocks_only_marks Script.t scriptedEthers
                  optimismConstants demoOptions twoPending chain110 110
                  Hhead Hle)).
Defined.

Lemma main_throws_only_from_scans_witness :
  snd (@main Script.t scriptedEthers optimismConstants demoOptions
         (startAt unreachableL1 [] 100 60))
  = Throw (ProviderError (-32603))
  /\ exists lines,
       console (fst (@main Script.t scriptedEthers optimismConstants
                       demoOptions (startAt unreachableL1 [] 100 60)))
       = console (startAt unreachableL1 [] 100 60) ++ lines
       /\ attempted lines = [] /\ failed lines = [].
Proof.
  assert (Hthrow : snd (@main Script.t scriptedEthers optimismConstants
                          demoOptions (startAt unreachableL1 [] 100 60))
                   = Throw (ProviderError (-32603)))
    by (vm_compute; reflexivity).
  split; [exact Hthrow|].
  exact (proj2 (@main_throws_only_from_scans Script.t scriptedEthers
                  optimismConstants demoOptions
                  (startAt unreachableL1 [] 100 60)
                  (ProviderError (-32603)) Hthrow)).
Defined.

Lemma twoPending_distinct :
  NoDup (Map_keys (State.messageQueue (state twoPending))).
Proof.
  vm_compute. constructor.
  - intros [Heq|[]]. discriminate Heq.
  - constructor; [intros []|constructor].
Defined.

Lemma relayPendingMessages_leaves_failed_pending_witness :
  NoDup (Map_keys (State.messageQueue (state twoPending)))
  /\ exists lines,
       console (fst (@relayPendingMessages Script.t scriptedEthers
                       optimismConstants demoOptions twoPending))
       = console twoPending ++ lines
       /\ pendingHashes
            (State.messageQueue
               (state (fst (@relayPendingMessages Script.t scriptedEthers
                              optimismConstants demoOptions twoPending))))
          = failed lines.
Proof.
  split; [exact twoPending_distinct|].
  destruct (@relayPendingMessages_leaves_failed_pending Script.t
              scriptedEthers optimismConstants demoOptions twoPending
              twoPending_distinct)
    as (lines & Hc & _ & Hp & _).
  exists lines. split; assumption.
Defined.

Lemma main_completed_gauge_counts_pending_witness :
  snd (@main Script.t scriptedEthers optimismConstants demoOptions twoPending)
  = Ok tt
  /\ Metrics.pendingMessages
       (metrics (fst (@main Script.t scriptedEthers optimismConstants
                        demoOptions twoPending)))
     = Z.of_nat
         (List.length
            (pendingHashes
               (State.messageQueue
                  (state (fst (@main Script.t scriptedEthers optimismConstants
                                 demoOptions twoPending)))))).
Proof.
  assert (Hok : snd (@main Script.t scriptedEthers optimismConstants
                       demoOptions twoPending) = Ok tt)
    by (vm_compute; reflexivity).
  split; [exact Hok|].
  exact (proj1 (@main_completed_gauge_counts_pending Script.t scriptedEthers
                  optimismConstants demoOptions twoPending Hok)).
Defined.

(** The cycle on two pending messages of which the first cannot be
    relayed: one message is pending at the end, and the gauge says so. *)
Example cycle_with_one_failed_relay :
  Metrics.pendingMessages
    (metrics (fst (@main Script.t scriptedEthers optimismConstants
                     demoOptions twoPending)))
  = 1
  /\ pendingHashes
       (State.messageQueue
          (state (fst (@main Script.t scriptedEthers optimismConstants
                         demoOptions twoPending))))
     = [hashOfEvent event106 0].
Proof. vm_compute. repeat split. Qed.

Lemma relayL1Message_returns_after_send_and_receipt_witness :
  @relayL1Message Script.t scriptedEthers optimismConstants
    (Options.l2RpcProvider demoOptions) addrA addrB "0x1234" (ArgString "1")
    5 200000 (startAt chain110 [] 110 60)
  = (fst (@relayL1Message Script.t scriptedEthers optimismConstants
            (Options.l2RpcProvider demoOptions) addrA addrB "0x1234"
            (ArgString "1") 5 200000 (startAt chain110 [] 110 60)),
     Ok relayReceipt)
  /\ exists submitted, versionedNonce (ArgString "1") = Ok submitted.
Proof.
  assert (Hrun : @relayL1Message Script.t scriptedEthers optimismConstants
                   (Options.l2RpcProvider demoOptions) addrA addrB "0x1234"
                   (ArgString "1") 5 200000 (startAt chain110 [] 110 60)
                 = (fst (@relayL1Message Script.t scriptedEthers
                           optimismConstants
                           (Options.l2RpcProvider demoOptions) addrA addrB
                           "0x1234" (ArgString "1") 5 200000
                           (startAt chain110 [] 110 60)),
                    Ok relayReceipt))
    by (vm_compute; reflexivity).
  split; [exact Hrun|].
  destruct (@relayL1Message_returns_after_send_and_receipt Script.t
              scriptedEthers optimismConstants
              (Options.l2RpcProvider demoOptions) addrA
              addrB "0x1234" (ArgString "1") 5 200000
              (startAt chain110 [] 110 60) _ relayReceipt Hrun)
    as (submitted & _ & _ & _ & Hv & _).
  now exists submitted.
Defined.

(** The relay call of the scenario, with a value: the balance is set, the
    transaction goes out and is confirmed in block 7. *)
Example relay_call_with_value :
  console
    (fst (@relayL1Message Script.t scriptedEthers optimismConstants
            (Options.l2RpcProvider demoOptions) addrA addrB "0x1234"
            (ArgString "1") 5 200000 (startAt chain110 [] 110 60)))
  = [SetMessengerBalance 5; RelayTransactionSent "0x7e1a";
     TransactionConfirmed 7].
Proof. vm_compute. reflexivity. Qed.

(** The node sees the relay transaction of a stored message only when the
    contract call accepts its fields.  A message whose gas limit is
    [2 ^ 53 - 1] is indexed and stored like any other, but every relay of
    it is refused before anything is sent, so it stays Pending. *)
Example unrelayable_gas_limit_stays_pending :
  @pairSentMessages scriptedEthers [event108] [] = Ok [indexedMessage event108]
  /\ @relayL1Message (list RpcRequest) scriptedEthers optimismConstants
       recordingProvider addrA addrB "0x" (ArgString "4") 0 9007199254740991
       recordingStart
     = ({| world := [];
           state := state recordingStart;
           metrics := metrics recordingStart;
           console := [ErrorRelaying (NumericFault "overflow")] |},
        Throw (NumericFault "overflow"))
  /\ State.messageQueue
       (state (fst (@relayPendingMessages Script.t scriptedEthers
                      optimismConstants demoOptions
                      (startAt chain110
                         [(hashOfEvent event108 0,
                           storedMessage event108 false)] 110 60))))
     = [(hashOfEvent event108 0, storedMessage event108 false)].
Proof. vm_compute. repeat split. Qed.

Lemma encodeCrossDomainMessageV1_injective_witness :
  @encodeCrossDomainMessageV1 scriptedEthers (ArgBigNumber 1) addrA addrB 0
    (ArgBigNumber 200000) "0x1234"
  = Ok encodingOfEvent105
  /\ @encodeCrossDomainMessageV1 scriptedEthers (ArgString "1") addrA addrB 0
       (ArgNumber 200000) "0x1234"
     = Ok encodingOfEvent105
  /\ BigNumber_from (ArgBigNumber 1) = BigNumber_from (ArgString "1").
Proof.
  assert (H1 : @encodeCrossDomainMessageV1 scriptedEthers (ArgBigNumber 1)
                 addrA addrB 0 (ArgBigNumber 200000) "0x1234"
               = Ok encodingOfEvent105) by (vm_compute; reflexivity).
  assert (H2 : @encodeCrossDomainMessageV1 scriptedEthers (ArgString "1")
                 addrA addrB 0 (ArgNumber 200000) "0x1234"
               = Ok encodingOfEvent105) by (vm_compute; reflexivity).
  repeat (split; [assumption|]).
  exact (proj1 (@encodeCrossDomainMessageV1_injective scriptedEthers
                  (ArgBigNumber 1) addrA addrB 0 (ArgBigNumber 200000)
                  "0x1234" (ArgString "1") addrA addrB 0 (ArgNumber 200000)
                  "0x1234" encodingOfEvent105 H1 H2)).
Defined.

Lemma hashCrossDomainMessageV1_collision_witness :
  @hashCrossDomainMessageV1 scriptedEthers (ArgBigNumber 1) addrA addrB 0
    (ArgBigNumber 200000) "0x1234"
  = Ok (hashOfEvent event105 0)
  /\ @hashCrossDomainMessageV1 scriptedEthers (ArgString "1") addrA addrB 0
       (ArgNumber 200000) "0x1234"
     = Ok (hashOfEvent event105 0)
  /\ (BigNumber_from (ArgBigNumber 1) = BigNumber_from (ArgString "1")
      \/ exists encoded encoded',
           encoded <> encoded'
           /\ @keccak256 scriptedEthers encoded
              = @keccak256 scriptedEthers encoded').
Proof.
  assert (H1 : @hashCrossDomainMessageV1 scriptedEthers (ArgBigNumber 1)
                 addrA addrB 0 (ArgBigNumber 200000) "0x1234"
               = Ok (hashOfEvent event105 0)) by (vm_compute; reflexivity).
  assert (H2 : @hashCrossDomainMessageV1 scriptedEthers (ArgString "1")
                 addrA addrB 0 (ArgNumber 200000) "0x1234"
               = Ok (hashOfEvent event105 0)) by (vm_compute; reflexivity).
  repeat (split; [assumption|]).
  destruct (@hashCrossDomainMessageV1_collision scriptedEthers
              (ArgBigNumber 1) addrA addrB 0 (ArgBigNumber 200000) "0x1234"
              (ArgString "1") addrA addrB 0 (ArgNumber 200000) "0x1234"
              (hashOfEvent event105 0) H1 H2)
    as [(Hn & _)|(encoded & encoded' & _ & _ & Hne & Hk)].
  - now left.
  - right. exists encoded, encoded'. split; assumption.
Defined.

Lemma pairSentMessages_one_record_per_event_witness :
  @pairSentMessages scriptedEthers [event105; event106] [] = Ok scanned110
  /\ List.length scanned110 = List.length [event105; event106].
Proof.
  assert (Hpair : @pairSentMessages scriptedEthers [event105; event106] []
                  = Ok scanned110) by (vm_compute; reflexivity).
  split; [exact Hpair|].
  exact (proj1 (@pairSentMessages_one_record_per_event scriptedEthers
                  [event105; event106] [] scanned110 Hpair)).
Defined.

Lemma unsafe_gasLimit_fails_the_scan_witness :
  In event107 [event105; event107]
  /\ 2 ^ 53 <= SentMessageEvent.gasLimit event107
  /\ exists err,
       @pairSentMessages scriptedEthers [event105; event107] [] = Throw err.
Proof.
  assert (Hin : In event107 [event105; event107]) by (right; now left).
  assert (Hbig : 2 ^ 53 <= SentMessageEvent.gasLimit event107)
    by (vm_compute; discriminate).
  repeat (split; [assumption|]).
  exact (proj1 (@unsafe_gasLimit_fails_the_scan Script.t scriptedEthers
                  demoOptions [event105; event107] [] event107 Hin Hbig)).
Defined.

(** The scan of the events of blocks 105 and 107: the gas limit of the
    second event does not convert, and no record is returned for the
    first either. *)
Example scan_with_an_unsafe_gas_limit :
  @pairSentMessages scriptedEthers [event105; event107] []
  = Throw (NumericFault "overflow").
Proof. vm_compute. reflexivity. Qed.

Lemma balanceHexStripped_spells_the_balance_witness :
  0 <= 10000000000000000000
  /\ exists digits,
       balanceHexStripped 10000000000000000000
       = String "0" (String "x" digits)
       /\ hexValue digits 0 = Some 10000000000000000000.
Proof.
  assert (Hnn : 0 <= 10000000000000000000) by (vm_compute; discriminate).
  split; [exact Hnn|].
  destruct (balanceHexStripped_spells_the_balance 10000000000000000000 Hnn)
    as (digits & Hs & Hv & _).
  exists digits. split; assumption.
Defined.

Lemma indexNewMessages_keeps_partial_progress_witness :
  Provider.getBlockNumber (Options.l1RpcProvider prunedOptions)
    (world (startAt chain110 [] 100 60))
  = (chain110, Ok 110)
  /\ State.lastScannedL1Block (state (startAt chain110 [] 100 60)) < 110
  /\ @pairSentMessages scriptedEthers [event105; event106] [] = Ok scanned110
  /\ snd (@indexNewMessages Script.t scriptedEthers prunedOptions
            (startAt chain110 [] 100 60))
     = Throw (TypeError "block.timestamp")
  /\ exists done msg rest,
       scanned110 = done ++ msg :: rest
       /\ Metrics.messagesSent
            (metrics (fst (@indexNewMessages Script.t scriptedEthers
                             prunedOptions (startAt chain110 [] 100 60))))
          = Metrics.messagesSent (metrics (startAt chain110 [] 100 60))
            + Z.of_nat (List.length done)
       /\ State.lastScannedL1Block
            (state (fst (@indexNewMessages Script.t scriptedEthers
                           prunedOptions (startAt chain110 [] 100 60))))
          = State.lastScannedL1Block (state (startAt chain110 [] 100 60)).
Proof.
  assert (Hhead : Provider.getBlockNumber (Options.l1RpcProvider prunedOptions)
                    (world (startAt chain110 [] 100 60))
                  = (chain110, Ok 110)) by reflexivity.
  assert (Hlt : State.lastScannedL1Block (state (startAt chain110 [] 100 60))
                < 110) by (vm_compute; reflexivity).
  assert (Hsent : Provider.querySentMessage
                    (Options.l1RpcProvider prunedOptions)
                    (State.lastScannedL1Block
                       (state (startAt chain110 [] 100 60)) + 1) 110 chain110
                  = (chain110, Ok [event105; event106]))
    by (vm_compute; reflexivity).
  assert (Hext : Provider.querySentMessageExtension1
                   (Options.l1RpcProvider prunedOptions)
                   (State.lastScannedL1Block
                      (state (startAt chain110 [] 100 60)) + 1) 110 chain110
                 = (chain110, Ok [])) by (vm_compute; reflexivity).
  assert (Hpair : @pairSentMessages scriptedEthers [event105; event106] []
                  = Ok scanned110) by (vm_compute; reflexivity).
  assert (Hthrow : snd (@indexNewMessages Script.t scriptedEthers prunedOptions
                          (startAt chain110 [] 100 60))
                   = Throw (TypeError "block.timestamp"))
    by (vm_compute; reflexivity).
  repeat (split; [assumption|]).
  destruct (@indexNewMessages_keeps_partial_progress Script.t scriptedEthers
              prunedOptions (startAt chain110 [] 100 60) 110 chain110 chain110
              chain110 [event105; event106] [] scanned110
              (TypeError "block.timestamp") Hhead Hlt Hsent Hext Hpair Hthrow)
    as (done & msg & rest & Hsplit & Hcount & _ & _ & Hcursor).
  exists done, msg, rest. repeat split; assumption.
Defined.

(** On the node without block 106 the first message is stored and counted
    although the cycle threw and the cursor did not move. *)
Example partial_indexing_on_a_pruned_node :
  Map_keys
    (State.messageQueue
       (state (fst (@indexNewMessages Script.t scriptedEthers prunedOptions
                      (startAt chain110 [] 100 60)))))
  = [hashOfEvent event105 0]
  /\ Metrics.messagesSent
       (metrics (fst (@indexNewMessages Script.t scriptedEthers prunedOptions
                        (startAt chain110 [] 100 60))))
     = 1
  /\ State.lastScannedL1Block
       (state (fst (@indexNewMessages Script.t scriptedEthers prunedOptions
                      (startAt chain110 [] 100 60))))
     = 100.
Proof. vm_compute. repeat split. Qed.

(** Ten ether, the balance the demo script sets, and the balance zero. *)
Example balanceHexStripped_of_ten_ether :
  BigNumber_toHexString 10000000000000000000 = "0x8ac7230489e80000"
  /\ balanceHexStripped 10000000000000000000 = "0x8ac7230489e80000"
  /\ BigNumber_toHexString 4096 = "0x1000"
  /\ balanceHexStripped 4096 = "0x1000"
  /\ BigNumber_toHexString 256 = "0x0100"
  /\ balanceHexStripped 256 = "0x100"
  /\ BigNumber_toHexString 0 = "0x00"
  /\ balanceHexStripped 0 = "0x".
Proof. vm_compute. repeat split. Qed.

Lemma getSentMessageFromTx_returns_first_SentMessage_witness :
  getSentMessageFromTx messengerAddress scriptedParseLog receiptLogs
  = Ok (Some sentMessageOfReceipt)
  /\ exists logsBefore log logsAfter,
       receiptLogs = logsBefore ++ log :: logsAfter
       /\ toLowerCase (Log.address log) = toLowerCase messengerAddress.
Proof.
  assert (Hget : getSentMessageFromTx messengerAddress scriptedParseLog
                   receiptLogs
                 = Ok (Some sentMessageOfReceipt))
    by (vm_compute; reflexivity).
  split; [exact Hget|].
  destruct (getSentMessageFromTx_returns_first_SentMessage messengerAddress
              scriptedParseLog receiptLogs sentMessageOfReceipt Hget)
    as (logsBefore & log & logsAfter & _ & _ & Hsplit & Haddr & _).
  exists logsBefore, log, logsAfter. split; assumption.
Defined.

Lemma demoMessageHash_agrees_with_indexer_witness :
  SentMessageFromTx.messageNonce sentMessageOfReceipt = BigNumber_toString 1
  /\ BigNumber_toNumber 200000
     = Ok (SentMessageFromTx.gasLimit sentMessageOfReceipt)
  /\ (Z.abs 200000 < 2 ^ 53 - 1 ->
      @demoMessageHash scriptedEthers sentMessageOfReceipt
      = @hashCrossDomainMessageV1 scriptedEthers (ArgBigNumber 1)
          (SentMessageFromTx.sender sentMessageOfReceipt)
          (SentMessageFromTx.target sentMessageOfReceipt)
          (SentMessageFromTx.value sentMessageOfReceipt)
          (ArgBigNumber 200000)
          (SentMessageFromTx.message sentMessageOfReceipt)).
Proof.
  assert (Hnonce : SentMessageFromTx.messageNonce sentMessageOfReceipt
                   = BigNumber_toString 1) by reflexivity.
  assert (Hgas : BigNumber_toNumber 200000
                 = Ok (SentMessageFromTx.gasLimit sentMessageOfReceipt))
    by (vm_compute; reflexivity).
  repeat (split; [assumption|]).
  exact (proj1 (@demoMessageHash_agrees_with_indexer scriptedEthers
                  sentMessageOfReceipt 1 200000 Hnonce Hgas)).
Defined.

Lemma init_indexes_history_witness :
  snd (@init Script.t scriptedEthers demoOptions (startAt chain110 [] 0 0))
  = Ok tt
  /\ @pairSentMessages scriptedEthers [event105; event106] [] = Ok scanned110
  /\ Metrics.messagesSent
       (metrics (fst (@init Script.t scriptedEthers demoOptions
                        (startAt chain110 [] 0 0))))
     = Z.of_nat (List.length scanned110)
  /\ Metrics.pendingMessages
       (metrics (fst (@init Script.t scriptedEthers demoOptions
                        (startAt chain110 [] 0 0))))
     = 0.
Proof.
  assert (Hok : snd (@init Script.t scriptedEthers demoOptions
                       (startAt chain110 [] 0 0)) = Ok tt)
    by (vm_compute; reflexivity).
  assert (Hpair : @pairSentMessages scriptedEthers [event105; event106] []
                  = Ok scanned110) by (vm_compute; reflexivity).
  assert (Hh1 : Provider.getBlockNumber (Options.l1RpcProvider demoOptions)
                  (world (startAt chain110 [] 0 0))
                = (chain110, Ok 110)) by reflexivity.
  assert (Hh2 : Provider.getBlockNumber (Options.l2RpcProvider demoOptions)
                  chain110
                = (chain110, Ok 60)) by reflexivity.
  assert (Hsent : Provider.querySentMessage (Options.l1RpcProvider demoOptions)
                    (Options.l1StartBlock demoOptions) 110 chain110
                  = (chain110, Ok [event105; event106]))
    by (vm_compute; reflexivity).
  assert (Hext : Provider.querySentMessageExtension1
                   (Options.l1RpcProvider demoOptions)
                   (Options.l1StartBlock demoOptions) 110 chain110
                 = (chain110, Ok [])) by (vm_compute; reflexivity).
  repeat (split; [assumption|]).
  destruct (@init_indexes_history Script.t scriptedEthers demoOptions
              (startAt chain110 [] 0 0) chain110 chain110 chain110 chain110
              110 60 [event105; event106] [] scanned110
              Hh1 Hh2 Hsent Hext Hpair Hok)
    as (_ & _ & _ & Hcount & Hpen & _).
  split; assumption.
Defined.

(** After [init] on the chain of the scenario both messages are stored and
    pending while the gauge [pendingMessages] reads 0; the first cycle sets
    it. *)
Example init_leaves_the_pending_gauge_at_zero :
  pendingHashes
    (State.messageQueue
       (state (fst (@init Script.t scriptedEthers demoOptions
                      (startAt chain110 [] 0 0)))))
  = [hashOfEvent event105 0; hashOfEvent event106 0]
  /\ Metrics.pendingMessages
       (metrics (fst (@init Script.t scriptedEthers demoOptions
                        (startAt chain110 [] 0 0))))
     = 0.
Proof. vm_compute. repeat split. Qed.
